(** * scipy.linalg.basic: dispatch, aliasing and numerical-policy layer

    A shallow embedding of [scipy/linalg/basic.py].  The module is a thin
    policy layer over LAPACK: every public function validates its
    arguments, decides which buffers a kernel may overwrite, calls one or
    more kernels and turns the kernel's integer status into a result or an
    exception.  The embedding keeps exactly that: Python objects with the
    identity of the buffer they own, a store of buffers, the log of kernel
    look-ups and invocations, and the exceptions.  The kernels themselves
    are a parameter (an oracle giving, for each invocation, the final
    contents of the array arguments and the scalar outputs).

    Floating point values are IEEE binary64, the kernel's primitive floats,
    so the numeric policies ([int(1.01 * lwork)], [1E6 * eps]) are the
    source's own expressions and evaluate.  The elements of a
    single-precision array are binary64 values too (those a binary32
    holds); where the module itself computes on such an array (the cutoff
    comparison and the reciprocals of the pseudo-inverses, the squares of
    the residual) the result is rounded to binary32 as numpy does. *)

From Stdlib Require Import ZArith String List Bool Lia Floats.
From stdpp Require Import base option list.
Import ListNotations.

Local Open Scope string_scope.
Local Open Scope list_scope.
Local Open Scope nat_scope.

(** ** Python numbers *)

Module Py.

(** [int(x)] for a Python float: truncation toward zero; [None] stands
      for the exception raised on NaN (ValueError) and on an infinity
      (OverflowError). *)
Definition int_of_float (x : float) : option Z :=
    match Prim2SF x with
    | S754_zero _ => Some 0%Z
    | S754_finite s m e =>
        let mag := Z.shiftl (Zpos m) e in
        Some (if s then (- mag)%Z else mag)
    | S754_infinity _ | S754_nan => None
    end.

(** [float(n)] for a Python int, as performed by [1.01 * n]: the nearest
      binary64 value. *)
Definition float_of_int (n : Z) : float :=
    SF2Prim (binary_normalize prec emax n 0 false).

(** The literal [1.01], i.e. the binary64 value nearest to it. *)
Definition lit_1_01 : float := 0x1.028f5c28f5c29p+0%float.
Definition lit_1E3 : float := 1000%float.
Definition lit_1E6 : float := 1000000%float.

(** [x.astype(np.int)] on a float (a C cast to a 64-bit integer:
      truncation; out of range and NaN give the x86 "integer indefinite"
      value). *)
Definition astype_int (x : float) : Z :=
    match int_of_float x with
    | Some z => if ((- 2 ^ 63 <=? z) && (z <? 2 ^ 63))%Z then z else (- 2 ^ 63)%Z
    | None => (- 2 ^ 63)%Z
    end.

(** The C cast [(float) x]: the binary32 value nearest to a binary64 value
      (ties to even, overflow to an infinity), as a binary64 value again. *)
Definition round32 (x : float) : float :=
    match Prim2SF x with
    | S754_finite s m e =>
        SF2Prim (binary_normalize 24 128 (if s then Zneg m else Zpos m) e s)
    | _ => x
    end.

(** The bound [3.4e38] of numpy's test whether a float64 scalar may be
      used as a float32 one. *)
Definition lit_3_4e38 : float := 0x1.ff933c78cdfadp+127%float.

End Py.

(** ** Array elements and element types *)

(** A numpy element: real or complex, both over binary64. *)
Inductive scalar : Type :=
| Re (x : float)
| Cx (re im : float).

(** The four element types of the LAPACK wrappers, by numpy's [dtype.char]:
    ['f'], ['d'], ['F'], ['D']. *)
Inductive dtype : Type := float32 | float64 | complex64 | complex128.

Definition dtype_char (t : dtype) : string :=
  match t with
  | float32 => "f" | float64 => "d" | complex64 => "F" | complex128 => "D"
  end.

Definition is_complex (t : dtype) : bool :=
  match t with complex64 | complex128 => true | _ => false end.

Definition is_double (t : dtype) : bool :=
  match t with float64 | complex128 => true | _ => false end.

Definition dtype_eqb (t1 t2 : dtype) : bool :=
  match t1, t2 with
  | float32, float32 | float64, float64 | complex64, complex64
  | complex128, complex128 => true
  | _, _ => false
  end.

(** The real element type of the same precision. *)
Definition real_dtype (t : dtype) : dtype :=
  if is_double t then float64 else float32.

(** numpy's common type of two of these element types. *)
Definition common_type (t1 t2 : dtype) : dtype :=
  match is_complex t1 || is_complex t2, is_double t1 || is_double t2 with
  | true, true => complex128
  | true, false => complex64
  | false, true => float64
  | false, false => float32
  end.

Module Scalar.

Definition real (z : scalar) : float :=
    match z with Re x => x | Cx a _ => a end.

(** [z.conj()] *)
Definition conj (z : scalar) : scalar :=
    match z with Re x => Re x | Cx a b => Cx a (- b)%float end.

Definition is_finite (z : scalar) : bool :=
    match z with
    | Re x => PrimFloat.is_finite x
    | Cx a b => PrimFloat.is_finite a && PrimFloat.is_finite b
    end.

(** Storing a value into an array of element type [t]. *)
Definition cast (t : dtype) (z : scalar) : scalar :=
    match z with
    | Re x => if is_complex t then Cx x 0 else Re x
    | Cx a b => if is_complex t then Cx a b else Re a
    end.

Definition zero (t : dtype) : scalar := cast t (Re 0).
Definition one (t : dtype) : scalar := cast t (Re 1).

End Scalar.

(** ** Shapes, arrays and Python objects *)

(** Arrays of up to two dimensions (the data model's vectors and matrices,
    and the 0-d arrays that Python scalars validate to). *)
Inductive shape : Type :=
| Sh0
| Sh1 (n : nat)
| Sh2 (r c : nat).

Definition ndim (s : shape) : nat :=
  match s with Sh0 => 0 | Sh1 _ => 1 | Sh2 _ _ => 2 end.

Definition size (s : shape) : nat :=
  match s with Sh0 => 1 | Sh1 n => n | Sh2 r c => r * c end.

(** [s[0]], [s[1]] and [s[-1]] of the shape tuple; [None] is IndexError. *)
Definition dim0 (s : shape) : option nat :=
  match s with Sh0 => None | Sh1 n => Some n | Sh2 r _ => Some r end.

Definition dim1 (s : shape) : option nat :=
  match s with Sh2 _ c => Some c | _ => None end.

Definition dim_last (s : shape) : option nat :=
  match s with Sh0 => None | Sh1 n => Some n | Sh2 _ c => Some c end.

(** An [ndarray] object: it owns the buffer [buf] of the store, which holds
    its elements in row-major order. *)
Record ndarray : Type := mk_ndarray {
  buf : nat;
  shp : shape;
  dty : dtype
}.

(** What a caller may pass where the docstrings say "array_like":
    an ndarray (validation hands back the very same object), a nested
    Python sequence or number (validation builds a fresh array from it),
    or [None]. *)
Inductive pyobj : Type :=
| PyNone
| PyArray (a : ndarray)
| PySeq (s : shape) (t : dtype) (elts : list scalar).

(** An array value travelling between the wrapper and a kernel: contents,
    shape, and the place in the store it is a view of, if any (buffer and
    offset); [None] for a temporary. *)
Record aval : Type := mk_aval {
  a_data : list scalar;
  a_shape : shape;
  a_dtype : dtype;
  a_mem : option (nat * nat)
}.

(** ** Exceptions *)

Inductive exn : Type :=
| ValueError (msg : string) (args : list Z)
| LinAlgError (msg : string) (args : list Z)
| ValidationError (msg : string)
| UnboundLocalError (var : string)
| AttributeError (attr : string)
| IndexError
| KeyError (key : string)
| TypeError
| OverflowError.

(** ** Kernels *)

(** An array argument of a kernel, with the overwrite permission passed
    for it. *)
Record karg : Type := mk_karg {
  k_val : aval;
  k_ow : bool
}.

(** One kernel invocation, with the arguments the wrapper passes. *)
Inductive kcall : Type :=
| posv (a b : karg) (lower : bool)
| gesv (a b : karg)
| gtsv (dl d du b : karg)
| gbsv (l u : Z) (ab b : karg)
| ptsv (d e b : karg)
| pbsv (ab b : karg) (lower : bool)
| levinson (vals b : aval)
| getrf (a : karg)
| getri_lwork (n : nat)
| getri (lu : karg) (piv : list Z) (lwork : Z)
| gelss (a b : karg) (cond : option float) (lwork : Z)
| svd (a : aval)
| eigh (a : aval) (lower : bool).

(** The array arguments of an invocation, in order. *)
Definition kargs (c : kcall) : list karg :=
  match c with
  | posv a b _ | gesv a b | gbsv _ _ a b | pbsv a b _ | gelss a b _ _ => [a; b]
  | gtsv dl d du b => [dl; d; du; b]
  | ptsv d e b => [d; e; b]
  | getrf a => [a]
  | getri lu _ _ => [lu]
  | levinson _ _ | getri_lwork _ | svd _ | eigh _ _ => []
  end.

(** What a kernel hands back: the final contents of its array arguments
    (in the order of [kargs]: the factorisation where the matrix was, the
    solution where the right-hand side was), further arrays, real values
    (singular values, eigenvalues), pivots, rank, workspace size, status. *)
Record kreply : Type := mk_kreply {
  r_args : list (list scalar);
  r_outs : list (list scalar);
  r_reals : list float;
  r_piv : list Z;
  r_rank : Z;
  r_work : scalar;
  r_info : Z
}.

Definition kernel_lib : Type := kcall -> kreply.

(** ** The store and the log *)

Inductive event : Type :=
| Lookup (names : list string)
| Invoke (c : kcall).

Record state : Type := mk_state {
  mem : list (list scalar);
  log : list event
}.

(** Reading and writing [n] elements at offset [off] of a buffer. *)
Definition peek (off n : nat) (b : list scalar) : list scalar :=
  take n (drop off b).

Definition poke (off : nat) (new b : list scalar) : list scalar :=
  take off b ++ take (length b - off) new ++ drop (off + length new) b.

(** Modelled from the spec: the kernel wrappers are not among the sources.
    Section 6: a kernel takes "normalized matrix/vector buffers and boolean
    overwrite permissions"; section 5: a call is "side-effect-free except
    for explicit in-place mutation of caller-donated buffers".  So a kernel
    writes into the store only through an array argument that was passed
    with its overwrite permission set and that is a view of the store; what
    it leaves there is the final contents of that argument. *)
Definition write_arg (m : list (list scalar)) (af : karg * list scalar) : list (list scalar) :=
  let '(a, final) := af in
  match k_ow a, a_mem (k_val a) with
  | true, Some (b, off) =>
      match m !! b with
      | Some old => <[ b := poke off (take (length (a_data (k_val a))) final) old ]> m
      | None => m
      end
  | _, _ => m
  end.

Definition write_back (args : list karg) (finals : list (list scalar))
    (m : list (list scalar)) : list (list scalar) :=
  fold_left write_arg (combine args finals) m.

(** ** The monad of the wrappers: store and log threaded, exceptions *)

Inductive outcome (A : Type) : Type :=
| Return (a : A)
| Raise (e : exn).
Arguments Return {A} a.
Arguments Raise {A} e.

Definition py (A : Type) : Type := state -> outcome A * state.

Definition ret {A} (a : A) : py A := fun s => (Return a, s).
Definition raise {A} (e : exn) : py A := fun s => (Raise e, s).
Definition bind {A B} (m : py A) (k : A -> py B) : py B :=
  fun s => match m s with
           | (Return a, s') => k a s'
           | (Raise e, s') => (Raise e, s')
           end.

Declare Scope py_scope.
Delimit Scope py_scope with py.
Notation "'do' x <- m ; k" := (bind m (fun x => k))
  (at level 10, x pattern, m at level 100, k at level 200) : py_scope.
Notation "'do_' m ; k" := (bind m (fun _ => k))
  (at level 10, m at level 100, k at level 200) : py_scope.
Local Open Scope py_scope.

(** Indexing a tuple or an array out of range. *)
Definition index {A} (o : option A) : py A :=
  match o with Some a => ret a | None => raise IndexError end.

(** Allocation of a fresh array holding [d]. *)
Definition alloc (s : shape) (t : dtype) (d : list scalar) : py ndarray :=
  fun st => (Return (mk_ndarray (length (mem st)) s t),
             mk_state (mem st ++ [d]) (log st)).

Definition contents (a : ndarray) : py (list scalar) :=
  fun st => (Return (default [] (mem st !! buf a)), st).

Definition emit (e : event) : py unit :=
  fun st => (Return tt, mk_state (mem st) (log st ++ [e])).

Definition store (a : ndarray) (off : nat) (d : list scalar) : py unit :=
  fun st =>
    (Return tt,
     mk_state (match mem st !! buf a with
               | Some old => <[ buf a := poke off d old ]> (mem st)
               | None => mem st
               end) (log st)).

(** The array itself, as a kernel argument: a view of its whole buffer. *)
Definition whole (a : ndarray) : py aval :=
  do d <- contents a;
  ret (mk_aval d (shp a) (dty a) (Some (buf a, 0))).

(** [a[i, start:]] (with [cut = 0]) and [a[i, start:-cut]]: a view of a
    piece of row [i].  IndexError when [a] is not two-dimensional ("too
    many indices") or has no row [i]. *)
Definition row_slice (a : ndarray) (i start cut : nat) : py aval :=
  match shp a with
  | Sh2 r c =>
      if i <? r then
        do d <- contents a;
        let off := i * c + Nat.min start c in
        let n := (c - cut) - start in
        ret (mk_aval (peek off n d) (Sh1 n) (dty a) (Some (buf a, off)))
      else raise IndexError
  | _ => raise IndexError
  end.

(** [v.real]: the real parts of the elements.  On a real array this is the
    array itself (same memory, the elements being their own real parts); on
    a complex array it is the strided view of the real parts, which no
    kernel can use in place. *)
Definition real_view (v : aval) : aval :=
  mk_aval (map (fun z => Re (Scalar.real z)) (a_data v)) (a_shape v)
          (real_dtype (a_dtype v))
          (if is_complex (a_dtype v) then None else a_mem v).

(** [v.conj()] and [v.conjugate()]: the conjugates of the elements.  On a
    complex array this is a new array; on a real array numpy returns the
    array itself (same memory, the elements being their own conjugates). *)
Definition array_conj (v : aval) : aval :=
  mk_aval (map Scalar.conj (a_data v)) (a_shape v) (a_dtype v)
          (if is_complex (a_dtype v) then None else a_mem v).

(** [o.shape] on the caller's own object: only an ndarray has it. *)
Definition attr_shape (o : pyobj) : py shape :=
  match o with
  | PyArray a => ret (shp a)
  | _ => raise (AttributeError "shape")
  end.

(** What the kernel wrapper makes of an object passed to it unvalidated:
    an ndarray is used as it is, a sequence is converted to a temporary. *)
Definition as_kernel_arg (o : pyobj) : py aval :=
  match o with
  | PyArray a => whole a
  | PySeq s t d => ret (mk_aval d s t None)
  | PyNone => raise TypeError
  end.

(** The start of the Python slice [l:] of a sequence of length [n]. *)
Definition slice_start (l : Z) (n : nat) : nat :=
  if (l <? 0)%Z then Z.to_nat (Z.max 0 (Z.of_nat n + l))
  else Nat.min (Z.to_nat l) n.

(** [dst[l:, :] = src] for two-dimensional arrays. *)
Definition assign_rows (dst : ndarray) (l : Z) (src : ndarray) : py unit :=
  match shp dst, shp src with
  | Sh2 R c, Sh2 r c' =>
      let start := slice_start l R in
      let sel := R - start in
      do d <- contents src;
      let d' := map (Scalar.cast (dty dst)) d in
      if (c =? c') && (r =? sel) then store dst (start * c) d'
      else if (c =? c') && (r =? 1) then store dst (start * c) (concat (repeat d' sel))
      else raise (ValueError "could not broadcast input array" [])
  | _, _ => raise (ValueError "could not broadcast input array" [])
  end.

(** ** The validation and aliasing layer *)

(** Modelled from the spec: [_asarray_validated] of scipy/linalg/decomp.py
    is not among the sources.  Section 4.1: "accept array-like input,
    return a validated numeric array of consistent element type; optionally
    verify all values finite, failing with a ValidationError (no NaN/Inf)
    when enabled".  An ndarray is returned as it is; anything else is
    converted to a fresh array first. *)
Definition _asarray_validated (o : pyobj) (check_finite : bool) : py ndarray :=
  do a <- match o with
          | PyNone => raise (ValidationError "object arrays are not supported")
          | PyArray a => ret a
          | PySeq s t d => alloc s t d
          end;
  do d <- contents a;
  if check_finite && negb (forallb Scalar.is_finite d)
  then raise (ValidationError "array must not contain infs or NaNs")
  else ret a.

(** Modelled from the spec: [_datacopied] of scipy/linalg/misc.py is not
    among the sources.  Section 4.1: "the validated array is a fresh copy
    distinct from the caller's buffer". *)
Definition _datacopied (arr : ndarray) (original : pyobj) : bool :=
  match original with
  | PyArray o => negb (buf arr =? buf o)
  | _ => true
  end.

(** Modelled from the spec: [get_lapack_funcs] of scipy/linalg/lapack.py is
    not among the sources.  It looks the named kernels up for the common
    element type of the arrays (section 4.1: "a shared element type"); the
    look-up is logged and that type, the [dtype] attribute of the functions
    returned, is the result. *)
Definition get_lapack_funcs (names : list string) (arrays : list ndarray) : py dtype :=
  do_ emit (Lookup names);
  ret (fold_right (fun a t => common_type (dty a) t) float32 arrays).

(** numpy operations whose floating-point evaluation order is numpy's
    business: the modulus of a complex number, the sum of a sequence and
    the matrix products that assemble a pseudo-inverse. *)
Record numpy_lib : Type := mk_numpy {
  np_hypot : float -> float -> float;
  np_add_reduce : list float -> float;
  (** [transpose(conjugate(dot(u[:, :rank] * psigma_diag, vh[:rank])))] *)
  np_pinv2_B : aval -> list float -> aval -> nat -> aval;
  (** [dot(u * psigma_diag, conjugate(u).T)] with [u = u[:, above_cutoff]] *)
  np_pinvh_B : aval -> list bool -> list float -> aval
}.

(** ** Numerical rank policy *)

Definition char_lower (c : string) : string :=
  if String.eqb c "F" then "f" else if String.eqb c "D" then "d" else c.

(** [factor = {'f': 1E3, 'd': 1E6}] *)
Definition factor : list (string * float) :=
  [("f", Py.lit_1E3); ("d", Py.lit_1E6)].

Fixpoint dict_get (d : list (string * float)) (k : string) : py float :=
  match d with
  | [] => raise (KeyError k)
  | (k', v) :: d' => if String.eqb k k' then ret v else dict_get d' k
  end.

(** [np.finfo(t).eps] for the type characters ['f'] and ['d']. *)
Definition finfo_eps (t : string) : py float :=
  if String.eqb t "f" then ret 0x1p-23%float
  else if String.eqb t "d" then ret 0x1p-52%float
  else raise (ValueError "data type not inexact" []).

(** [cond in [None, -1]] *)
Definition cond_unset (cond : option float) : bool :=
  match cond with
  | None => true
  | Some c => (c =? -1)%float
  end.

(** The two lines
      [t = u.dtype.char.lower()]
      [cond = factor[t] * np.finfo(t).eps] *)
Definition default_cond (u_dtype : dtype) : py float :=
  let t := char_lower (dtype_char u_dtype) in
  do f <- dict_get factor t;
  do eps <- finfo_eps t;
  ret (f * eps)%float.

(** [np.maximum] on two values and [np.max] of a one-dimensional array. *)
Definition np_maximum (x y : float) : float :=
  if (y <=? x)%float || PrimFloat.is_nan x then x else y.

Definition np_max (l : list float) : py float :=
  match l with
  | [] => raise (ValueError "zero-size array to reduction operation maximum which has no identity" [])
  | x :: t => ret (fold_left np_maximum t x)
  end.

(** [s > c] elementwise. *)
Definition above (c : float) (s : list float) : list bool :=
  map (fun x => (c <? x)%float) s.

(** The float64 scalar [c] (here the product [cond * np.max(s)] of a
    Python float and a numpy scalar) as numpy uses it in [s > c] for an
    array [s] of the real type of [t]: as it is at double precision; at single
    precision the comparison is made in single precision, with [c] cast to
    it, unless [c] is a finite value outside [(-3.4e38, 3.4e38)] (then [s]
    is converted instead, and [c] is used as it is). *)
Definition cutoff_as (t : dtype) (c : float) : float :=
  if is_double t then c
  else if (- Py.lit_3_4e38 <? c)%float && (c <? Py.lit_3_4e38)%float then Py.round32 c
  else c.

(** [1.0 / x] in the arithmetic of the real type of [t]. *)
Definition reciprocal (t : dtype) (x : float) : float :=
  if is_double t then (1 / x)%float else Py.round32 (1 / x).

Definition count_true (m : list bool) : nat := length (filter (fun b => Is_true b) m).

(** [s[mask]] *)
Fixpoint select {A} (m : list bool) (s : list A) : list A :=
  match m, s with
  | b :: m', x :: s' => if b then x :: select m' s' else select m' s'
  | _, _ => []
  end.

(** ** The wrappers of scipy/linalg/basic.py *)

Section Wrappers.

Variable lapack : kernel_lib.
Variable np : numpy_lib.

(** A kernel invocation: it is logged, and the store changes only where an
    argument was passed with its overwrite permission. *)
Definition invoke (c : kcall) : py kreply :=
  fun st =>
    let r := lapack c in
    (Return r,
     mk_state (write_back (kargs c) (r_args r) (mem st)) (log st ++ [Invoke c])).

(** The array a kernel returns for its [i]-th array argument: the
    argument's own memory when it could overwrite it, a new array
    otherwise. *)
Definition out_arg (r : kreply) (i : nat) (a : karg) (t : dtype) : aval :=
  mk_aval (default [] (r_args r !! i)) (a_shape (k_val a)) t
          (if k_ow a then a_mem (k_val a) else None).

Definition is_square (s : shape) : bool :=
  match s with Sh2 r c => r =? c | _ => false end.

(** [solve(a, b, sym_pos, lower, overwrite_a, overwrite_b, check_finite)]
    (the [debug] flag only prints). *)
Definition solve (a b : pyobj) (sym_pos lower overwrite_a overwrite_b check_finite : bool)
  : py aval :=
  do a1 <- _asarray_validated a check_finite;
  do b1 <- _asarray_validated b check_finite;
  if negb (is_square (shp a1)) then raise (ValueError "expected square matrix" []) else
  do m <- index (dim0 (shp a1));
  do bm <- index (dim0 (shp b1));
  if negb (m =? bm) then raise (ValueError "incompatible dimensions" []) else
  let overwrite_a := overwrite_a || _datacopied a1 a in
  let overwrite_b := overwrite_b || _datacopied b1 b in
  do va <- whole a1;
  do vb <- whole b1;
  do xi <-
    (if sym_pos then
       do t <- get_lapack_funcs ["posv"] [a1; b1];
       do r <- invoke (posv (mk_karg va overwrite_a) (mk_karg vb overwrite_b) lower);
       ret (out_arg r 1 (mk_karg vb overwrite_b) t, r_info r)
     else
       do t <- get_lapack_funcs ["gesv"] [a1; b1];
       do r <- invoke (gesv (mk_karg va overwrite_a) (mk_karg vb overwrite_b));
       ret (out_arg r 1 (mk_karg vb overwrite_b) t, r_info r));
  let '(x, info) := xi in
  if (info =? 0)%Z then ret x
  else if (0 <? info)%Z then raise (LinAlgError "singular matrix" [])
  else raise (ValueError "illegal value in %d-th argument of internal gesv|posv" [(- info)%Z]).

(** [solve_banded((l, u), ab, b, overwrite_ab, overwrite_b, check_finite)] *)
Definition solve_banded (l_and_u : Z * Z) (ab b : pyobj)
    (overwrite_ab overwrite_b check_finite : bool) : py aval :=
  do a1 <- _asarray_validated ab check_finite;
  do b1 <- _asarray_validated b check_finite;
  do am <- index (dim_last (shp a1));
  do bm <- index (dim0 (shp b1));
  if negb (am =? bm) then raise (ValueError "shapes of ab and b are not compatible." []) else
  let '(l, u) := l_and_u in
  do a0 <- index (dim0 (shp a1));
  if negb (l + u + 1 =? Z.of_nat a0)%Z then
    do s <- attr_shape ab;
    do ab0 <- index (dim0 s);
    raise (ValueError "invalid values for the number of lower and upper diagonals: l+u+1 (%d) does not equal ab.shape[0] (%d)"
             [(l + u + 1)%Z; Z.of_nat ab0])
  else
  let overwrite_b := overwrite_b || _datacopied b1 b in
  do xi <-
    (if (l =? u)%Z && (u =? 1)%Z then
       let overwrite_ab := overwrite_ab || _datacopied b1 b in
       do t <- get_lapack_funcs ["gtsv"] [a1; b1];
       do du <- row_slice a1 0 1 0;
       do d <- row_slice a1 1 0 0;
       do dl <- row_slice a1 2 0 1;
       do vb <- as_kernel_arg b;
       do r <- invoke (gtsv (mk_karg dl overwrite_ab) (mk_karg d overwrite_ab)
                            (mk_karg du overwrite_ab) (mk_karg vb overwrite_b));
       ret (out_arg r 3 (mk_karg vb overwrite_b) t, r_info r)
     else
       do t <- get_lapack_funcs ["gbsv"] [a1; b1];
       do c <- index (dim1 (shp a1));
       let rows := (2 * l + u + 1)%Z in
       if (rows <? 0)%Z then raise (ValueError "negative dimensions are not allowed" []) else
       do a2 <- alloc (Sh2 (Z.to_nat rows) c) t (repeat (Scalar.zero t) (Z.to_nat rows * c));
       do_ assign_rows a2 l a1;
       do va <- whole a2;
       do vb <- whole b1;
       do r <- invoke (gbsv l u (mk_karg va true) (mk_karg vb overwrite_b));
       ret (out_arg r 1 (mk_karg vb overwrite_b) t, r_info r));
  let '(x, info) := xi in
  if (info =? 0)%Z then ret x
  else if (0 <? info)%Z then raise (LinAlgError "singular matrix" [])
  else raise (ValueError "illegal value in %d-th argument of internal gbsv/gtsv" [(- info)%Z]).

(** [solveh_banded(ab, b, overwrite_ab, overwrite_b, lower, check_finite)] *)
Definition solveh_banded (ab b : pyobj)
    (overwrite_ab overwrite_b lower check_finite : bool) : py aval :=
  do a1 <- _asarray_validated ab check_finite;
  do b1 <- _asarray_validated b check_finite;
  do am <- index (dim_last (shp a1));
  do bm <- index (dim0 (shp b1));
  if negb (am =? bm) then raise (ValueError "shapes of ab and b are not compatible." []) else
  let overwrite_b := overwrite_b || _datacopied b1 b in
  let overwrite_ab := overwrite_ab || _datacopied a1 ab in
  do a0 <- index (dim0 (shp a1));
  do xi <-
    (if a0 =? 2 then
       do t <- get_lapack_funcs ["ptsv"] [a1; b1];
       do de <-
         (if lower then
            do d <- row_slice a1 0 0 0;
            do e <- row_slice a1 1 0 1;
            ret (real_view d, e)
          else
            do d <- row_slice a1 1 0 0;
            do e <- row_slice a1 0 1 0;
            ret (real_view d, array_conj e));
       let '(d, e) := de in
       do vb <- whole b1;
       do r <- invoke (ptsv (mk_karg d overwrite_ab) (mk_karg e overwrite_ab)
                            (mk_karg vb overwrite_b));
       ret (out_arg r 2 (mk_karg vb overwrite_b) t, r_info r)
     else
       do t <- get_lapack_funcs ["pbsv"] [a1; b1];
       do va <- whole a1;
       do vb <- whole b1;
       do r <- invoke (pbsv (mk_karg va overwrite_ab) (mk_karg vb overwrite_b) lower);
       ret (out_arg r 1 (mk_karg vb overwrite_b) t, r_info r));
  let '(x, info) := xi in
  if (0 <? info)%Z then raise (LinAlgError "%d-th leading minor not positive definite" [info])
  else if (info <? 0)%Z then
    raise (ValueError "illegal value in %d-th argument of internal pbsv" [(- info)%Z])
  else ret x.

(** [a.ravel()] *)
Definition ravel (a : ndarray) : py aval :=
  do d <- contents a;
  ret (mk_aval d (Sh1 (size (shp a))) (dty a) (Some (buf a, 0))).

(** The first argument of [solve_toeplitz]: [c], or the tuple [(c, r)]. *)
Inductive c_or_cr : Type :=
| JustC (c : pyobj)
| TupleCR (c r : pyobj).

Fixpoint mapM {A B} (f : A -> py B) (l : list A) : py (list B) :=
  match l with
  | [] => ret []
  | x :: l' => do y <- f x; do ys <- mapM f l'; ret (y :: ys)
  end.

(** Entry [(i, j)] of row-major data with [k] columns. *)
Definition entry (d : list scalar) (k i j : nat) : scalar :=
  default (Re 0) (d !! (i * k + j)).

(** [np.column_stack(cols).reshape(m, k)]: row [i] holds the [i]-th entry
    of every column. *)
Definition column_stack (m : nat) (cols : list (list scalar)) : list scalar :=
  flat_map (fun i => map (fun col => default (Re 0) (col !! i)) cols) (seq 0 m).

(** The first block of [solve_toeplitz]: the first column [c] and the first
    row [r] as one-dimensional arrays, [r = c.conjugate()] when only [c] is
    given. *)
Definition toeplitz_c_r (arg : c_or_cr) (check_finite : bool) : py (aval * aval) :=
  match arg with
  | TupleCR c r =>
      do c1 <- _asarray_validated c check_finite;
      do c <- ravel c1;
      do r1 <- _asarray_validated r check_finite;
      do r <- ravel r1;
      ret (c, r)
  | JustC c =>
      do c1 <- _asarray_validated c check_finite;
      do c <- ravel c1;
      ret (c, array_conj c)
  end.

(** [np.concatenate((r[-1:0:-1], c))]: [r] from its last entry down to its
    second, then [c]. *)
Definition toeplitz_vals (c r : aval) : aval :=
  let t := common_type (a_dtype r) (a_dtype c) in
  let d := map (Scalar.cast t) (rev (drop 1 (a_data r)) ++ a_data c) in
  mk_aval d (Sh1 (length d)) t None.

(** [np.asarray(v, dtype=t)]: [v] itself (same memory) when it has the
    element type [t] already, a converted copy otherwise. *)
Definition asarray_as (t : dtype) (v : aval) : aval :=
  mk_aval (map (Scalar.cast t) (a_data v)) (a_shape v) t
          (if dtype_eqb (a_dtype v) t then a_mem v else None).

(** [np.ascontiguousarray(b[:, i])] for a [b] of [m] rows and [k] columns:
    column [i] of [b].  The column is contiguous, and then the view
    [b[:, i]] itself is handed on, only when [b] has one column or at most
    one row; otherwise it is copied. *)
Definition column_arg (b : aval) (m k i : nat) : aval :=
  mk_aval (map (fun row => entry (a_data b) k row i) (seq 0 m)) (Sh1 m) (a_dtype b)
          (match a_mem b with
           | Some (bf, off) => if (k =? 1) || (m <=? 1) then Some (bf, off + i) else None
           | None => None
           end).

(** [solve_toeplitz(c_or_cr, b, check_finite)] *)
Definition solve_toeplitz (arg : c_or_cr) (b : pyobj) (check_finite : bool) : py aval :=
  do cr <- toeplitz_c_r arg check_finite;
  let '(c, r) := cr in
  let vals := toeplitz_vals c r in
  match b with
  | PyNone => raise (ValueError "illegal value, `b` is a required argument" [])
  | _ =>
      do bs <- attr_shape b;
      do b0 <- index (dim0 bs);
      if negb (Z.of_nat (length (a_data vals)) =? 2 * Z.of_nat b0 - 1)%Z
      then raise (ValueError "incompatible dimensions" []) else
      do b1 <- _asarray_validated b true;
      do vb <- whole b1;
      let t := if is_complex (a_dtype vals) || is_complex (dty b1)
               then complex128 else float64 in
      let vals := asarray_as t vals in
      let vb := asarray_as t vb in
      match a_shape vb with
      | Sh2 m k =>
          do cols <- mapM (fun i =>
                       do r <- invoke (levinson vals (column_arg vb m k i));
                       ret (default [] (r_outs r !! 0)))
                     (seq 0 k);
          match cols with
          | [] => raise (ValueError "need at least one array to concatenate" [])
          | _ => ret (mk_aval (column_stack m cols) (Sh2 m k) t None)
          end
      | s =>
          do r <- invoke (levinson vals vb);
          ret (mk_aval (default [] (r_outs r !! 0)) s t None)
      end
  end.

(** [int(x)] as a statement that may raise. *)
Definition py_int (x : float) : py Z :=
  match Py.int_of_float x with
  | Some z => ret z
  | None =>
      if PrimFloat.is_nan x
      then raise (ValueError "cannot convert float NaN to integer" [])
      else raise OverflowError
  end.

(** [inv(a, overwrite_a, check_finite)] *)
Definition inv (a : pyobj) (overwrite_a check_finite : bool) : py aval :=
  do a1 <- _asarray_validated a check_finite;
  if negb (is_square (shp a1)) then raise (ValueError "expected square matrix" []) else
  let overwrite_a := overwrite_a || _datacopied a1 a in
  do t <- get_lapack_funcs ["getrf"; "getri"; "getri_lwork"] [a1];
  do va <- whole a1;
  do r <- invoke (getrf (mk_karg va overwrite_a));
  let lu := out_arg r 0 (mk_karg va overwrite_a) t in
  let piv := r_piv r in
  do ii <-
    (if (r_info r =? 0)%Z then
       do n <- index (dim0 (shp a1));
       do q <- invoke (getri_lwork n);
       if negb (r_info q =? 0)%Z
       then raise (ValueError "internal getri work space query failed: %d" [r_info q]) else
       do lwork <- py_int (Scalar.real (r_work q));
       do lwork <- py_int (Py.lit_1_01 * Py.float_of_int lwork)%float;
       do g <- invoke (getri (mk_karg lu true) piv lwork);
       ret (Some (out_arg g 0 (mk_karg lu true) t), r_info g)
     else ret (None, r_info r));
  let '(inv_a, info) := ii in
  if (0 <? info)%Z then raise (LinAlgError "singular matrix" [])
  else if (info <? 0)%Z then
    raise (ValueError "illegal value in %d-th argument of internal getrf|getri" [(- info)%Z])
  else match inv_a with
       | Some x => ret x
       | None => raise (UnboundLocalError "inv_a")
       end.

(** [np.abs(z)], and [x**2] in the arithmetic of the element type [t]:
    the product is rounded to single precision for the single-precision
    types. *)
Definition np_abs (z : scalar) : float :=
  match z with
  | Re x => PrimFloat.abs x
  | Cx a b => np_hypot np a b
  end.

Definition square (t : dtype) (x : float) : float :=
  if is_double t then (x * x)%float else Py.round32 (x * x).

(** [x[:n]] *)
Definition take_rows (n : nat) (x : aval) : py aval :=
  match a_shape x with
  | Sh0 => raise IndexError
  | Sh1 p => ret (mk_aval (take n (a_data x)) (Sh1 (Nat.min n p)) (a_dtype x) (a_mem x))
  | Sh2 p k => ret (mk_aval (take (n * k) (a_data x)) (Sh2 (Nat.min n p) k) (a_dtype x) (a_mem x))
  end.

(** The squared magnitudes of rows [n..] of column [j] of [x]. *)
Definition excess_column (x : aval) (n j : nat) : list float :=
  match a_shape x with
  | Sh2 p k =>
      map (fun i => square (a_dtype x) (np_abs (entry (a_data x) k i j))) (seq n (p - n))
  | Sh1 p => map (fun z => square (a_dtype x) (np_abs z)) (peek n (p - n) (a_data x))
  | Sh0 => []
  end.

(** [np.sum(np.abs(x[n:])**2, axis=0)]: one sum per column of a matrix, a
    0-d array for a vector. *)
Definition sum_abs_sq (x : aval) (n : nat) : py aval :=
  match a_shape x with
  | Sh2 p k =>
      ret (mk_aval (map (fun j => Re (np_add_reduce np (excess_column x n j))) (seq 0 k))
                   (Sh1 k) (real_dtype (a_dtype x)) None)
  | Sh1 p =>
      ret (mk_aval [Re (np_add_reduce np (excess_column x n 0))] Sh0
                   (real_dtype (a_dtype x)) None)
  | Sh0 => raise IndexError
  end.

Definition dquote : string := String (Ascii.ascii_of_nat 34) EmptyString.

(** [b2 = np.zeros(shape, dtype); b2[:m] = b1] where [b1] has [m] rows and
    the new array more. *)
Definition zero_padded (s : shape) (t : dtype) (b1 : ndarray) : py ndarray :=
  do b2 <- alloc s t (repeat (Scalar.zero t) (size s));
  do d <- contents b1;
  do_ store b2 0 (map (Scalar.cast t) d);
  ret b2.

(** The body of [if n > m:] in [lstsq]: [b] is extended with zero rows, as
    the kernel fills it with the larger solution. *)
Definition extend_rhs (t : dtype) (n nrhs : nat) (b1 : ndarray) : py ndarray :=
  match shp b1 with
  | Sh2 _ _ => zero_padded (Sh2 n nrhs) t b1
  | _ => zero_padded (Sh1 n) t b1
  end.

(** [lstsq(a, b, cond, overwrite_a, overwrite_b, check_finite, lapack_driver)] *)
Definition lstsq (a b : pyobj) (cond : option float)
    (overwrite_a overwrite_b check_finite : bool) (lapack_driver : string)
  : py (aval * aval * Z * list float) :=
  do a1 <- _asarray_validated a check_finite;
  do b1 <- _asarray_validated b check_finite;
  match shp a1 with
  | Sh2 m n =>
      let nrhs := match shp b1 with Sh2 _ k => k | _ => 1 end in
      do bm <- index (dim0 (shp b1));
      if negb (m =? bm) then raise (ValueError "incompatible dimensions" []) else
      if negb (existsb (String.eqb lapack_driver) ["gelsd"; "gelsy"; "gelss"])
      then raise (ValueError ("LAPACK driver " ++ dquote ++ lapack_driver ++ dquote
                              ++ "is not found")%string [])
      else
      do t <- get_lapack_funcs [lapack_driver] [a1; b1];
      do b1 <- (if m <? n then extend_rhs t n nrhs b1 else ret b1);
      let overwrite_a := overwrite_a || _datacopied a1 a in
      let overwrite_b := overwrite_b || _datacopied b1 b in
      if String.eqb lapack_driver "gelss" then
        do va <- whole a1;
        do vb <- whole b1;
        do q <- invoke (gelss (mk_karg va false) (mk_karg vb false) None (-1));
        let lwork := Py.astype_int (Scalar.real (r_work q)) in
        do r <- invoke (gelss (mk_karg va overwrite_a) (mk_karg vb overwrite_b) cond lwork);
        let x := out_arg r 1 (mk_karg vb overwrite_b) t in
        let s := r_reals r in
        let rank := r_rank r in
        let info := r_info r in
        if (0 <? info)%Z
        then raise (LinAlgError "SVD did not converge in Linear Least Squares" [])
        else if (info <? 0)%Z
        then raise (ValueError "illegal value in %d-th argument of internal gelss" [(- info)%Z])
        else
        let resids := mk_aval [] (Sh1 0) (a_dtype x) None in
        do xr <-
          (if n <? m then
             do x1 <- take_rows n x;
             do resids <- (if (rank =? Z.of_nat n)%Z then sum_abs_sq x n else ret resids);
             ret (x1, resids)
           else ret (x, resids));
        let '(x, resids) := xr in
        ret (x, resids, rank, s)
      else raise (UnboundLocalError "x")
  | _ => raise (ValueError "expected matrix" [])
  end.

(** [np.identity(m, dtype=t)] *)
Definition identity (m : nat) (t : dtype) : py ndarray :=
  alloc (Sh2 m m) t
    (flat_map (fun i => map (fun j => if i =? j then Scalar.one t else Scalar.zero t)
                            (seq 0 m)) (seq 0 m)).

(** [if rcond is not None: cond = rcond] *)
Definition pick_cond (cond rcond : option float) : option float :=
  match rcond with Some r => Some r | None => cond end.

(** [pinv(a, cond, rcond, return_rank, check_finite)]; the rank is
    returned only when [return_rank] is set. *)
Definition pinv (a : pyobj) (cond rcond : option float) (return_rank check_finite : bool)
  : py (aval * option Z) :=
  do a <- _asarray_validated a check_finite;
  do m <- index (dim0 (shp a));
  do b <- identity m (dty a);
  let cond := pick_cond cond rcond in
  do res <- lstsq (PyArray a) (PyArray b) cond false false false "gelsd";
  let '(x, resids, rank, s) := res in
  ret (x, if return_rank then Some rank else None).

(** Modelled from the spec: [decomp_svd.svd] is not among the sources.
    Section 4.5: "decompose A = U S V^H (external kernel)"; section 7: a
    positive status is a ConvergenceFailure, a negative one an
    InvalidArgument.  Called with [full_matrices=False]. *)
Definition decomp_svd_svd (a : ndarray) : py (aval * list float * aval) :=
  match shp a with
  | Sh2 m n =>
      do va <- whole a;
      do r <- invoke (svd va);
      if (0 <? r_info r)%Z then raise (LinAlgError "SVD did not converge" [])
      else if (r_info r <? 0)%Z
      then raise (ValueError "illegal value in %d-th argument of internal gesdd" [(- r_info r)%Z])
      else
        let k := Nat.min m n in
        ret (mk_aval (default [] (r_outs r !! 0)) (Sh2 m k) (dty a) None,
             r_reals r,
             mk_aval (default [] (r_outs r !! 1)) (Sh2 k n) (dty a) None)
  | _ => raise (ValueError "expected matrix" [])
  end.

(** Modelled from the spec: [decomp.eigh] is not among the sources.
    Section 4.5: "decompose A = U L U^H"; section 7 as for the SVD. *)
Definition decomp_eigh (a : ndarray) (lower : bool) : py (list float * aval) :=
  if negb (is_square (shp a)) then raise (ValueError "expected square matrix" []) else
  do va <- whole a;
  do r <- invoke (eigh va lower);
  if (0 <? r_info r)%Z
  then raise (LinAlgError "unable to compute eigenvalues" [r_info r])
  else if (r_info r <? 0)%Z
  then raise (ValueError "illegal value in %d-th argument of internal fortran routine" [(- r_info r)%Z])
  else ret (r_reals r, mk_aval (default [] (r_outs r !! 0)) (shp a) (dty a) None).

(** The cutoff both decomposition-based pseudo-inverses use:
      [if cond in [None, -1]: ... cond = factor[t] * np.finfo(t).eps] *)
Definition resolve_cond (cond : option float) (u_dtype : dtype) : py float :=
  match cond with
  | Some c => if cond_unset cond then default_cond u_dtype else ret c
  | None => default_cond u_dtype
  end.

(** [pinv2(a, cond, rcond, return_rank, check_finite)] *)
Definition pinv2 (a : pyobj) (cond rcond : option float) (return_rank check_finite : bool)
  : py (aval * option nat) :=
  do a <- _asarray_validated a check_finite;
  do usv <- decomp_svd_svd a;
  let '(u, s, vh) := usv in
  let cond := pick_cond cond rcond in
  do cond <- resolve_cond cond (a_dtype u);
  do mx <- np_max s;
  let rank := count_true (above (cutoff_as (a_dtype u) (cond * mx)%float) s) in
  let psigma_diag := map (reciprocal (a_dtype u)) (take rank s) in
  let B := np_pinv2_B np u psigma_diag vh rank in
  ret (B, if return_rank then Some rank else None).

(** [pinvh(a, cond, rcond, lower, return_rank, check_finite)] *)
Definition pinvh (a : pyobj) (cond rcond : option float)
    (lower return_rank check_finite : bool) : py (aval * option nat) :=
  do a <- _asarray_validated a check_finite;
  do su <- decomp_eigh a lower;
  let '(s, u) := su in
  let cond := pick_cond cond rcond in
  do cond <- resolve_cond cond (a_dtype u);
  do mx <- np_max (map PrimFloat.abs s);
  let above_cutoff := above (cutoff_as (a_dtype u) (cond * mx)%float) (map PrimFloat.abs s) in
  let psigma_diag := map (reciprocal (a_dtype u)) (select above_cutoff s) in
  let B := np_pinvh_B np u above_cutoff psigma_diag in
  ret (B, if return_rank then Some (length psigma_diag) else None).

End Wrappers.


(** * Specification-side definitions *)

(** The whole array as a kernel argument. *)
Definition view_of (st : state) (a : ndarray) : aval :=
  mk_aval (default [] (mem st !! buf a)) (shp a) (dty a) (Some (buf a, 0)).

(** The shape a caller's object validates to. *)
Definition obj_shape (o : pyobj) : option shape :=
  match o with
  | PyNone => None
  | PyArray a => Some (shp a)
  | PySeq s _ _ => Some s
  end.

(** Python's [ValueError] class: the errors raised with [raise ValueError]
    in the wrappers and those of the validation layer. *)
Definition is_value_error (e : exn) : bool :=
  match e with
  | ValueError _ _ | ValidationError _ => true
  | _ => false
  end.

Definition known_driver (d : string) : bool :=
  existsb (String.eqb d) ["gelsd"; "gelsy"; "gelss"].

Definition driver_not_found (d : string) : exn :=
  ValueError ("LAPACK driver " ++ dquote ++ d ++ dquote ++ "is not found")%string [].

(** A computation that raises from every state. *)
Definition raises {A} (m : py A) : Prop :=
  forall s, exists e s', m s = (Raise e, s').

(** The number of right-hand sides of a [b] of the given shape. *)
Definition columns (s : shape) : nat :=
  match s with Sh2 _ k => k | _ => 1 end.

(** The specification's words for the two artifacts of [lstsq] (section
    4.4), over the kernel's raw output [raw] for an [m] by [n] matrix. *)

(** The solution: the first [n] rows of the raw output when it has more. *)
Definition spec_solution (raw : aval) (m n : nat) : aval :=
  if n <? m then
    match a_shape raw with
    | Sh2 p k => mk_aval (take (n * k) (a_data raw)) (Sh2 (Nat.min n p) k) (a_dtype raw) (a_mem raw)
    | Sh1 p => mk_aval (take n (a_data raw)) (Sh1 (Nat.min n p)) (a_dtype raw) (a_mem raw)
    | Sh0 => raw
    end
  else raw.

(** The magnitude of an element (the modulus of a complex one), and the
    square of a magnitude in the arithmetic of the element type: binary64
    for the double-precision types, rounded to binary32 for the
    single-precision ones. *)
Definition spec_magnitude (np : numpy_lib) (z : scalar) : float :=
  match z with
  | Re x => PrimFloat.abs x
  | Cx re im => np_hypot np re im
  end.

Definition spec_squared (t : dtype) (x : float) : float :=
  match t with
  | float64 | complex128 => (x * x)%float
  | float32 | complex64 => Py.round32 (x * x)
  end.

(** "Residual computation: meaningful only when n < m AND rank == n;
    otherwise return an empty residual artifact.  When meaningful,
    residual per output column = sum of squared magnitudes of the
    solution's excess rows (rows n..m-1 of the kernel's raw output)".
    Here [raw] is the raw output as the kernel left it (row-major), [sb] the
    shape of the right-hand side it replaces and [t] the element type. *)
Definition spec_residual (np : numpy_lib) (t : dtype) (sb : shape) (raw : list scalar)
    (m n : nat) (rank : Z) : aval :=
  if (n <? m) && (rank =? Z.of_nat n)%Z then
    match sb with
    | Sh2 _ k =>
        mk_aval (map (fun j =>
                   Re (np_add_reduce np
                         (map (fun i => spec_squared t (spec_magnitude np (nth (i * k + j) raw (Re 0))))
                              (seq n (m - n)))))
                   (seq 0 k))
                (Sh1 k) (real_dtype t) None
    | _ =>
        mk_aval [Re (np_add_reduce np
                       (map (fun z => spec_squared t (spec_magnitude np z))
                            (firstn (m - n) (skipn n raw))))]
                Sh0 (real_dtype t) None
    end
  else mk_aval [] (Sh1 0) t None.

(** The default cutoffs: [1E6 * eps] at double precision, [1E3 * eps] at
    single precision. *)
Definition default_cutoff_double : float := (Py.lit_1E6 * 0x1p-52)%float.
Definition default_cutoff_single : float := (Py.lit_1E3 * 0x1p-23)%float.

(** The specification's effective rank (glossary): the "count of singular
    values/eigenvalues exceeding a cutoff relative to the largest one",
    i.e. exceeding [cutoff * max(magnitudes)]. *)
Definition spec_effective_rank (cutoff : float) (mags : list float) : nat :=
  match mags with
  | [] => 0
  | x :: t =>
      let largest := fold_left np_maximum t x in
      length (filter (fun v => Is_true (cutoff * largest <? v)%float) mags)
  end.

(** The off-diagonal handed to [ptsv] by the last invocation of a log. *)
Definition ptsv_off_diagonal (l : list event) : option (list scalar) :=
  match last l with
  | Some (Invoke (ptsv _ e _)) => Some (a_data (k_val e))
  | _ => None
  end.

(** ** Well-formed caller objects *)

(** An ndarray of the caller owns a buffer of the store, of the size of its
    shape; a sequence has as many elements as its shape says. *)
Definition wf_array (st : state) (a : ndarray) : Prop :=
  exists d, mem st !! buf a = Some d /\ length d = size (shp a).

Definition wf_obj (st : state) (o : pyobj) : Prop :=
  match o with
  | PyNone => True
  | PyArray a => wf_array st a
  | PySeq s _ d => length d = size s
  end.

(** ** Sample kernels, stores and arguments *)

(** A kernel library that succeeds and leaves 7 in every element of every
    array argument (wherever it was allowed to write). *)
Definition scribbling_lapack : kernel_lib := fun c =>
  mk_kreply (map (fun a => map (fun _ => Re 7) (a_data (k_val a))) (kargs c))
            [] [] [] 0 (Re 0) 0.

(** A kernel library that leaves its array arguments as they are and
    reports the given status and rank, with two singular values [3] and
    [2^-40] and a workspace size of 1000. *)
Definition sample_lapack (info rank : Z) : kernel_lib := fun c =>
  mk_kreply (map (fun a => a_data (k_val a)) (kargs c))
            [[Re 1; Re 0; Re 0; Re 1]; [Re 1; Re 0; Re 0; Re 1]]
            [3; 0x1p-40]%float [0; 1]%Z rank (Re 1000) info.

Definition sample_numpy : numpy_lib :=
  mk_numpy (fun a b => PrimFloat.sqrt (a * a + b * b))
           (fun l => fold_left PrimFloat.add l 0%float)
           (fun u _ _ _ => u)
           (fun u _ _ => u).

(** A store holding a 2 by 2 matrix and a vector of 2 (buffers 0 and 1), and
    a 3 by 1 matrix and a vector of 3 (buffers 2 and 3). *)
Definition sample_store : state :=
  mk_state [[Re 4; Re 1; Re 1; Re 3]; [Re 1; Re 2];
            [Re 1; Re 1; Re 1]; [Re 1; Re 2; Re 3]] [].
Definition m22 : ndarray := mk_ndarray 0 (Sh2 2 2) float64.
Definition v2 : ndarray := mk_ndarray 1 (Sh1 2) float64.
Definition m31 : ndarray := mk_ndarray 2 (Sh2 3 1) float64.
Definition v3 : ndarray := mk_ndarray 3 (Sh1 3) float64.

(** A least-squares kernel that leaves [[5; 3; 4]] in place of its
    right-hand side and reports rank 1 and status 0. *)
Definition answering_lapack : kernel_lib := fun c =>
  match c with
  | gelss a _ _ _ =>
      mk_kreply [a_data (k_val a); [Re 5; Re 3; Re 4]] [] [3]%float [] 1 (Re 1000) 0
  | _ => sample_lapack 0 1 c
  end.

(** A 3 by 1 matrix (buffer 0) and a right-hand side of 3 rows and no
    column (buffer 1). *)
Definition no_column_store : state := mk_state [[Re 1; Re 1; Re 1]; []] [].
Definition tall_a : ndarray := mk_ndarray 0 (Sh2 3 1) float64.
Definition no_column_b : ndarray := mk_ndarray 1 (Sh2 3 0) float64.

(** A banded matrix with [l = 2], [u = 1] in diagonal ordered form (4 rows
    of 3) and its right-hand side. *)
Definition band_store : state :=
  mk_state [[Re 0; Re 1; Re 1; Re 4; Re 4; Re 4; Re 1; Re 1; Re 0; Re 2; Re 0; Re 0];
            [Re 1; Re 2; Re 3]] [].
Definition band_ab : ndarray := mk_ndarray 0 (Sh2 4 3) float64.
Definition band_b : ndarray := mk_ndarray 1 (Sh1 3) float64.

(** A tridiagonal system in diagonal ordered form: the caller's [ab] is an
    ndarray owning buffer 0, the right-hand side a Python list. *)
Definition tri_store : state :=
  mk_state [[Re 0; Re 1; Re 1; Re 4; Re 4; Re 4; Re 1; Re 1; Re 0]] [].
Definition tri_ab : ndarray := mk_ndarray 0 (Sh2 3 3) float64.
Definition tri_b : pyobj := PySeq (Sh1 3) float64 [Re 1; Re 2; Re 3].

(** Two Hermitian tridiagonal matrices with a complex off-diagonal entry
    [1 + 2i], in lower form (rows: diagonal, sub-diagonal) and in upper
    form (rows: super-diagonal, diagonal), each with a right-hand side. *)
Definition herm_lower_store : state :=
  mk_state [[Cx 2 0; Cx 3 0; Cx 1 2; Cx 0 0]; [Cx 1 0; Cx 1 0]] [].
Definition herm_upper_store : state :=
  mk_state [[Cx 0 0; Cx 1 2; Cx 2 0; Cx 3 0]; [Cx 1 0; Cx 1 0]] [].
Definition herm_ab : ndarray := mk_ndarray 0 (Sh2 2 2) complex128.
Definition herm_b : ndarray := mk_ndarray 1 (Sh1 2) complex128.

(** A first column given as a list, and a right-hand side given as a list
    (of three entries, and of two). *)
Definition toeplitz_c : pyobj := PySeq (Sh1 2) float64 [Re 2; Re 1].
Definition toeplitz_b3 : pyobj := PySeq (Sh1 3) float64 [Re 1; Re 2; Re 3].
Definition toeplitz_b2 : pyobj := PySeq (Sh1 2) float64 [Re 1; Re 2].

(** * The wrappers of triangular systems and determinants *)

(** The [trans] argument of [solve_triangular]: an integer code or a
    letter. *)
Inductive trans_arg : Type :=
| TransInt (n : Z)
| TransStr (s : string).

(** [{'N': 0, 'T': 1, 'C': 2}] *)
Definition trans_codes : list (string * Z) :=
  [("N", 0%Z); ("T", 1%Z); ("C", 2%Z)].

Fixpoint dict_find (d : list (string * Z)) (k : string) : option Z :=
  match d with
  | [] => None
  | (k', v) :: d' => if String.eqb k k' then Some v else dict_find d' k
  end.

(** [trans_codes.get(trans, trans)]: the code of a letter of the table,
    anything else as it is. *)
Definition trans_get (trans : trans_arg) : trans_arg :=
  match trans with
  | TransStr s =>
      match dict_find trans_codes s with
      | Some z => TransInt z
      | None => trans
      end
  | TransInt _ => trans
  end.

(** The invocation [trtrs(a1, b1, overwrite_b=, lower=, trans=, unitdiag=)]. *)
Record trtrs_call : Type := mk_trtrs {
  tr_a : karg;
  tr_b : karg;
  tr_lower : bool;
  tr_trans : trans_arg;
  tr_unitdiag : bool
}.

(** What the combined factor-and-determinant routine hands back: the final
    contents of its matrix argument, the determinant and the status. *)
Record det_reply : Type := mk_det_reply {
  det_arg : list scalar;
  det_value : scalar;
  det_info : Z
}.

(** The effect on the store of a kernel that leaves [finals] in its array
    arguments [args]: as for [invoke], only an argument passed with its
    overwrite permission is written. *)
Definition run_kernel (args : list karg) (finals : list (list scalar)) : py unit :=
  fun st => (Return tt, mk_state (write_back args finals (mem st)) (log st)).

(** Modelled from the spec: [get_flinalg_funcs] of scipy/linalg/flinalg.py
    is not among the sources.  Section 4.6: the determinant is "delegated
    to the kernel's combined factor+determinant routine"; the look-up of
    that routine is logged. *)
Definition get_flinalg_funcs (names : list string) (arrays : list ndarray) : py unit :=
  emit (Lookup names).

Section Direct.

Variable trtrs : trtrs_call -> kreply.
Variable fdet : karg -> det_reply.

(** [solve_triangular(a, b, trans, lower, unit_diagonal, overwrite_b,
    check_finite)] (the [debug] flag only prints).  The matrix is handed to
    the kernel without an overwrite permission. *)
Definition solve_triangular (a b : pyobj) (trans : trans_arg)
    (lower unit_diagonal overwrite_b check_finite : bool) : py aval :=
  do a1 <- _asarray_validated a check_finite;
  do b1 <- _asarray_validated b check_finite;
  if negb (is_square (shp a1)) then raise (ValueError "expected square matrix" []) else
  do m <- index (dim0 (shp a1));
  do bm <- index (dim0 (shp b1));
  if negb (m =? bm) then raise (ValueError "incompatible dimensions" []) else
  let overwrite_b := overwrite_b || _datacopied b1 b in
  let trans := trans_get trans in
  do t <- get_lapack_funcs ["trtrs"] [a1; b1];
  do va <- whole a1;
  do vb <- whole b1;
  let c := mk_trtrs (mk_karg va false) (mk_karg vb overwrite_b) lower trans unit_diagonal in
  let r := trtrs c in
  do_ run_kernel [tr_a c; tr_b c] (r_args r);
  let x := out_arg r 1 (tr_b c) t in
  let info := r_info r in
  if (info =? 0)%Z then ret x
  else if (0 <? info)%Z then
    raise (LinAlgError "singular matrix: resolution failed at diagonal %s" [(info - 1)%Z])
  else raise (ValueError "illegal value in %d-th argument of internal trtrs" [(- info)%Z]).

(** [det(a, overwrite_a, check_finite)] *)
Definition det (a : pyobj) (overwrite_a check_finite : bool) : py scalar :=
  do a1 <- _asarray_validated a check_finite;
  if negb (is_square (shp a1)) then raise (ValueError "expected square matrix" []) else
  let overwrite_a := overwrite_a || _datacopied a1 a in
  do_ get_flinalg_funcs ["det"] [a1];
  do va <- whole a1;
  let r := fdet (mk_karg va overwrite_a) in
  do_ run_kernel [mk_karg va overwrite_a] [det_arg r];
  let a_det := det_value r in
  let info := det_info r in
  if (info <? 0)%Z then
    raise (ValueError "illegal value in %d-th argument of internal det.getrf" [(- info)%Z])
  else ret a_det.

End Direct.

(** * Further specification-side definitions *)

(** The caller donates buffer [i] through the argument [o]: [o] is an
    ndarray owning that buffer and its overwrite flag is set. *)
Definition donated (o : pyobj) (flag : bool) (i : nat) : bool :=
  match o with
  | PyArray arr => flag && (buf arr =? i)
  | _ => false
  end.

(** What the kernel wrapper makes of the caller's own [b] (see
    [as_kernel_arg]), in a given store. *)
Definition caller_view (st : state) (o : pyobj) : aval :=
  match o with
  | PyArray a => view_of st a
  | PySeq s t d => mk_aval d s t None
  | PyNone => mk_aval [] Sh0 float64 None
  end.

(** Column [j] of row-major data with [m] rows and [k] columns. *)
Definition column (d : list scalar) (m k j : nat) : list scalar :=
  map (fun row => entry d k row j) (seq 0 m).

(** The shape of the array [lstsq] gives the kernel in place of a [b] of
    shape [sb], for an [m] by [n] matrix: extended to [n] rows when
    [n > m]. *)
Definition rhs_shape (m n : nat) (sb : shape) : shape :=
  if m <? n then match sb with Sh2 _ k => Sh2 n k | _ => Sh1 n end else sb.

(** Singular values as the decomposition returns them: in descending
    order, every value at least as large as all that follow. *)
Fixpoint descending (s : list float) : bool :=
  match s with
  | [] => true
  | x :: t => forallb (fun y => (y <=? x)%float) t && descending t
  end.

(** The rank as [pinv2] and [pinvh] count it for the element type [t]: the
    number of magnitudes above the cutoff times the largest, the comparison
    being made in the precision of [t]. *)
Definition rank_as (t : dtype) (cutoff : float) (mags : list float) : nat :=
  match mags with
  | [] => 0
  | x :: l =>
      let largest := fold_left np_maximum l x in
      length (filter (fun v => Is_true (cutoff_as t (cutoff * largest) <? v)%float) mags)
  end.

(** The comparison of two finite binary floats of the same sign, on
    exponent and mantissa, and the order it decides. *)
Definition lexcmp (e1 : Z) (m1 : positive) (e2 : Z) (m2 : positive) : comparison :=
  match (e1 ?= e2)%Z with
  | Lt => Lt
  | Gt => Gt
  | Eq => Pos.compare_cont Eq m1 m2
  end.

Definition lexlt (e1 : Z) (m1 : positive) (e2 : Z) (m2 : positive) : Prop :=
  (e1 < e2)%Z \/ (e1 = e2 /\ (m1 < m2)%positive).

(** ** Further sample kernels, stores and arguments *)

(** A triangular solver that reports the given status and leaves 7 in
    every element of both its array arguments (wherever it may write). *)
Definition scribbling_trtrs (info : Z) : trtrs_call -> kreply := fun c =>
  mk_kreply [map (fun _ => Re 7) (a_data (k_val (tr_a c)));
             map (fun _ => Re 7) (a_data (k_val (tr_b c)))]
            [] [] [] 0 (Re 0) info.

(** A determinant routine that reports the given status and value and
    leaves 7 in every element of its argument. *)
Definition scribbling_fdet (value : scalar) (info : Z) : karg -> det_reply := fun a =>
  mk_det_reply (map (fun _ => Re 7) (a_data (k_val a))) value info.

(** A Levinson kernel that returns its right-hand side doubled. *)
Definition doubling_levinson : kernel_lib := fun c =>
  match c with
  | levinson _ b =>
      mk_kreply [] [map (fun z => Re (2 * Scalar.real z)) (a_data b)] [] [] 0 (Re 0) 0
  | _ => mk_kreply [] [] [] [] 0 (Re 0) 0
  end.

(** A kernel library whose SVD reports the singular values [3] and
    [2^-40] and whose eigendecomposition reports the eigenvalues [2^-40]
    and [-3] (in ascending order of magnitude). *)
Definition spectral_lapack : kernel_lib := fun c =>
  match c with
  | eigh _ _ =>
      mk_kreply [] [[Re 1; Re 0; Re 0; Re 1]] [0x1p-40; -3]%float [] 0 (Re 0) 0
  | _ => sample_lapack 0 2 c
  end.

(** The tridiagonal system of [tri_store] with its right-hand side as an
    ndarray (buffer 1). *)
Definition tri_rhs_store : state :=
  mk_state [[Re 0; Re 1; Re 1; Re 4; Re 4; Re 4; Re 1; Re 1; Re 0]; [Re 1; Re 2; Re 3]] [].
Definition tri_rhs : ndarray := mk_ndarray 1 (Sh1 3) float64.

(** Buffer 2 of [sample_store] seen as a 1 by 3 matrix. *)
Definition m13 : ndarray := mk_ndarray 2 (Sh2 1 3) float64.

(** A real symmetric tridiagonal matrix in upper form (rows:
    super-diagonal, diagonal; buffer 0) and a right-hand side (buffer 1). *)
Definition real_band_store : state := mk_state [[Re 0; Re 1; Re 2; Re 3]; [Re 1; Re 1]] [].
Definition real_band_ab : ndarray := mk_ndarray 0 (Sh2 2 2) float64.
Definition real_band_b : ndarray := mk_ndarray 1 (Sh1 2) float64.

(** A right-hand side holding an infinity (buffer 0). *)
Definition nonfinite_store : state := mk_state [[Re 1; Re infinity]] [].
Definition nonfinite_rhs : ndarray := mk_ndarray 0 (Sh1 2) float64.

(** A 2 by 2 right-hand side (buffer 0) for a Toeplitz system. *)
Definition rhs22_store : state := mk_state [[Re 1; Re 2; Re 3; Re 4]] [].
Definition rhs22 : ndarray := mk_ndarray 0 (Sh2 2 2) float64.

(** A right-hand side of 2 rows and one column (buffer 0). *)
Definition rhs21_store : state := mk_state [[Re 1; Re 2]] [].
Definition rhs21 : ndarray := mk_ndarray 0 (Sh2 2 1) float64.

(** * Properties *)

(** ** The monad *)

Lemma bind_return {A B} (m : py A) (k : A -> py B) s a s' :
  m s = (Return a, s') -> bind m k s = k a s'.
Proof. intros H. unfold bind. rewrite H. reflexivity. Qed.

Lemma bind_raise {A B} (m : py A) (k : A -> py B) s e s' :
  m s = (Raise e, s') -> bind m k s = (Raise e, s').
Proof. intros H. unfold bind. rewrite H. reflexivity. Qed.

(** Symbolic execution of the wrappers: a step whose outcome is known. *)
Ltac run_with H := rewrite (bind_return _ _ _ _ _ H) || rewrite (bind_raise _ _ _ _ _ H).

Ltac run_with_in H E :=
  rewrite (bind_return _ _ _ _ _ H) in E || rewrite (bind_raise _ _ _ _ _ H) in E.

(** The three cases of a kernel status. *)
Ltac by_status i :=
  destruct (Z.eqb_spec i 0); [|destruct (Z.ltb_spec 0 i)].

(** Computations that cannot return. *)
Create HintDb py.

Lemma raises_raise {A} e : raises (@raise A e).
Proof. intros s. exists e, s. reflexivity. Qed.

Lemma raises_bind {A B} (m : py A) (k : A -> py B) :
  (forall a, raises (k a)) -> raises (bind m k).
Proof.
  intros H s. unfold bind. destruct (m s) as [[a|e] s'].
  - apply H.
  - exists e, s'. reflexivity.
Qed.

#[local] Hint Resolve raises_raise raises_bind : py.

Lemma raises_not_return {A} (m : py A) s r s' : raises m -> m s <> (Return r, s').
Proof. intros H E. destruct (H s) as (e & s'' & E'). congruence. Qed.

Lemma mapM_returns {A B} (f : A -> py B) :
  (forall x s, exists y s', f x s = (Return y, s')) ->
  forall l s, exists ys s', mapM f l s = (Return ys, s').
Proof.
  intros Hf l. induction l as [|x l IH]; intros s; cbn [mapM].
  - eexists _, _. reflexivity.
  - destruct (Hf x s) as (y & s1 & E1). destruct (IH s1) as (ys & s2 & E2).
    run_with E1. run_with E2.
    eexists _, _. reflexivity.
Qed.

Lemma py_int_some x z st : Py.int_of_float x = Some z -> py_int x st = (Return z, st).
Proof. intros H. unfold py_int. rewrite H. reflexivity. Qed.

(** ** Lists *)

Lemma take_repeat {A} (x : A) n m : n <= m -> take n (repeat x m) = repeat x n.
Proof.
  revert m. induction n as [|n IH]; intros [|m] H; cbn; try reflexivity; try lia.
  f_equal. apply IH. lia.
Qed.

Lemma poke_zeros (z : scalar) (k : nat) (d : list scalar) :
  poke k d (repeat z (k + length d)) = repeat z k ++ d.
Proof.
  unfold poke. rewrite repeat_length.
  rewrite take_repeat by lia.
  replace (k + length d - k) with (length d) by lia.
  rewrite take_ge by lia.
  rewrite drop_ge by (rewrite repeat_length; lia).
  rewrite app_nil_r. reflexivity.
Qed.

Lemma insert_snoc {A} (l : list A) (x y : A) : <[length l := x]> (l ++ [y]) = l ++ [x].
Proof. rewrite insert_app_r_alt by lia. rewrite Nat.sub_diag. reflexivity. Qed.

(** ** Validation *)

(** Validation never touches the log, never changes an existing buffer,
    and either hands the caller's ndarray back or allocates a new one. *)
Lemma validated_spec o cf st :
  match _asarray_validated o cf st with
  | (Return a1, st') =>
      log st' = log st /\
      ((o = PyArray a1 /\ st' = st) \/
       (exists s t d, o = PySeq s t d /\ a1 = mk_ndarray (length (mem st)) s t /\
                      mem st' = mem st ++ [d]))
  | (Raise e, st') =>
      (exists msg, e = ValidationError msg) /\ log st' = log st /\
      exists extra, mem st' = mem st ++ extra
  end.
Proof.
  unfold _asarray_validated. destruct o as [|a|s t d]; unfold bind; simpl.
  - split; [eauto|]. split; [reflexivity|]. exists []. now rewrite app_nil_r.
  - destruct (cf && _); simpl.
    + split; [eauto|]. split; [reflexivity|]. exists []. now rewrite app_nil_r.
    + split; [reflexivity|]. left. split; reflexivity.
  - destruct (cf && _); simpl.
    + split; [eauto|]. split; [reflexivity|]. exists [d]. reflexivity.
    + split; [reflexivity|]. right. exists s, t, d. repeat split; reflexivity.
Qed.

Lemma validated_log o cf st a1 st' :
  _asarray_validated o cf st = (Return a1, st') -> log st' = log st.
Proof. intros H. pose proof (validated_spec o cf st) as V. rewrite H in V. tauto. Qed.

Lemma validated_shape o cf st a1 st' :
  _asarray_validated o cf st = (Return a1, st') -> obj_shape o = Some (shp a1).
Proof.
  intros H. pose proof (validated_spec o cf st) as V. rewrite H in V.
  destruct V as [_ [[-> _]|(s & t & d & -> & -> & _)]]; reflexivity.
Qed.

Lemma validated_mem o cf st r st' :
  _asarray_validated o cf st = (r, st') -> exists extra, mem st' = mem st ++ extra.
Proof.
  intros H. pose proof (validated_spec o cf st) as V. rewrite H in V.
  destruct r.
  - destruct V as [_ [[_ ->]|(s & t & d & _ & _ & ->)]]; [exists []; now rewrite app_nil_r | eauto].
  - tauto.
Qed.

Lemma validated_raise o cf st e st' :
  _asarray_validated o cf st = (Raise e, st') ->
  is_value_error e = true /\ log st' = log st.
Proof.
  intros H. pose proof (validated_spec o cf st) as V. rewrite H in V.
  destruct V as ((msg & ->) & L & _). split; [reflexivity | exact L].
Qed.

Lemma validated_fresh o cf st a1 st' :
  _asarray_validated o cf st = (Return a1, st') ->
  o = PyArray a1 \/ length (mem st) <= buf a1.
Proof.
  intros H. pose proof (validated_spec o cf st) as V. rewrite H in V.
  destruct V as [_ [[-> _]|(s & t & d & _ & -> & _)]]; [left; reflexivity | right; cbn; lia].
Qed.

Lemma wf_array_app st st' a extra :
  mem st' = mem st ++ extra -> wf_array st a -> wf_array st' a.
Proof.
  intros E (d & H & L). exists d. split; [|exact L].
  rewrite E. apply lookup_app_l_Some. exact H.
Qed.

Lemma wf_obj_app st st' o extra :
  mem st' = mem st ++ extra -> wf_obj st o -> wf_obj st' o.
Proof. destruct o; cbn; eauto using wf_array_app. Qed.

Lemma validated_wf o cf st a1 st' :
  _asarray_validated o cf st = (Return a1, st') -> wf_obj st o -> wf_array st' a1.
Proof.
  intros H W. pose proof (validated_spec o cf st) as V. rewrite H in V.
  destruct V as [_ [[-> ->]|(s & t & d & -> & -> & M)]]; [exact W|].
  exists d. cbn in *. split; [|exact W].
  rewrite M. rewrite lookup_app_r by lia. rewrite Nat.sub_diag. reflexivity.
Qed.

Lemma wf_array_lt st a : wf_array st a -> buf a < length (mem st).
Proof. intros (d & H & _). eapply lookup_lt_Some; eauto. Qed.

Lemma mem_prefix_lookup (st st' : state) extra i :
  mem st' = mem st ++ extra -> i < length (mem st) -> mem st' !! i = mem st !! i.
Proof. intros -> H. apply lookup_app_l. exact H. Qed.

(** ** Frame of a kernel invocation *)

Lemma write_arg_no_ow m a f : k_ow a = false -> write_arg m (a, f) = m.
Proof. intros H. unfold write_arg. rewrite H. reflexivity. Qed.

Lemma write_back_no_ow args finals m :
  Forall (fun a => k_ow a = false) args -> write_back args finals m = m.
Proof.
  unfold write_back. intros H. revert finals m.
  induction H as [|a args Ha _ IH]; intros finals m; [reflexivity|].
  destruct finals as [|f finals]; [reflexivity|].
  cbn [combine fold_left]. rewrite write_arg_no_ow by assumption. apply IH.
Qed.

Lemma write_arg_length m af : length (write_arg m af) = length m.
Proof.
  destruct af as [a f]. unfold write_arg.
  destruct (k_ow a); [|reflexivity].
  destruct (a_mem (k_val a)) as [[b off]|]; [|reflexivity].
  destruct (m !! b); [|reflexivity]. apply length_insert.
Qed.

Lemma write_arg_other m a f i :
  (k_ow a = true -> forall off, a_mem (k_val a) <> Some (i, off)) ->
  write_arg m (a, f) !! i = m !! i.
Proof.
  intros H. unfold write_arg.
  destruct (k_ow a); [|reflexivity].
  destruct (a_mem (k_val a)) as [[b off]|]; [|reflexivity].
  destruct (m !! b); [|reflexivity].
  apply list_lookup_insert_ne. intros ->. eapply H; eauto.
Qed.

Lemma write_back_other args finals m i :
  Forall (fun a => k_ow a = true -> forall off, a_mem (k_val a) <> Some (i, off)) args ->
  write_back args finals m !! i = m !! i.
Proof.
  unfold write_back. intros H. revert finals m.
  induction H as [|a args Ha _ IH]; intros finals m; [reflexivity|].
  destruct finals as [|f finals]; [reflexivity|].
  cbn [combine fold_left]. rewrite IH. apply write_arg_other. exact Ha.
Qed.

(** ** General and positive-definite systems: [solve] *)

Lemma solve_run (lapack : kernel_lib) (a b : pyobj)
    (sym_pos lower ow_a ow_b cf : bool) (st : state) a1 b1 st1 st2 m :
  _asarray_validated a cf st = (Return a1, st1) ->
  _asarray_validated b cf st1 = (Return b1, st2) ->
  shp a1 = Sh2 m m ->
  dim0 (shp b1) = Some m ->
  let ka := mk_karg (view_of st2 a1) (ow_a || _datacopied a1 a) in
  let kb := mk_karg (view_of st2 b1) (ow_b || _datacopied b1 b) in
  let call := if sym_pos then posv ka kb lower else gesv ka kb in
  let r := lapack call in
  solve lapack a b sym_pos lower ow_a ow_b cf st =
    ((if (r_info r =? 0)%Z then Return (out_arg r 1 kb (common_type (dty a1) (common_type (dty b1) float32)))
      else if (0 <? r_info r)%Z then Raise (LinAlgError "singular matrix" [])
      else Raise (ValueError "illegal value in %d-th argument of internal gesv|posv"
                             [(- r_info r)%Z])),
     mk_state (write_back [ka; kb] (r_args r) (mem st2))
              ((log st2 ++ [Lookup [if sym_pos then "posv" else "gesv"]]) ++ [Invoke call])).
Proof.
  intros Ha Hb Hsq Hb0 ka kb call r.
  unfold solve.
  run_with Ha. run_with Hb.
  rewrite Hsq. cbn [is_square]. rewrite Nat.eqb_refl. cbn [negb].
  unfold bind at 1. cbn [index dim0 ret].
  rewrite Hb0. unfold bind at 1. cbn [index ret]. rewrite Nat.eqb_refl. cbn [negb].
  subst r call ka kb. destruct sym_pos; unfold bind; cbn;
    destruct (r_info _ =? 0)%Z; try reflexivity;
    destruct (0 <? r_info _)%Z; reflexivity.
Qed.

(** C6.  [solve] on a square [a] and a right-hand side with as many rows:
    exactly one kernel is looked up and invoked, the Cholesky solver [posv]
    when [sym_pos] is set and the LU solver [gesv] otherwise (so a failed
    Cholesky solve is never retried with [gesv]); on either path status 0
    returns the solution the kernel left in place of [b], a positive status
    raises LinAlgError "singular matrix" and a negative one raises
    ValueError. *)
Theorem solve_status_dispatch (lapack : kernel_lib) (a b : pyobj)
    (sym_pos lower ow_a ow_b cf : bool) (st : state) a1 b1 st1 st2 m :
  _asarray_validated a cf st = (Return a1, st1) ->
  _asarray_validated b cf st1 = (Return b1, st2) ->
  shp a1 = Sh2 m m ->
  dim0 (shp b1) = Some m ->
  exists (ka kb : karg) (st' : state),
    let call := if sym_pos then posv ka kb lower else gesv ka kb in
    let info := r_info (lapack call) in
    snd (solve lapack a b sym_pos lower ow_a ow_b cf st) = st' /\
    log st' = log st ++ [Lookup [if sym_pos then "posv" else "gesv"]; Invoke call] /\
    k_val ka = view_of st2 a1 /\ k_ow ka = ow_a || _datacopied a1 a /\
    k_val kb = view_of st2 b1 /\ k_ow kb = ow_b || _datacopied b1 b /\
    ((info = 0)%Z ->
       exists x, fst (solve lapack a b sym_pos lower ow_a ow_b cf st) = Return x /\
                 a_data x = default [] (r_args (lapack call) !! 1) /\
                 a_shape x = shp b1) /\
    ((0 < info)%Z ->
       fst (solve lapack a b sym_pos lower ow_a ow_b cf st)
       = Raise (LinAlgError "singular matrix" [])) /\
    ((info < 0)%Z ->
       fst (solve lapack a b sym_pos lower ow_a ow_b cf st)
       = Raise (ValueError "illegal value in %d-th argument of internal gesv|posv"
                           [(- info)%Z])).
Proof.
  intros Ha Hb Hsq Hb0.
  pose proof (validated_log _ _ _ _ _ Ha) as La.
  pose proof (validated_log _ _ _ _ _ Hb) as Lb.
  rewrite (solve_run lapack a b sym_pos lower ow_a ow_b cf st a1 b1 st1 st2 m Ha Hb Hsq Hb0).
  eexists _, _, _. cbn zeta. cbn [fst snd].
  split; [reflexivity|]. cbn [log k_val k_ow].
  split; [rewrite Lb, La, <- app_assoc; reflexivity|].
  do 4 (split; [reflexivity|]).
  split; [|split].
  - intros ->. cbn. eexists. split; [reflexivity|]. split; reflexivity.
  - intros H. set (i := r_info _) in *. by_status i; first [reflexivity | lia].
  - intros H. set (i := r_info _) in *. by_status i; first [reflexivity | lia].
Qed.

(** C6 on a sample: a Cholesky solve whose kernel reports status 3. *)
Lemma solve_status_dispatch_witness :
  fst (solve (sample_lapack 3 2) (PyArray m22) (PyArray v2) true false false false true
         sample_store)
  = Raise (LinAlgError "singular matrix" []).
Proof.
  destruct (solve_status_dispatch (sample_lapack 3 2) (PyArray m22) (PyArray v2)
              true false false false true sample_store m22 v2 sample_store sample_store 2
              eq_refl eq_refl eq_refl eq_refl)
    as (ka & kb & st' & _ & _ & _ & _ & _ & _ & _ & Hpos & _).
  apply Hpos. reflexivity.
Defined.

(** ** Banded systems: [solve_banded] *)

Lemma solve_banded_general_run (lapack : kernel_lib) (l u : Z) (ab b : pyobj)
    (ow_ab ow_b cf : bool) (st : state) a1 st1 b1 st2 r c :
  _asarray_validated ab cf st = (Return a1, st1) ->
  _asarray_validated b cf st1 = (Return b1, st2) ->
  wf_array st2 a1 ->
  wf_array st2 b1 ->
  shp a1 = Sh2 r c ->
  dim0 (shp b1) = Some c ->
  (l + u + 1 = Z.of_nat r)%Z ->
  (0 <= l)%Z ->
  (l =? u)%Z && (u =? 1)%Z = false ->
  let t := common_type (dty a1) (common_type (dty b1) float32) in
  let d2 := repeat (Scalar.zero t) (Z.to_nat l * c)
            ++ map (Scalar.cast t) (default [] (mem st2 !! buf a1)) in
  let va := mk_aval d2 (Sh2 (Z.to_nat (2 * l + u + 1)) c) t (Some (length (mem st2), 0)) in
  let kb := mk_karg (view_of st2 b1) (ow_b || _datacopied b1 b) in
  let call := gbsv l u (mk_karg va true) kb in
  let rp := lapack call in
  solve_banded lapack (l, u) ab b ow_ab ow_b cf st =
    ((if (r_info rp =? 0)%Z then Return (out_arg rp 1 kb t)
      else if (0 <? r_info rp)%Z then Raise (LinAlgError "singular matrix" [])
      else Raise (ValueError "illegal value in %d-th argument of internal gbsv/gtsv"
                             [(- r_info rp)%Z])),
     mk_state (write_back [mk_karg va true; kb] (r_args rp) (mem st2 ++ [d2]))
              ((log st2 ++ [Lookup ["gbsv"]]) ++ [Invoke call])).
Proof.
  intros Ha Hb Wa Wb Hs Hb0 Hr Hl Hlu t d2 va kb call rp.
  unfold solve_banded.
  run_with Ha. run_with Hb. rewrite Hs.
  unfold bind at 1. cbn [index dim_last ret]. rewrite Hb0.
  unfold bind at 1. cbn [index ret]. rewrite Nat.eqb_refl. cbn [negb].
  unfold bind at 1. cbn [index dim0 ret].
  rewrite (proj2 (Z.eqb_eq _ _) Hr). cbn [negb]. rewrite Hlu.
  unfold bind at 1. cbn [get_lapack_funcs bind emit ret fold_right].
  fold t.
  unfold bind at 1. cbn [index dim1 ret].
  destruct (Z.ltb_spec (2 * l + u + 1) 0) as [Hneg|_]; [lia|].
  set (R := Z.to_nat (2 * l + u + 1)).
  assert (HR : R = Z.to_nat l + r) by (subst R; lia).
  destruct Wa as (da & Ma & La). destruct Wb as (db & Mb & Lb).
  pose proof (lookup_lt_Some _ _ _ Ma) as Ia.
  pose proof (lookup_lt_Some _ _ _ Mb) as Ib.
  unfold bind at 1. cbn [alloc mem log].
  unfold bind at 1. unfold assign_rows. cbn [shp dty buf]. rewrite Hs.
  unfold bind at 1. cbn [contents mem buf].
  rewrite (lookup_app_l _ _ _ Ia), Ma. cbn [default].
  assert (Hst : slice_start l R = Z.to_nat l).
  { unfold slice_start. destruct (Z.ltb_spec l 0); [lia|]. lia. }
  rewrite Hst. rewrite Nat.eqb_refl.
  replace (R - Z.to_nat l) with r by lia. rewrite Nat.eqb_refl. cbn [andb].
  unfold store. cbn [mem log buf].
  rewrite lookup_app_r by lia. rewrite Nat.sub_diag. cbn [lookup list_lookup].
  assert (Hz : R * c = Z.to_nat l * c + length (map (Scalar.cast t) da)).
  { rewrite length_map, La, Hs. cbn [size]. lia. }
  rewrite Hz, poke_zeros.
  rewrite insert_snoc.
  unfold bind at 1 2 3. cbn [whole bind contents ret mem log buf shp dty].
  rewrite lookup_app_r by lia. rewrite Nat.sub_diag. cbn [lookup list_lookup default].
  rewrite (lookup_app_l _ _ _ Ib).
  subst rp call va kb d2. unfold view_of. rewrite Ma.
  cbn [from_option id invoke kargs mem log]. subst R.
  cbv beta iota delta [ret].
  set (rp := lapack _).
  destruct (r_info rp =? 0)%Z; [reflexivity|].
  destruct (0 <? r_info rp)%Z; reflexivity.
Qed.

(** C9.  [solve_banded] off the tridiagonal path (not [l = u = 1]), for a
    two-dimensional [ab] of [l + u + 1] rows: the one kernel invoked is
    [gbsv], on a freshly allocated array of [2l + u + 1] rows, zero in its
    first [l] rows and holding [ab] below them, passed with its overwrite
    permission set; the caller's flag [overwrite_ab] has no influence on
    anything; every buffer that existed before the call is left as it was,
    except the buffer of [b] when it was donated; in particular the caller's
    [ab] is unchanged (for [b] another object than [ab]). *)
Theorem solve_banded_general_frame (lapack : kernel_lib) (l u : Z) (ab b : pyobj)
    (ow_ab ow_b cf : bool) (st : state) a1 st1 b1 st2 r c :
  wf_obj st ab ->
  wf_obj st b ->
  _asarray_validated ab cf st = (Return a1, st1) ->
  _asarray_validated b cf st1 = (Return b1, st2) ->
  shp a1 = Sh2 r c ->
  dim0 (shp b1) = Some c ->
  (l + u + 1 = Z.of_nat r)%Z ->
  (0 <= l)%Z ->
  ~ (l = 1 /\ u = 1)%Z ->
  exists (va : aval) (fresh : nat) (st' : state),
    let t := common_type (dty a1) (common_type (dty b1) float32) in
    snd (solve_banded lapack (l, u) ab b ow_ab ow_b cf st) = st' /\
    log st' = log st ++ [Lookup ["gbsv"];
                         Invoke (gbsv l u (mk_karg va true)
                                   (mk_karg (view_of st2 b1) (ow_b || _datacopied b1 b)))] /\
    a_mem va = Some (fresh, 0) /\
    length (mem st) <= fresh /\
    a_shape va = Sh2 (Z.to_nat (2 * l + u + 1)) c /\
    a_data va = repeat (Scalar.zero t) (Z.to_nat l * c)
                ++ map (Scalar.cast t) (default [] (mem st2 !! buf a1)) /\
    (forall ow_ab',
       solve_banded lapack (l, u) ab b ow_ab' ow_b cf st
       = solve_banded lapack (l, u) ab b ow_ab ow_b cf st) /\
    (forall i, i < length (mem st) ->
               (i = buf b1 -> ow_b || _datacopied b1 b = false) ->
               mem st' !! i = mem st !! i) /\
    (forall arr, ab = PyArray arr ->
                 (forall o, b = PyArray o -> buf o <> buf arr) ->
                 mem st' !! buf arr = mem st !! buf arr).
Proof.
  intros Wab Wb Ha Hb Hs Hb0 Hr Hl Hlu.
  pose proof (validated_log _ _ _ _ _ Ha) as La.
  pose proof (validated_log _ _ _ _ _ Hb) as Lb.
  destruct (validated_mem _ _ _ _ _ Ha) as [xa Ma].
  destruct (validated_mem _ _ _ _ _ Hb) as [xb Mb].
  assert (M2 : mem st2 = mem st ++ (xa ++ xb)) by (rewrite Mb, Ma, app_assoc; reflexivity).
  assert (Wa2 : wf_array st2 a1).
  { eapply wf_array_app; [exact Mb|]. eapply validated_wf; eauto. }
  assert (Wb2 : wf_array st2 b1).
  { eapply validated_wf; [exact Hb|]. eapply wf_obj_app; eauto. }
  assert (Hlu' : (l =? u)%Z && (u =? 1)%Z = false).
  { destruct (Z.eqb_spec l u), (Z.eqb_spec u 1); try reflexivity. exfalso. apply Hlu. lia. }
  assert (Run := fun o => solve_banded_general_run lapack l u ab b o ow_b cf st a1 st1 b1 st2 r c
                            Ha Hb Wa2 Wb2 Hs Hb0 Hr Hl Hlu').
  cbv zeta in Run.
  eexists _, (length (mem st2)), _. cbv zeta.
  rewrite (Run ow_ab).
  set (va0 := mk_aval _ (Sh2 _ c) _ _). set (finals := r_args _).
  cbn [snd log mem]. cbn [a_mem a_shape a_data va0].
  split; [reflexivity|].
  split; [rewrite Lb, La, <- app_assoc; reflexivity|].
  split; [reflexivity|].
  split; [rewrite M2, length_app; lia|].
  split; [reflexivity|].
  split; [reflexivity|].
  split; [intros o; rewrite (Run o); reflexivity|].
  assert (Frame : forall i, i < length (mem st) ->
            (i = buf b1 -> ow_b || _datacopied b1 b = false) ->
            write_back [mk_karg va0 true; mk_karg (view_of st2 b1) (ow_b || _datacopied b1 b)]
              finals (mem st2 ++ [a_data va0]) !! i = mem st !! i).
  { intros i Hi Hib.
    assert (Hi2 : i < length (mem st2)) by (rewrite M2, length_app; lia).
    rewrite write_back_other.
    - rewrite lookup_app_l by exact Hi2. eapply mem_prefix_lookup; eauto.
    - repeat constructor; cbn [k_ow k_val a_mem view_of]; subst va0; cbn [a_mem].
      + intros _ off E. injection E as E _. lia.
      + intros Ho off E. injection E as E _. rewrite (Hib (eq_sym E)) in Ho. discriminate. }
  split; [exact Frame|].
  intros arr -> Hne. apply Frame.
  - apply wf_array_lt. exact Wab.
  - intros E. exfalso.
    destruct (validated_fresh _ _ _ _ _ Hb) as [Eb|Fb].
    + apply (Hne b1 Eb). symmetry. exact E.
    + pose proof (wf_array_lt _ _ Wab). rewrite Ma, length_app in Fb. lia.
Qed.

(** C9 on a sample: [l = 2], [u = 1], both overwrite flags set and a kernel
    that writes wherever it may; the caller's [ab] is as it was. *)
Lemma solve_banded_general_frame_witness :
  mem (snd (solve_banded scribbling_lapack (2, 1)%Z (PyArray band_ab) (PyArray band_b)
              true true true band_store)) !! buf band_ab
  = mem band_store !! buf band_ab.
Proof.
  destruct (solve_banded_general_frame scribbling_lapack 2 1 (PyArray band_ab) (PyArray band_b)
              true true true band_store band_ab band_store band_b band_store 4 3
              (ex_intro _ _ (conj eq_refl eq_refl)) (ex_intro _ _ (conj eq_refl eq_refl))
              eq_refl eq_refl eq_refl eq_refl eq_refl ltac:(discriminate)
              ltac:(intros [H _]; discriminate H))
    as (va & fresh & st' & Hst & _ & _ & _ & _ & _ & _ & _ & Hab).
  rewrite Hst. apply (Hab band_ab eq_refl).
  intros o E. injection E as <-. discriminate.
Defined.

(** The tridiagonal path of [solve_banded], for any arguments: the three
    diagonals handed to [gtsv] are views of the validated [ab], and the
    overwrite permission passed for each of them is
    [overwrite_ab or _datacopied(b1, b)]. *)
Lemma solve_banded_tridiagonal_permission (lapack : kernel_lib) (ab b : pyobj)
    (ow_ab ow_b cf : bool) (st : state) a1 st1 b1 st2 c :
  _asarray_validated ab cf st = (Return a1, st1) ->
  _asarray_validated b cf st1 = (Return b1, st2) ->
  shp a1 = Sh2 3 c ->
  dim0 (shp b1) = Some c ->
  exists dl d du vb st',
    snd (solve_banded lapack (1, 1)%Z ab b ow_ab ow_b cf st) = st' /\
    log st' = log st ++
      [Lookup ["gtsv"];
       Invoke (gtsv (mk_karg dl (ow_ab || _datacopied b1 b))
                    (mk_karg d (ow_ab || _datacopied b1 b))
                    (mk_karg du (ow_ab || _datacopied b1 b))
                    (mk_karg vb (ow_b || _datacopied b1 b)))] /\
    a_mem dl = Some (buf a1, 2 * c) /\
    a_mem d = Some (buf a1, c) /\
    a_mem du = Some (buf a1, Nat.min 1 c).
Proof.
  intros Ha Hb Hs Hb0.
  pose proof (validated_log _ _ _ _ _ Ha) as La.
  pose proof (validated_log _ _ _ _ _ Hb) as Lb.
  unfold solve_banded.
  run_with Ha. run_with Hb. rewrite Hs.
  unfold bind at 1. cbn [index dim_last ret]. rewrite Hb0.
  unfold bind at 1. cbn [index ret]. rewrite Nat.eqb_refl. cbn [negb].
  unfold bind at 1. cbn [index dim0 ret].
  change (1 + 1 + 1 =? Z.of_nat 3)%Z with true.
  change ((1 =? 1)%Z && (1 =? 1)%Z) with true. cbn [negb].
  unfold row_slice. rewrite Hs.
  destruct b as [|o|s t dd].
  - exfalso. pose proof (validated_spec PyNone cf st1) as V. rewrite Hb in V.
    destruct V as [_ [[E _]|(s & t & d & E & _)]]; discriminate.
  - cbv beta iota zeta delta [bind ret whole contents invoke kargs Nat.ltb Nat.leb
                               get_lapack_funcs emit as_kernel_arg].
    cbn [mem log].
    set (rp := lapack _).
    destruct (r_info rp =? 0)%Z; [|destruct (0 <? r_info rp)%Z];
      eexists _, _, _, _, _; cbn [snd raise];
      (split; [reflexivity|]); cbn [log a_mem];
      (split; [rewrite Lb, La, <- app_assoc; reflexivity|]);
      repeat split; cbn [a_mem]; do 2 f_equal; lia.
  - cbv beta iota zeta delta [bind ret whole contents invoke kargs Nat.ltb Nat.leb
                               get_lapack_funcs emit as_kernel_arg].
    cbn [mem log].
    set (rp := lapack _).
    destruct (r_info rp =? 0)%Z; [|destruct (0 <? r_info rp)%Z];
      eexists _, _, _, _, _; cbn [snd raise];
      (split; [reflexivity|]); cbn [log a_mem];
      (split; [rewrite Lb, La, <- app_assoc; reflexivity|]);
      repeat split; cbn [a_mem]; do 2 f_equal; lia.
Qed.

(** C2.  [solve_banded((1, 1), ab, b)] with both overwrite flags false, on
    an ndarray [ab] and a list [b]: the tridiagonal kernel [gtsv] is handed
    the three diagonals, views of the caller's own [ab], with the overwrite
    permission set (it is computed from [_datacopied(b1, b)], true for a
    list [b]), and the caller's [ab] is not what it was when the call
    returns. *)
Theorem solve_banded_tridiagonal_clobbers_ab :
  solve_banded scribbling_lapack (1, 1)%Z (PyArray tri_ab) tri_b false false true tri_store
  = (Return (mk_aval [Re 7; Re 7; Re 7] (Sh1 3) float64 None),
     mk_state
       [[Re 0; Re 7; Re 7; Re 7; Re 7; Re 7; Re 7; Re 7; Re 0];
        [Re 1; Re 2; Re 3]]
       [Lookup ["gtsv"];
        Invoke (gtsv
          (mk_karg (mk_aval [Re 1; Re 1] (Sh1 2) float64 (Some (0, 6))) true)
          (mk_karg (mk_aval [Re 4; Re 4; Re 4] (Sh1 3) float64 (Some (0, 3))) true)
          (mk_karg (mk_aval [Re 1; Re 1] (Sh1 2) float64 (Some (0, 1))) true)
          (mk_karg (mk_aval [Re 1; Re 2; Re 3] (Sh1 3) float64 None) true))])
  /\ mem (snd (solve_banded scribbling_lapack (1, 1)%Z (PyArray tri_ab) tri_b
                 false false true tri_store)) !! buf tri_ab
     <> mem tri_store !! buf tri_ab.
Proof.
  split; [reflexivity|].
  intros H.
  apply (f_equal (fun o => match o with
                           | Some (_ :: z :: _) => PrimFloat.eqb (Scalar.real z) 1
                           | _ => false
                           end)) in H.
  vm_compute in H. discriminate.
Qed.

(** ** Hermitian banded systems: [solveh_banded] *)

Lemma solveh_banded_ptsv_run (lapack : kernel_lib) (ab b : pyobj)
    (ow_ab ow_b lower cf : bool) (st : state) a1 st1 b1 st2 c :
  _asarray_validated ab cf st = (Return a1, st1) ->
  _asarray_validated b cf st1 = (Return b1, st2) ->
  shp a1 = Sh2 2 c ->
  dim0 (shp b1) = Some c ->
  let A := default [] (mem st2 !! buf a1) in
  let row0 := mk_aval (peek 0 c A) (Sh1 c) (dty a1) (Some (buf a1, 0)) in
  let row1 := mk_aval (peek c c A) (Sh1 c) (dty a1) (Some (buf a1, c)) in
  let sub := mk_aval (peek c (c - 1) A) (Sh1 (c - 1)) (dty a1) (Some (buf a1, c)) in
  let sup := mk_aval (peek (Nat.min 1 c) (c - 1) A) (Sh1 (c - 1)) (dty a1)
                     (Some (buf a1, Nat.min 1 c)) in
  let d := if lower then real_view row0 else real_view row1 in
  let e := if lower then sub else array_conj sup in
  let p := ow_ab || _datacopied a1 ab in
  let kb := mk_karg (view_of st2 b1) (ow_b || _datacopied b1 b) in
  let call := ptsv (mk_karg d p) (mk_karg e p) kb in
  let rp := lapack call in
  solveh_banded lapack ab b ow_ab ow_b lower cf st =
    ((if (0 <? r_info rp)%Z
      then Raise (LinAlgError "%d-th leading minor not positive definite" [r_info rp])
      else if (r_info rp <? 0)%Z
      then Raise (ValueError "illegal value in %d-th argument of internal pbsv" [(- r_info rp)%Z])
      else Return (out_arg rp 2 kb (common_type (dty a1) (common_type (dty b1) float32)))),
     mk_state (write_back [mk_karg d p; mk_karg e p; kb] (r_args rp) (mem st2))
              ((log st2 ++ [Lookup ["ptsv"]]) ++ [Invoke call])).
Proof.
  intros Ha Hb Hs Hb0 A row0 row1 sub sup d e p kb call rp.
  unfold solveh_banded.
  run_with Ha. run_with Hb. rewrite Hs.
  unfold bind at 1. cbn [index dim_last ret]. rewrite Hb0.
  unfold bind at 1. cbn [index ret]. rewrite Nat.eqb_refl. cbn [negb].
  unfold bind at 1. cbn [index dim0 ret Nat.eqb].
  unfold bind at 1. cbn [get_lapack_funcs bind emit ret fold_right].
  subst rp call kb p e d sup sub row1 row0 A. unfold view_of.
  destruct lower; unfold row_slice; rewrite Hs;
    cbv beta iota zeta delta [bind ret whole contents invoke kargs mem log Nat.ltb Nat.leb];
    repeat (rewrite ?Nat.mul_0_l, ?Nat.mul_1_l, ?Nat.add_0_l, ?Nat.add_0_r, ?Nat.sub_0_r,
              ?Nat.min_0_l);
    set (rp := lapack _);
    (destruct (0 <? r_info rp)%Z; [reflexivity|]);
    (destruct (r_info rp <? 0)%Z; reflexivity).
Qed.

(** C4 (as the code has it).  [solveh_banded] on a two-row [ab]: the
    kernel looked up and invoked is [ptsv]; its diagonal argument is a real
    array holding, entry by entry, the real parts of the main-diagonal row
    (row 0 in lower form, row 1 in upper form); its off-diagonal argument
    holds the stored off-diagonal as it is in lower form (row 1 without its
    last entry) and conjugated in upper form (row 0 without its first
    entry). *)
Theorem solveh_banded_tridiagonal_args (lapack : kernel_lib) (ab b : pyobj)
    (ow_ab ow_b lower cf : bool) (st : state) a1 st1 b1 st2 c :
  _asarray_validated ab cf st = (Return a1, st1) ->
  _asarray_validated b cf st1 = (Return b1, st2) ->
  shp a1 = Sh2 2 c ->
  dim0 (shp b1) = Some c ->
  exists (d e : aval) (st' : state),
    snd (solveh_banded lapack ab b ow_ab ow_b lower cf st) = st' /\
    log st' = log st ++
      [Lookup ["ptsv"];
       Invoke (ptsv (mk_karg d (ow_ab || _datacopied a1 ab))
                    (mk_karg e (ow_ab || _datacopied a1 ab))
                    (mk_karg (view_of st2 b1) (ow_b || _datacopied b1 b)))] /\
    let A := default [] (mem st2 !! buf a1) in
    let main := if lower then take c A else take c (drop c A) in
    let off := if lower then take (c - 1) (drop c A) else take (c - 1) (drop 1 A) in
    a_data d = map (fun z => Re (Scalar.real z)) main /\
    is_complex (a_dtype d) = false /\
    a_data e = (if lower then off else map Scalar.conj off).
Proof.
  intros Ha Hb Hs Hb0.
  pose proof (validated_log _ _ _ _ _ Ha) as La.
  pose proof (validated_log _ _ _ _ _ Hb) as Lb.
  rewrite (solveh_banded_ptsv_run lapack ab b ow_ab ow_b lower cf st a1 st1 b1 st2 c
             Ha Hb Hs Hb0).
  eexists _, _, _. cbn [snd log].
  split; [reflexivity|].
  split; [rewrite Lb, La, <- app_assoc; reflexivity|].
  assert (Hr : forall t, is_complex (real_dtype t) = false) by (intros []; reflexivity).
  cbv zeta. destruct lower; cbn [real_view a_data a_dtype].
  - split; [reflexivity|]. split; [apply Hr | reflexivity].
  - split; [reflexivity|]. split; [apply Hr|].
    cbn [array_conj a_data]. unfold peek. destruct c; [reflexivity|].
    reflexivity.
Qed.

(** C4 on a sample: upper form, the stored diagonal [2 + 0i, 3 + 0i]
    reaches the kernel as the reals [2, 3] and the stored super-diagonal
    [1 + 2i] as [1 - 2i]. *)
Lemma solveh_banded_tridiagonal_args_witness :
  exists d e st',
    log st' = [Lookup ["ptsv"];
               Invoke (ptsv (mk_karg d false) (mk_karg e false)
                            (mk_karg (mk_aval [Cx 1 0; Cx 1 0] (Sh1 2) complex128 (Some (1, 0)))
                                     false))] /\
    a_data d = [Re 2; Re 3] /\
    a_data e = [Cx 1 (-2)].
Proof.
  destruct (solveh_banded_tridiagonal_args scribbling_lapack (PyArray herm_ab) (PyArray herm_b)
              false false false true herm_upper_store herm_ab herm_upper_store herm_b
              herm_upper_store 2 eq_refl eq_refl eq_refl eq_refl)
    as (d & e & st' & _ & Hlog & Hd & _ & He).
  exists d, e, st'. split; [exact Hlog|]. split; [exact Hd | exact He].
Defined.

(** C4 as stated fails.  In lower form the stored off-diagonal [1 + 2i]
    reaches [ptsv] as it is, not conjugated; in upper form it reaches it
    conjugated, [1 - 2i], not as it is. *)
Lemma solveh_banded_conjugates_upper_not_lower :
  let lower_run := solveh_banded scribbling_lapack (PyArray herm_ab) (PyArray herm_b)
                     false false true true herm_lower_store in
  let upper_run := solveh_banded scribbling_lapack (PyArray herm_ab) (PyArray herm_b)
                     false false false true herm_upper_store in
  ptsv_off_diagonal (log (snd lower_run)) = Some [Cx 1 2] /\
  ptsv_off_diagonal (log (snd lower_run)) <> Some (map Scalar.conj [Cx 1 2]) /\
  ptsv_off_diagonal (log (snd upper_run)) = Some (map Scalar.conj [Cx 1 2]) /\
  ptsv_off_diagonal (log (snd upper_run)) <> Some [Cx 1 2].
Proof.
  cbv zeta.
  assert (D : forall o : option (list scalar),
            (match o with
             | Some (Cx _ y :: _) => PrimFloat.ltb 0 y
             | _ => false
             end) = true -> o <> Some (map Scalar.conj [Cx 1 2])).
  { intros o H E. rewrite E in H. vm_compute in H. discriminate. }
  assert (D' : forall o : option (list scalar),
            (match o with
             | Some (Cx _ y :: _) => PrimFloat.ltb y 0
             | _ => false
             end) = true -> o <> Some [Cx 1 2]).
  { intros o H E. rewrite E in H. vm_compute in H. discriminate. }
  split; [reflexivity|]. split; [apply D; reflexivity|].
  split; [reflexivity|]. apply D'; reflexivity.
Qed.

(** ** Toeplitz systems: [solve_toeplitz] *)

(** With an ndarray right-hand side of [n] rows, [solve_toeplitz] raises
    'incompatible dimensions' exactly when [reverse(r[1:]) ++ c] has not
    [2n - 1] entries. *)
Lemma solve_toeplitz_array_length_check (lapack : kernel_lib) (arg : c_or_cr)
    (ba : ndarray) (cf : bool) (st : state) c r st1 n :
  toeplitz_c_r arg cf st = (Return (c, r), st1) ->
  dim0 (shp ba) = Some n ->
  let vals := rev (drop 1 (a_data r)) ++ a_data c in
  (Z.of_nat (length vals) <> 2 * Z.of_nat n - 1)%Z <->
  exists st', solve_toeplitz lapack arg (PyArray ba) cf st
              = (Raise (ValueError "incompatible dimensions" []), st').
Proof.
  intros Hg Hn vals. unfold solve_toeplitz.
  run_with Hg. cbn [attr_shape].
  unfold bind at 1. cbn [ret]. rewrite Hn.
  unfold bind at 1. cbn [index ret].
  unfold toeplitz_vals at 1. cbn [a_data]. rewrite length_map. fold vals.
  destruct (Z.eqb_spec (Z.of_nat (length vals)) (2 * Z.of_nat n - 1)) as [E|E]; cbn [negb].
  - split; [intros H; contradiction|]. intros [st' H]. exfalso.
    destruct (_asarray_validated (PyArray ba) true st1) as [[b1|e] st2] eqn:Hb.
    + run_with_in Hb H.
      unfold bind at 1 in H. cbn [whole bind contents ret] in H.
      cbn [asarray_as a_shape] in H.
      destruct (shp b1) as [| |m k].
      * unfold bind in H. cbn in H. discriminate.
      * unfold bind in H. cbn in H. discriminate.
      * unfold bind at 1 in H.
        match type of H with
        | context [mapM ?g ?l ?s] =>
            assert (Hg' : forall x s0, exists y s', g x s0 = (Return y, s'))
              by (intros x s0; eexists _, _; reflexivity);
            destruct (mapM_returns g Hg' l s) as (cols & st3 & Hm)
        end.
        rewrite Hm in H. destruct cols; cbn in H; discriminate.
    + run_with_in Hb H.
      pose proof (validated_spec (PyArray ba) true st1) as V'. rewrite Hb in V'.
      destruct V' as ((msg & ->) & _). discriminate.
  - split; [|tauto]. intros _. eexists. reflexivity.
Qed.

(** With an ndarray vector [b] of matching length that passes validation,
    the recursion runs once, on [vals = reverse(r[1:]) ++ c] and [b], both
    converted to the common element type. *)
Lemma solve_toeplitz_vector_run (lapack : kernel_lib) (arg : c_or_cr)
    (ba : ndarray) (cf : bool) (st : state) c r st1 n :
  toeplitz_c_r arg cf st = (Return (c, r), st1) ->
  shp ba = Sh1 n ->
  _asarray_validated (PyArray ba) true st1 = (Return ba, st1) ->
  (Z.of_nat (length (rev (drop 1 (a_data r)) ++ a_data c)) = 2 * Z.of_nat n - 1)%Z ->
  let t := if is_complex (common_type (a_dtype r) (a_dtype c)) || is_complex (dty ba)
           then complex128 else float64 in
  let vals := asarray_as t (toeplitz_vals c r) in
  let call := levinson vals (asarray_as t (view_of st1 ba)) in
  solve_toeplitz lapack arg (PyArray ba) cf st
  = (Return (mk_aval (default [] (r_outs (lapack call) !! 0)) (Sh1 n) t None),
     mk_state (mem st1) (log st1 ++ [Invoke call])).
Proof.
  intros Hg Hs Hb Hl t vals call. unfold solve_toeplitz.
  run_with Hg. cbn [attr_shape].
  unfold bind at 1. cbn [ret]. rewrite Hs.
  unfold bind at 1. cbn [index dim0 ret].
  unfold toeplitz_vals at 1. cbn [a_data]. rewrite length_map.
  rewrite (proj2 (Z.eqb_eq _ _) Hl). cbn [negb].
  run_with Hb.
  unfold bind at 1. cbn [whole bind contents ret].
  cbn [asarray_as a_shape]. rewrite Hs.
  unfold bind. cbn [invoke ret kargs write_back combine fold_left].
  subst call vals t. unfold toeplitz_vals, asarray_as, view_of.
  cbn [a_data a_shape a_dtype]. rewrite !length_map, Hs. reflexivity.
Qed.

(** C7.  [solve_toeplitz(c, b)] with [c = [2, 1]] (so [vals] has 3
    entries) and [b] a Python list: [b.shape] is read before [b] is
    validated, hence AttributeError, both for a [b] of three rows (where
    [3 <> 2*3 - 1], and 'incompatible dimensions' was due) and for a [b] of
    two rows (where the lengths match and the recursion should run). *)
Theorem solve_toeplitz_list_rhs_attribute_error :
  solve_toeplitz scribbling_lapack (JustC toeplitz_c) toeplitz_b3 true (mk_state [] [])
  = (Raise (AttributeError "shape"), mk_state [[Re 2; Re 1]] [])
  /\ solve_toeplitz scribbling_lapack (JustC toeplitz_c) toeplitz_b2 true (mk_state [] [])
     = (Raise (AttributeError "shape"), mk_state [[Re 2; Re 1]] [])
  /\ a_data (toeplitz_vals (mk_aval [Re 2; Re 1] (Sh1 2) float64 None)
                           (array_conj (mk_aval [Re 2; Re 1] (Sh1 2) float64 None)))
     = [Re 1; Re 2; Re 1].
Proof. repeat split; reflexivity. Qed.

(** ** Inversion: [inv] *)

(** [int(1.01 * n)] is [n + n // 100] for every size up to 2000: the
    inflation is by one percent, rounded down. *)
Lemma inflation_one_percent :
  forallb (fun n => match Py.int_of_float (Py.lit_1_01 * Py.float_of_int (Z.of_nat n))%float with
                    | Some z => (z =? Z.of_nat n + Z.of_nat n / 100)%Z
                    | None => false
                    end) (seq 0 2001) = true.
Proof. vm_compute. reflexivity. Qed.







(** ** Least squares: [lstsq] *)

(** C10.  [lstsq] with a driver name that is none of 'gelsd', 'gelsy',
    'gelss' always raises, and what it raises is a ValueError (given a
    right-hand side of at least one dimension); nothing is looked up or
    invoked (the log is unchanged) and every buffer of the store is as it
    was.  When the arguments pass validation and the shape checks, the
    error is the one on the driver name. *)
Theorem lstsq_unknown_driver (lapack : kernel_lib) (np : numpy_lib) (a b : pyobj)
    (cond : option float) (ow_a ow_b cf : bool) (driver : string) (st : state) :
  known_driver driver = false ->
  (obj_shape b <> Some Sh0 ->
   exists e st',
     lstsq lapack np a b cond ow_a ow_b cf driver st = (Raise e, st') /\
     is_value_error e = true /\
     log st' = log st /\
     exists extra, mem st' = mem st ++ extra) /\
  (forall a1 st1 b1 st2 m n,
     _asarray_validated a cf st = (Return a1, st1) ->
     _asarray_validated b cf st1 = (Return b1, st2) ->
     shp a1 = Sh2 m n ->
     dim0 (shp b1) = Some m ->
     lstsq lapack np a b cond ow_a ow_b cf driver st = (Raise (driver_not_found driver), st2)).
Proof.
  intros Hd. fold (known_driver driver) in *. split.
  - intros Hb0. unfold lstsq.
    destruct (_asarray_validated a cf st) as [[a1|e] st1] eqn:Ha.
    2:{ run_with Ha.
        destruct (validated_raise _ _ _ _ _ Ha) as [Hv Hl].
        exists e, st1. repeat split; try assumption. eapply validated_mem; eauto. }
    run_with Ha.
    pose proof (validated_log _ _ _ _ _ Ha) as La.
    destruct (validated_mem _ _ _ _ _ Ha) as [xa Ma].
    destruct (_asarray_validated b cf st1) as [[b1|e] st2] eqn:Hb.
    2:{ run_with Hb.
        destruct (validated_raise _ _ _ _ _ Hb) as [Hv Hl].
        destruct (validated_mem _ _ _ _ _ Hb) as [xb Mb].
        exists e, st2. repeat split; try assumption; [congruence|].
        exists (xa ++ xb). rewrite Mb, Ma, app_assoc. reflexivity. }
    run_with Hb.
    pose proof (validated_log _ _ _ _ _ Hb) as Lb.
    destruct (validated_mem _ _ _ _ _ Hb) as [xb Mb].
    assert (Hm : exists extra, mem st2 = mem st ++ extra).
    { exists (xa ++ xb). rewrite Mb, Ma, app_assoc. reflexivity. }
    assert (Hl : log st2 = log st) by congruence.
    pose proof (validated_shape _ _ _ _ _ Hb) as Sb.
    destruct (shp a1) as [|k|m n]; try (eexists _, st2; repeat split; eauto; fail).
    destruct (shp b1) as [|bm|bm bk]; [congruence| |];
      unfold bind at 1; cbn [index dim0 ret];
      (destruct (m =? bm); cbn [negb]; [|eexists _, st2; repeat split; eauto; fail]);
      unfold known_driver in Hd; rewrite Hd; cbn [negb];
      eexists _, st2; repeat split; eauto.
  - intros a1 st1 b1 st2 m n Ha Hb Hs Hb0. unfold lstsq.
    run_with Ha. run_with Hb. rewrite Hs, Hb0.
    unfold bind at 1. cbn [index ret]. rewrite Nat.eqb_refl. cbn [negb].
    unfold known_driver in Hd. rewrite Hd. reflexivity.
Qed.

(** C10 on a sample: the driver name 'gelsx'. *)
Lemma lstsq_unknown_driver_witness :
  lstsq (sample_lapack 0 2) sample_numpy (PyArray m22) (PyArray v2) None false false true
        "gelsx" sample_store
  = (Raise (driver_not_found "gelsx"), sample_store).
Proof.
  exact (proj2 (lstsq_unknown_driver (sample_lapack 0 2) sample_numpy (PyArray m22) (PyArray v2)
                  None false false true "gelsx" sample_store eq_refl)
           m22 sample_store v2 sample_store 2 2 eq_refl eq_refl eq_refl eq_refl).
Defined.

(** C1.  With the driver 'gelsd' (the default) or 'gelsy', [lstsq] never
    returns: whatever the arguments it ends in an exception, and on
    arguments that pass validation and the shape checks the kernel is
    looked up, never invoked, and the final [return x, resids, rank, s]
    raises UnboundLocalError, none of the four names having been bound. *)
Theorem lstsq_gelsd_gelsy_unbound (lapack : kernel_lib) (np : numpy_lib) (a b : pyobj)
    (cond : option float) (ow_a ow_b cf : bool) (driver : string) (st : state) :
  driver = "gelsd" \/ driver = "gelsy" ->
  raises (lstsq lapack np a b cond ow_a ow_b cf driver) /\
  (forall a1 st1 b1 st2 m n,
     _asarray_validated a cf st = (Return a1, st1) ->
     _asarray_validated b cf st1 = (Return b1, st2) ->
     shp a1 = Sh2 m n ->
     dim0 (shp b1) = Some m ->
     exists st',
       lstsq lapack np a b cond ow_a ow_b cf driver st = (Raise (UnboundLocalError "x"), st') /\
       log st' = log st ++ [Lookup [driver]]).
Proof.
  intros Hd. split.
  - unfold lstsq. apply raises_bind; intros a1. apply raises_bind; intros b1.
    destruct (shp a1); try apply raises_raise.
    apply raises_bind; intros bm. destruct (negb (r =? bm)); [apply raises_raise|].
    destruct Hd as [-> | ->]; cbn [existsb String.eqb Ascii.eqb Bool.eqb orb negb];
      auto with py.
  - intros a1 st1 b1 st2 m n Ha Hb Hs Hb0.
    pose proof (validated_log _ _ _ _ _ Ha) as La.
    pose proof (validated_log _ _ _ _ _ Hb) as Lb.
    unfold lstsq.
    run_with Ha. run_with Hb. rewrite Hs, Hb0.
    unfold bind at 1. cbn [index ret]. rewrite Nat.eqb_refl. cbn [negb].
    destruct Hd as [-> | ->]; cbn [existsb String.eqb Ascii.eqb Bool.eqb orb negb];
      unfold get_lapack_funcs, extend_rhs, zero_padded, bind;
      destruct (m <? n); [destruct (shp b1)| | destruct (shp b1)|]; cbn;
      (eexists; split; [reflexivity | cbn; congruence]).
Qed.

(** C1 on a sample: the default driver 'gelsd'. *)
Lemma lstsq_gelsd_gelsy_unbound_witness :
  exists st',
    lstsq (sample_lapack 0 2) sample_numpy (PyArray m22) (PyArray v2) None false false true
          "gelsd" sample_store
    = (Raise (UnboundLocalError "x"), st') /\
    log st' = [Lookup ["gelsd"]].
Proof.
  exact (proj2 (lstsq_gelsd_gelsy_unbound (sample_lapack 0 2) sample_numpy (PyArray m22)
                  (PyArray v2) None false false true "gelsd" sample_store (or_introl eq_refl))
           m22 sample_store v2 sample_store 2 2 eq_refl eq_refl eq_refl eq_refl).
Defined.

(** The padding step of [lstsq]: the array handed to the kernel. *)
Lemma lstsq_pad_spec t (m n : nat) (b1 : ndarray) st bm :
  dim0 (shp b1) = Some bm ->
  exists b2 st3,
    (if m <? n then extend_rhs t n (columns (shp b1)) b1 else ret b1) st
      = (Return b2, st3) /\
    log st3 = log st /\
    shp b2 <> Sh0 /\
    columns (shp b2) = columns (shp b1) /\
    ((m <? n) = false -> b2 = b1 /\ st3 = st).
Proof.
  intros Hb. destruct (m <? n).
  - unfold extend_rhs. destruct (shp b1) eqn:E; [discriminate| |];
      unfold zero_padded, bind; cbn; eexists _, _;
      (split; [reflexivity|]); cbn; repeat split; congruence || discriminate.
  - exists b1, st. cbn. split; [reflexivity|]. split; [reflexivity|].
    split; [intros E; rewrite E in Hb; discriminate|]. split; [reflexivity|]. auto.
Qed.

Ltac to_map :=
  lazymatch goal with
  | |- map _ _ = map _ _ => idtac
  | _ => f_equal; [to_map]
  end.

Lemma np_abs_magnitude np z : np_abs np z = spec_magnitude np z.
Proof. destruct z; reflexivity. Qed.

Lemma square_squared t x : square t x = spec_squared t x.
Proof. destruct t; reflexivity. Qed.

Lemma entry_nth d k i j : entry d k i j = nth (i * k + j) d (Re 0).
Proof. unfold entry. symmetry. apply nth_lookup. Qed.

Lemma lstsq_gelss_run (lapack : kernel_lib) (np : numpy_lib) (a b : pyobj)
    (cond : option float) (ow_a ow_b cf : bool) (st : state) a1 st1 b1 st2 m n :
  _asarray_validated a cf st = (Return a1, st1) ->
  _asarray_validated b cf st1 = (Return b1, st2) ->
  shp a1 = Sh2 m n ->
  dim0 (shp b1) = Some m ->
  exists b2 st3,
    log st3 = log st ++ [Lookup ["gelss"]] /\
    shp b2 <> Sh0 /\
    columns (shp b2) = columns (shp b1) /\
    ((m <? n) = false -> b2 = b1 /\ mem st3 = mem st2) /\
    let t := common_type (dty a1) (common_type (dty b1) float32) in
    let va := view_of st3 a1 in
    let vb := view_of st3 b2 in
    let qc := gelss (mk_karg va false) (mk_karg vb false) None (-1) in
    let lw := Py.astype_int (Scalar.real (r_work (lapack qc))) in
    let ka := mk_karg va (ow_a || _datacopied a1 a) in
    let kb := mk_karg vb (ow_b || _datacopied b2 b) in
    let call := gelss ka kb cond lw in
    let r := lapack call in
    let raw := out_arg r 1 kb t in
    lstsq lapack np a b cond ow_a ow_b cf "gelss" st =
      ((if (0 <? r_info r)%Z
        then Raise (LinAlgError "SVD did not converge in Linear Least Squares" [])
        else if (r_info r <? 0)%Z
        then Raise (ValueError "illegal value in %d-th argument of internal gelss"
                               [(- r_info r)%Z])
        else Return (spec_solution raw m n,
                     spec_residual np t (shp b2) (default [] (r_args r !! 1)) m n (r_rank r),
                     r_rank r, r_reals r)),
       mk_state (write_back [ka; kb] (r_args r) (mem st3))
                ((log st3 ++ [Invoke qc]) ++ [Invoke call])).
Proof.
  intros Ha Hb Hs Hb0.
  pose proof (validated_log _ _ _ _ _ Ha) as La.
  pose proof (validated_log _ _ _ _ _ Hb) as Lb.
  unfold lstsq.
  run_with Ha. run_with Hb. rewrite Hs, Hb0.
  unfold bind at 1. cbn [index ret]. rewrite Nat.eqb_refl.
  cbn [negb existsb String.eqb Ascii.eqb Bool.eqb orb].
  unfold bind at 1. cbn [get_lapack_funcs bind emit ret fold_right].
  set (t := common_type (dty a1) (common_type (dty b1) float32)).
  set (st_l := mk_state (mem st2) (log st2 ++ [Lookup ["gelss"]])).
  fold (columns (shp b1)).
  destruct (lstsq_pad_spec t m n b1 st_l m Hb0) as (b2 & st3 & Hp & Lp & Sp & Cp & Ep).
  exists b2, st3.
  split; [rewrite Lp; subst st_l; cbn [log]; congruence|].
  split; [exact Sp|]. split; [exact Cp|].
  split; [intros Hmn; destruct (Ep Hmn) as [-> ->]; split; reflexivity|].
  cbv zeta. unfold bind at 1. rewrite Hp.
  unfold bind at 1 2 3 4. cbn [whole bind contents ret invoke kargs].
  fold (view_of st3 a1). fold (view_of st3 b2).
  rewrite (write_back_no_ow [mk_karg _ false; mk_karg _ false]) by (repeat constructor).
  cbn [mem log].
  set (r := lapack (gelss _ _ cond _)).
  destruct (0 <? r_info r)%Z; [reflexivity|].
  destruct (r_info r <? 0)%Z; [reflexivity|].
  unfold spec_solution, spec_residual.
  destruct (n <? m) eqn:Hnm.
  - assert (Hmn : (m <? n) = false).
    { apply Nat.ltb_lt in Hnm. apply Nat.ltb_ge. lia. }
    destruct (Ep Hmn) as [-> ->].
    unfold bind at 1. unfold take_rows, sum_abs_sq, excess_column, out_arg.
    cbn [a_shape a_data a_dtype a_mem k_val k_ow view_of andb].
    destruct (shp b1) as [|p|p k]; [discriminate| |];
      cbn in Hb0; injection Hb0 as ->;
      unfold bind, ret; destruct (r_rank r =? Z.of_nat n)%Z; try reflexivity;
      cbv beta iota.
    + unfold peek. to_map. apply map_ext. intros z.
      rewrite square_squared, np_abs_magnitude. reflexivity.
    + to_map. apply map_ext. intros j. to_map. apply map_ext. intros i.
      rewrite square_squared, np_abs_magnitude, entry_nth. reflexivity.
  - reflexivity.
Qed.

(** A normal return of [lstsq] happens only on validated, shape-compatible
    arguments and only for the driver 'gelss'. *)
Lemma lstsq_return_inv (lapack : kernel_lib) (np : numpy_lib) (a b : pyobj)
    (cond : option float) (ow_a ow_b cf : bool) (driver : string) (st : state) res st' :
  lstsq lapack np a b cond ow_a ow_b cf driver st = (Return res, st') ->
  exists a1 st1 b1 st2 m n,
    _asarray_validated a cf st = (Return a1, st1) /\
    _asarray_validated b cf st1 = (Return b1, st2) /\
    shp a1 = Sh2 m n /\
    dim0 (shp b1) = Some m /\
    driver = "gelss".
Proof.
  intros H. unfold lstsq in H.
  destruct (_asarray_validated a cf st) as [[a1|e] st1] eqn:Ha;
    [run_with_in Ha H | run_with_in Ha H; discriminate].
  destruct (_asarray_validated b cf st1) as [[b1|e] st2] eqn:Hb;
    [run_with_in Hb H | run_with_in Hb H; discriminate].
  destruct (shp a1) as [|k|m n] eqn:Hs; try discriminate.
  destruct (dim0 (shp b1)) as [bm|] eqn:Hb0; [|discriminate].
  unfold bind at 1 in H. cbn [index ret] in H.
  destruct (Nat.eqb_spec m bm) as [<-|]; [|discriminate]. cbn [negb] in H.
  destruct (existsb _ _); [|discriminate]. cbn [negb] in H.
  destruct (String.eqb driver "gelss") eqn:Hd.
  - apply String.eqb_eq in Hd. exists a1, st1, b1, st2, m, n. auto.
  - exfalso. revert H. apply raises_not_return. auto with py.
Qed.

Lemma spec_residual_nonempty np t sb raw m n rank :
  0 < columns sb ->
  a_data (spec_residual np t sb raw m n rank) <> [] <-> n < m /\ rank = Z.of_nat n.
Proof.
  intros Hc. unfold spec_residual.
  destruct (Nat.ltb_spec n m) as [Hlt|Hge]; cbn [andb].
  - destruct (Z.eqb_spec rank (Z.of_nat n)) as [He|Hne].
    + split; [auto|]. intros _.
      destruct sb as [|p|p k]; cbn [a_data]; try discriminate.
      cbn in Hc. destruct k; [lia|]. discriminate.
    + cbn [a_data]. split; [congruence | tauto].
  - cbn [a_data]. split; [congruence | lia].
Qed.

Lemma spec_residual_no_column np t sb raw m n rank :
  columns sb = 0 -> a_data (spec_residual np t sb raw m n rank) = [].
Proof.
  intros Hc. unfold spec_residual.
  destruct ((n <? m) && (rank =? Z.of_nat n)%Z); [|reflexivity].
  destruct sb as [|p|p k]; try discriminate. cbn in Hc. subst k. reflexivity.
Qed.

(** C5 (as the code has it).  Every normal return of [lstsq], for an [m]
    by [n] matrix and a right-hand side [b], gives as residual artifact what
    the specification says of the kernel's raw output, the contents the
    last kernel invocation ([gelss]) reports for its second array argument:
    with [n < m] and rank [n], per column of [b] the sum of the squared
    magnitudes of rows [n..m-1] of the raw output; the empty array
    otherwise.  The solution is the first [n] rows of the raw output when
    [n < m], the raw output otherwise.  So for a [b] of at least one column
    the residual is non-empty exactly when [n < m] and the rank is [n]; for
    a [b] without columns it is empty in every case.  And [lstsq] does
    return, on arguments that pass validation and the shape checks, when
    the driver is 'gelss' and the kernel's status is 0. *)
Theorem lstsq_residual (lapack : kernel_lib) (np : numpy_lib) (a b : pyobj)
    (cond : option float) (ow_a ow_b cf : bool) (driver : string) (st : state) :
  (forall x resids rank s st',
     lstsq lapack np a b cond ow_a ow_b cf driver st = (Return (x, resids, rank, s), st') ->
     exists m n sb ka kb lw,
       obj_shape a = Some (Sh2 m n) /\
       obj_shape b = Some sb /\
       last (log st') = Some (Invoke (gelss ka kb cond lw)) /\
       let r := lapack (gelss ka kb cond lw) in
       let raw := default [] (r_args r !! 1) in
       let k := columns sb in
       rank = r_rank r /\
       a_data x = (if n <? m then firstn (n * k) raw else raw) /\
       resids = spec_residual np (a_dtype x) sb raw m n rank /\
       (0 < k -> (a_data resids <> [] <-> n < m /\ rank = Z.of_nat n)) /\
       (k = 0 -> a_data resids = [])) /\
  (driver = "gelss" ->
   forall a1 st1 b1 st2 m n,
     _asarray_validated a cf st = (Return a1, st1) ->
     _asarray_validated b cf st1 = (Return b1, st2) ->
     shp a1 = Sh2 m n ->
     dim0 (shp b1) = Some m ->
     exists ka kb lw st',
       snd (lstsq lapack np a b cond ow_a ow_b cf driver st) = st' /\
       last (log st') = Some (Invoke (gelss ka kb cond lw)) /\
       (r_info (lapack (gelss ka kb cond lw)) = 0%Z ->
        exists res, fst (lstsq lapack np a b cond ow_a ow_b cf driver st) = Return res)).
Proof.
  split.
  - intros x resids rank s st' H.
    destruct (lstsq_return_inv _ _ _ _ _ _ _ _ _ _ _ _ H)
      as (a1 & st1 & b1 & st2 & m & n & Ha & Hb & Hs & Hb0 & ->).
    destruct (lstsq_gelss_run lapack np a b cond ow_a ow_b cf st a1 st1 b1 st2 m n Ha Hb Hs Hb0)
      as (b2 & st3 & L3 & S3 & C3 & E2 & E).
    cbv zeta in E. rewrite E in H. clear E.
    set (r := lapack (gelss _ _ cond _)) in H.
    destruct (0 <? r_info r)%Z; [discriminate|].
    destruct (r_info r <? 0)%Z; [discriminate|].
    injection H as <- <- <- <- <-.
    eexists m, n, (shp b1), _, _, _.
    split; [rewrite (validated_shape _ _ _ _ _ Ha), Hs; reflexivity|].
    split; [rewrite (validated_shape _ _ _ _ _ Hb); reflexivity|].
    split; [cbn [log]; apply last_snoc|].
    cbv zeta. fold r.
    set (t := common_type (dty a1) (common_type (dty b1) float32)).
    set (kb := mk_karg (view_of st3 b2) (ow_b || _datacopied b2 b)).
    assert (Hd : a_dtype (spec_solution (out_arg r 1 kb t) m n) = t).
    { unfold spec_solution. destruct (n <? m); [|reflexivity].
      cbn [out_arg a_shape k_val kb view_of]. destruct (shp b2); reflexivity. }
    rewrite Hd.
    assert (Hr : spec_residual np t (shp b2) (default [] (r_args r !! 1)) m n (r_rank r)
                 = spec_residual np t (shp b1) (default [] (r_args r !! 1)) m n (r_rank r)).
    { unfold spec_residual. destruct (Nat.ltb_spec n m) as [Hlt|Hge]; [|reflexivity].
      rewrite (proj1 (E2 ltac:(apply Nat.ltb_ge; lia))). reflexivity. }
    rewrite Hr.
    split; [reflexivity|]. split; [|split; [reflexivity|split]].
    + unfold spec_solution. destruct (Nat.ltb_spec n m) as [Hlt|Hge]; [|reflexivity].
      destruct (E2 ltac:(apply Nat.ltb_ge; lia)) as [-> _]. subst kb.
      cbn [out_arg a_shape a_data k_val view_of].
      destruct (shp b1) as [|p|p k]; [contradiction| |]; cbn [a_data columns];
        rewrite ?Nat.mul_1_r; reflexivity.
    + apply spec_residual_nonempty.
    + apply spec_residual_no_column.
  - intros -> a1 st1 b1 st2 m n Ha Hb Hs Hb0.
    destruct (lstsq_gelss_run lapack np a b cond ow_a ow_b cf st a1 st1 b1 st2 m n Ha Hb Hs Hb0)
      as (b2 & st3 & L3 & S3 & C3 & E2 & E).
    cbv zeta in E. rewrite E. clear E. cbn [fst snd].
    eexists _, _, _, _. split; [reflexivity|].
    split; [cbn [log]; apply last_snoc|].
    intros ->. cbn. eexists. reflexivity.
Qed.

(** C5 on a sample: a 3 by 1 system of rank 1 with right-hand side
    [[1; 2; 3]] for which the kernel leaves [[5; 3; 4]]: the solution is
    [[5]] and the residual [3*3 + 4*4]. *)
Lemma lstsq_residual_witness :
  exists x resids s st',
    lstsq answering_lapack sample_numpy (PyArray m31) (PyArray v3) None false false true
          "gelss" sample_store
    = (Return (x, resids, 1%Z, s), st') /\
    a_data x = [Re 5] /\
    resids = mk_aval [Re 25] Sh0 float64 None /\
    (a_data resids <> [] <-> 1 < 3 /\ 1%Z = Z.of_nat 1).
Proof.
  eexists _, _, _, _. split; [vm_compute; reflexivity|].
  destruct (proj1 (lstsq_residual answering_lapack sample_numpy (PyArray m31) (PyArray v3)
                     None false false true "gelss" sample_store) _ _ _ _ _ eq_refl)
    as (m & n & sb & ka & kb & lw & Hshape & Hsb & Hlast & Hrank & Hx & Hres & Hiff & _).
  injection Hshape as <- <-. injection Hsb as <-. injection Hlast as <- <- <-.
  split; [exact Hx|]. split; [exact Hres|]. apply Hiff. cbn. lia.
Defined.

(** C5 as stated fails for a right-hand side without columns: on a 3 by 1
    matrix of rank 1 and a [b] of shape [(3, 0)], [n < m] holds and the rank
    is [n], yet the residual (one sum per column) is the empty array. *)
Lemma lstsq_residual_empty_without_columns :
  exists x resids s st',
    lstsq (sample_lapack 0 1) sample_numpy (PyArray tall_a) (PyArray no_column_b) None
          false false true "gelss" no_column_store
    = (Return (x, resids, 1%Z, s), st') /\
    obj_shape (PyArray tall_a) = Some (Sh2 3 1) /\
    (1 < 3 /\ 1%Z = Z.of_nat 1) /\
    a_data resids = [].
Proof.
  eexists _, _, _, _. split; [vm_compute; reflexivity|].
  split; [reflexivity|]. split; [split; [lia | reflexivity] | reflexivity].
Qed.

(** ** Pseudo-inverses: the numerical rank policy *)

Lemma default_cond_spec (t : dtype) st :
  default_cond t st
  = (Return (if is_double t then default_cutoff_double else default_cutoff_single), st).
Proof. destruct t; reflexivity. Qed.

Lemma resolve_cond_unset cond t st :
  cond_unset cond = true -> resolve_cond cond t st = default_cond t st.
Proof. intros H. unfold resolve_cond. destruct cond; [rewrite H|]; reflexivity. Qed.

Lemma cutoff_as_double t c : is_double t = true -> cutoff_as t c = c.
Proof. intros H. unfold cutoff_as. rewrite H. reflexivity. Qed.

Lemma count_true_above c s :
  count_true (above c s) = length (filter (fun v => Is_true (c <? v)%float) s).
Proof.
  unfold count_true, above. induction s as [|x s IH]; [reflexivity|].
  cbn [map]. rewrite !filter_cons.
  destruct (c <? x)%float; cbn.
  - rewrite decide_True by exact I. rewrite decide_True by exact I. cbn. f_equal. exact IH.
  - rewrite decide_False by tauto. rewrite decide_False by tauto. exact IH.
Qed.

Lemma length_select_mask {A} (m : list bool) (s : list A) :
  length m = length s -> length (select m s) = count_true m.
Proof.
  unfold count_true. revert s. induction m as [|b m IH]; intros [|x s] H; try discriminate.
  - reflexivity.
  - cbn [select]. rewrite filter_cons. injection H as H. destruct b; cbn.
    + rewrite decide_True by exact I. cbn. f_equal. apply IH. exact H.
    + rewrite decide_False by tauto. apply IH. exact H.
Qed.

(** C3 (as the code has it).  [pinv2] and [pinvh], called with no cutoff
    ([cond] and [rcond] None, or -1) on a double-precision matrix, both
    determine the rank as the specification's effective rank for the same
    default cutoff [1E6 * eps], [pinv2] of the singular values and [pinvh]
    of the magnitudes of the eigenvalues; the default is [1E3 * eps] of
    single precision for the single-precision types.  [pinv] computes no
    cutoff: its result is that of [lstsq] on the identity right-hand side,
    called with the caller's cutoff as it is. *)
Theorem pinv2_pinvh_default_rank (lapack : kernel_lib) (np : numpy_lib) (a : pyobj)
    (cond rcond : option float) (lower cf : bool) (st : state) a1 st1 :
  _asarray_validated a cf st = (Return a1, st1) ->
  is_double (dty a1) = true ->
  cond_unset (pick_cond cond rcond) = true ->
  (forall u s vh st2,
     decomp_svd_svd lapack a1 st1 = (Return (u, s, vh), st2) ->
     s <> [] ->
     exists B,
       pinv2 lapack np a cond rcond true cf st
       = (Return (B, Some (spec_effective_rank default_cutoff_double s)), st2)) /\
  (forall s u st2,
     decomp_eigh lapack a1 lower st1 = (Return (s, u), st2) ->
     s <> [] ->
     exists B,
       pinvh lapack np a cond rcond lower true cf st
       = (Return (B, Some (spec_effective_rank default_cutoff_double (map PrimFloat.abs s))),
          st2)) /\
  (forall t st', default_cond t st'
                 = (Return (if is_double t then default_cutoff_double
                            else default_cutoff_single), st')) /\
  (forall m return_rank,
     dim0 (shp a1) = Some m ->
     exists I stI,
       identity m (dty a1) st1 = (Return I, stI) /\
       pinv lapack np a cond rcond return_rank cf st
       = match lstsq lapack np (PyArray a1) (PyArray I) (pick_cond cond rcond)
                 false false false "gelsd" stI with
         | (Return (x, _, rank, _), st') =>
             (Return (x, if return_rank then Some rank else None), st')
         | (Raise e, st') => (Raise e, st')
         end).
Proof.
  intros Ha Hd Hc. split; [|split; [|split]].
  - intros u s vh st2 Hsvd Hs.
    assert (Hu : a_dtype u = dty a1).
    { unfold decomp_svd_svd in Hsvd. destruct (shp a1); try discriminate.
      unfold bind in Hsvd. cbn [whole bind contents ret invoke] in Hsvd.
      destruct (0 <? r_info _)%Z; [discriminate|].
      destruct (r_info _ <? 0)%Z; [discriminate|].
      injection Hsvd as <- _ _ _. reflexivity. }
    unfold pinv2.
    run_with Ha. run_with Hsvd.
    unfold bind at 1. rewrite (resolve_cond_unset _ _ _ Hc), default_cond_spec, Hu, Hd.
    destruct s as [|x t]; [contradiction|].
    unfold bind. cbn [np_max ret]. rewrite (cutoff_as_double _ _ Hd).
    eexists. rewrite count_true_above. reflexivity.
  - intros s u st2 Heig Hs.
    assert (Hu : a_dtype u = dty a1).
    { unfold decomp_eigh in Heig. destruct (negb _); [discriminate|].
      unfold bind in Heig. cbn [whole bind contents ret invoke] in Heig.
      destruct (0 <? r_info _)%Z; [discriminate|].
      destruct (r_info _ <? 0)%Z; [discriminate|].
      injection Heig as _ <- _. reflexivity. }
    unfold pinvh.
    run_with Ha. run_with Heig.
    unfold bind at 1. rewrite (resolve_cond_unset _ _ _ Hc), default_cond_spec, Hu, Hd.
    destruct s as [|x t]; [contradiction|].
    unfold bind. cbn [np_max ret map]. rewrite (cutoff_as_double _ _ Hd). eexists.
    rewrite length_map, length_select_mask.
    + rewrite count_true_above. reflexivity.
    + unfold above. cbn [map length]. rewrite !length_map. reflexivity.
  - intros t st'. apply default_cond_spec.
  - intros m rr Hm. unfold pinv.
    run_with Ha.
    unfold bind at 1. rewrite Hm. cbn [index ret].
    unfold bind at 1. cbn [identity alloc].
    eexists _, _. split; [reflexivity|].
    unfold bind. destruct (lstsq _ _ _ _ _ _ _ _ _ _) as [[[[[x r] rk] sv]|e] s']; reflexivity.
Qed.

(** C3 on a sample: singular values [3] and [2^-40] give rank 1. *)
Lemma pinv2_pinvh_default_rank_witness :
  exists B,
    pinv2 (sample_lapack 0 2) sample_numpy (PyArray m22) None None true true sample_store
    = (Return (B, Some 1),
       mk_state (mem sample_store)
         [Invoke (svd (mk_aval [Re 4; Re 1; Re 1; Re 3] (Sh2 2 2) float64 (Some (0, 0))))]).
Proof.
  destruct (pinv2_pinvh_default_rank (sample_lapack 0 2) sample_numpy (PyArray m22) None None
              true true sample_store m22 sample_store eq_refl eq_refl eq_refl) as [H _].
  destruct (H _ _ _ _ eq_refl ltac:(discriminate)) as [B HB].
  exists B. exact HB.
Defined.

(** C3 as stated fails for [pinv]: on a double-precision matrix whose
    singular values are [3] and [2^-40], [pinv2] finds rank 1 with the
    default cutoff [1E6 * eps]; [pinv] computes no cutoff, hands [cond =
    None] to [lstsq] and (through the default driver) returns no rank at
    all; and [lstsq] on its implemented driver, given no cutoff, returns
    the rank the kernel reports (here 2) for an invocation with [cond =
    None]. *)
Lemma pinv_has_no_default_cutoff :
  spec_effective_rank default_cutoff_double [3; 0x1p-40]%float = 1 /\
  (exists B st',
     pinv2 (sample_lapack 0 2) sample_numpy (PyArray m22) None None true true sample_store
     = (Return (B, Some 1), st')) /\
  ~ (exists B st',
       pinv (sample_lapack 0 2) sample_numpy (PyArray m22) None None true true sample_store
       = (Return (B, Some 1%Z), st')) /\
  fst (pinv (sample_lapack 0 2) sample_numpy (PyArray m22) None None true true sample_store)
  = Raise (UnboundLocalError "x") /\
  (exists x resids s ka kb lw st',
     lstsq (sample_lapack 0 2) sample_numpy (PyArray m22)
           (PySeq (Sh2 2 2) float64 [Re 1; Re 0; Re 0; Re 1]) None false false false
           "gelss" sample_store
     = (Return (x, resids, 2%Z, s), st') /\
     last (log st') = Some (Invoke (gelss ka kb None lw))).
Proof.
  split; [reflexivity|].
  split; [eexists _, _; vm_compute; reflexivity|].
  split; [intros (B & st' & H); vm_compute in H; discriminate|].
  split; [reflexivity|].
  eexists _, _, _, _, _, _, _. split; vm_compute; reflexivity.
Qed.


(** * Further properties *)

(** ** What a call may write *)

Lemma validated_guard o cf st a1 st1 flag i :
  _asarray_validated o cf st = (Return a1, st1) ->
  i < length (mem st) ->
  donated o flag i = false ->
  flag || _datacopied a1 o = true -> buf a1 <> i.
Proof.
  intros H Hi D P. pose proof (validated_spec o cf st) as V. rewrite H in V.
  destruct V as [_ [[-> _]|(s & t & d & -> & -> & _)]].
  - cbn in D, P. rewrite Nat.eqb_refl in P. cbn in P. rewrite orb_false_r in P.
    rewrite P in D. cbn in D. apply Nat.eqb_neq. exact D.
  - cbn. lia.
Qed.

Lemma whole_guard (a1 : ndarray) (p : bool) d i :
  (p = true -> buf a1 <> i) ->
  k_ow (mk_karg (mk_aval d (shp a1) (dty a1) (Some (buf a1, 0))) p) = true ->
  forall off, a_mem (k_val (mk_karg (mk_aval d (shp a1) (dty a1) (Some (buf a1, 0))) p))
              <> Some (i, off).
Proof. cbn. intros H P off E. injection E as E _. apply (H P E). Qed.

(** The copy test of a validated array against the object it came from. *)
Lemma datacopied_validated o cf st a1 st1 :
  _asarray_validated o cf st = (Return a1, st1) ->
  _datacopied a1 o = match o with PyArray _ => false | _ => true end.
Proof.
  intros H. pose proof (validated_spec o cf st) as V. rewrite H in V.
  destruct V as [_ [[-> _]|(s & t & d & -> & -> & _)]]; [|reflexivity].
  cbn. rewrite Nat.eqb_refl. reflexivity.
Qed.

(** ** Shape requirements *)

Lemma validated_fails_early {A} o cf st e st1 (k : ndarray -> py A) :
  _asarray_validated o cf st = (Raise e, st1) ->
  exists e' st', bind (_asarray_validated o cf) k st = (Raise e', st') /\
                 is_value_error e' = true /\ log st' = log st.
Proof.
  intros H. run_with H. destruct (validated_raise _ _ _ _ _ H) as [V L].
  exists e, st1. auto.
Qed.

(** Two validations followed by a shape check that fails. *)
Lemma rejected_after_validation {A} (a b : pyobj) cf st (k : ndarray -> ndarray -> py A) :
  (forall a1 st1 b1 st2,
     _asarray_validated a cf st = (Return a1, st1) ->
     _asarray_validated b cf st1 = (Return b1, st2) ->
     exists e, k a1 b1 st2 = (Raise e, st2) /\ is_value_error e = true) ->
  exists e st',
    (do a1 <- _asarray_validated a cf; do b1 <- _asarray_validated b cf; k a1 b1) st
    = (Raise e, st') /\
    is_value_error e = true /\ log st' = log st.
Proof.
  intros Hk.
  destruct (_asarray_validated a cf st) as [[a1|e] st1] eqn:Ha;
    [|eapply validated_fails_early; eauto].
  run_with Ha. pose proof (validated_log _ _ _ _ _ Ha) as La.
  destruct (_asarray_validated b cf st1) as [[b1|e] st2] eqn:Hb.
  - run_with Hb. destruct (Hk a1 st1 b1 st2 eq_refl Hb) as (e & E & V).
    exists e, st2. split; [exact E|]. split; [exact V|].
    rewrite (validated_log _ _ _ _ _ Hb). exact La.
  - destruct (validated_fails_early b cf st1 e st2 (k a1) Hb) as (e' & st' & E & V & L).
    exists e', st'. split; [exact E|]. split; [exact V|]. congruence.
Qed.

(** X1.  A matrix argument that is not square (not two-dimensional, or with
    different row and column counts) is rejected by [solve],
    [solve_triangular], [inv] and [det] alike: whatever the other arguments,
    the call ends in a ValueError (the shape error, or the validation error of
    an argument that fails validation first) and no kernel is looked up or
    invoked: the log is as it was. *)
Theorem nonsquare_rejected (lapack : kernel_lib) (trtrs : trtrs_call -> kreply)
    (fdet : karg -> det_reply) (a b : pyobj) (trans : trans_arg)
    (sym_pos lower unit_diagonal ow_a ow_b cf : bool) (st : state) (s : shape) :
  obj_shape a = Some s ->
  is_square s = false ->
  (exists e st', solve lapack a b sym_pos lower ow_a ow_b cf st = (Raise e, st') /\
                 is_value_error e = true /\ log st' = log st) /\
  (exists e st', solve_triangular trtrs a b trans lower unit_diagonal ow_b cf st = (Raise e, st') /\
                 is_value_error e = true /\ log st' = log st) /\
  (exists e st', inv lapack a ow_a cf st = (Raise e, st') /\
                 is_value_error e = true /\ log st' = log st) /\
  (exists e st', det fdet a ow_a cf st = (Raise e, st') /\
                 is_value_error e = true /\ log st' = log st).
Proof.
  intros Hs Hsq.
  assert (Sq : forall a1 st1, _asarray_validated a cf st = (Return a1, st1) ->
                              is_square (shp a1) = false).
  { intros a1 st1 Ha. pose proof (validated_shape _ _ _ _ _ Ha) as E.
    rewrite Hs in E. injection E as <-. exact Hsq. }
  destruct (_asarray_validated a cf st) as [[a1|e] st1] eqn:Ha.
  2:{ unfold solve, solve_triangular, inv, det.
      repeat split; eapply validated_fails_early; eauto. }
  pose proof (validated_log _ _ _ _ _ Ha) as La.
  specialize (Sq a1 st1 eq_refl).
  assert (Two : forall (k : ndarray -> py aval),
            (forall b1 st2, k b1 st2 = (Raise (ValueError "expected square matrix" []), st2)) ->
            exists e st', bind (_asarray_validated b cf) k st1 = (Raise e, st') /\
                          is_value_error e = true /\ log st' = log st).
  { intros k Hk.
    destruct (_asarray_validated b cf st1) as [[b1|e] st2] eqn:Hb.
    - run_with Hb. rewrite Hk. eexists _, _. split; [reflexivity|].
      split; [reflexivity|]. rewrite (validated_log _ _ _ _ _ Hb). exact La.
    - destruct (validated_fails_early b cf st1 e st2 k Hb) as (e' & st' & E & V & L).
      exists e', st'. split; [exact E|]. split; [exact V|]. congruence. }
  repeat split.
  - unfold solve. run_with Ha. apply Two. intros b1 st2. rewrite Sq. reflexivity.
  - unfold solve_triangular. run_with Ha. apply Two. intros b1 st2. rewrite Sq. reflexivity.
  - unfold inv. run_with Ha. rewrite Sq. eexists _, _. split; [reflexivity|]. auto.
  - unfold det. run_with Ha. rewrite Sq. eexists _, _. split; [reflexivity|]. auto.
Qed.

(** X1 on a sample: [inv] of a vector. *)
Lemma nonsquare_rejected_witness :
  exists e st',
    inv scribbling_lapack (PyArray v2) true true sample_store = (Raise e, st') /\
    is_value_error e = true /\ log st' = log sample_store.
Proof.
  exact (proj1 (proj2 (proj2 (nonsquare_rejected scribbling_lapack
           (fun _ => mk_kreply [] [] [] [] 0 (Re 0) 0)
           (fun _ => mk_det_reply [] (Re 0) 0)
           (PyArray v2) (PyArray v2) (TransInt 0) false false false true true true
           sample_store (Sh1 2) eq_refl eq_refl)))).
Defined.

(** X2.  [solve], [solve_triangular] and [lstsq] reject a right-hand side
    whose number of rows differs from the number of rows of the matrix: the
    call ends in a ValueError before any kernel is looked up.  For [lstsq]
    this holds for every driver name, known or not: the shape checks come
    before the check of the driver. *)
Theorem row_mismatch_rejected (lapack : kernel_lib) (np : numpy_lib)
    (trtrs : trtrs_call -> kreply) (a b : pyobj) (trans : trans_arg) (cond : option float)
    (sym_pos lower unit_diagonal ow_a ow_b cf : bool) (driver : string) (st : state)
    (m n bm : nat) (sb : shape) :
  obj_shape a = Some (Sh2 m n) ->
  obj_shape b = Some sb ->
  dim0 sb = Some bm ->
  bm <> m ->
  (exists e st', solve lapack a b sym_pos lower ow_a ow_b cf st = (Raise e, st') /\
                 is_value_error e = true /\ log st' = log st) /\
  (exists e st', solve_triangular trtrs a b trans lower unit_diagonal ow_b cf st = (Raise e, st') /\
                 is_value_error e = true /\ log st' = log st) /\
  (exists e st', lstsq lapack np a b cond ow_a ow_b cf driver st = (Raise e, st') /\
                 is_value_error e = true /\ log st' = log st).
Proof.
  intros Sa Sb Hb0 Hne.
  assert (Hn : (m =? bm) = false) by (apply Nat.eqb_neq; congruence).
  repeat split; apply rejected_after_validation; intros a1 st1 b1 st2 Ha Hb;
    pose proof (validated_shape _ _ _ _ _ Ha) as Ea; rewrite Sa in Ea; injection Ea as Ea;
    pose proof (validated_shape _ _ _ _ _ Hb) as Eb; rewrite Sb in Eb; injection Eb as Eb;
    rewrite <- Ea, <- Eb; cbn [is_square dim0].
  - destruct (m =? n); cbn [negb]; [|eexists; split; reflexivity].
    unfold bind at 1. cbn [index ret]. rewrite Hb0.
    unfold bind at 1. cbn [index ret]. rewrite Hn. eexists; split; reflexivity.
  - destruct (m =? n); cbn [negb]; [|eexists; split; reflexivity].
    unfold bind at 1. cbn [index ret]. rewrite Hb0.
    unfold bind at 1. cbn [index ret]. rewrite Hn. eexists; split; reflexivity.
  - rewrite Hb0. unfold bind at 1. cbn [index ret]. rewrite Hn. eexists; split; reflexivity.
Qed.

(** X2 on a sample: [lstsq] of a 2 by 2 matrix and a vector of 3, with a
    driver that does not exist. *)
Lemma row_mismatch_rejected_witness :
  exists e st',
    lstsq scribbling_lapack sample_numpy (PyArray m22) (PyArray v3) None false false true
          "no such driver" sample_store = (Raise e, st') /\
    is_value_error e = true /\ log st' = log sample_store.
Proof.
  exact (proj2 (proj2 (row_mismatch_rejected scribbling_lapack sample_numpy
           (fun _ => mk_kreply [] [] [] [] 0 (Re 0) 0)
           (PyArray m22) (PyArray v3) (TransInt 0) None false false false false false true
           "no such driver" sample_store 2 2 3 (Sh1 3) eq_refl eq_refl eq_refl
           ltac:(discriminate)))).
Defined.

(** X3.  [solve_banded] and [solveh_banded] reject an [ab] whose number of
    columns ([ab.shape[-1]]) differs from the number of rows of [b]: the call
    ends in a ValueError before any kernel is looked up, whatever [(l, u)],
    the flags and the form. *)
Theorem banded_shape_mismatch_rejected (lapack : kernel_lib) (l u : Z) (ab b : pyobj)
    (ow_ab ow_b lower cf : bool) (st : state) (sa sb : shape) (am bm : nat) :
  obj_shape ab = Some sa ->
  obj_shape b = Some sb ->
  dim_last sa = Some am ->
  dim0 sb = Some bm ->
  am <> bm ->
  (exists e st', solve_banded lapack (l, u) ab b ow_ab ow_b cf st = (Raise e, st') /\
                 is_value_error e = true /\ log st' = log st) /\
  (exists e st', solveh_banded lapack ab b ow_ab ow_b lower cf st = (Raise e, st') /\
                 is_value_error e = true /\ log st' = log st).
Proof.
  intros Sa Sb Ha0 Hb0 Hne.
  assert (Hn : (am =? bm) = false) by (apply Nat.eqb_neq; congruence).
  split; apply rejected_after_validation; intros a1 st1 b1 st2 Ha Hb;
    pose proof (validated_shape _ _ _ _ _ Ha) as Ea; rewrite Sa in Ea; injection Ea as Ea;
    pose proof (validated_shape _ _ _ _ _ Hb) as Eb; rewrite Sb in Eb; injection Eb as Eb;
    rewrite <- Ea, <- Eb, Ha0; unfold bind at 1; cbn [index ret]; rewrite Hb0;
    unfold bind at 1; cbn [index ret]; rewrite Hn; eexists; split; reflexivity.
Qed.

(** X3 on a sample: [solveh_banded] of a band of 2 columns and a vector of 3.
    *)
Lemma banded_shape_mismatch_rejected_witness :
  exists e st',
    solveh_banded scribbling_lapack (PyArray herm_ab) (PyArray v3) false false true true
      (mk_state [[Cx 2 0; Cx 3 0; Cx 1 2; Cx 0 0]; [Re 1; Re 2]; [Re 1]; [Re 1; Re 2; Re 3]] [])
    = (Raise e, st') /\
    is_value_error e = true /\
    log st' = [].
Proof.
  exact (proj2 (banded_shape_mismatch_rejected scribbling_lapack 0 0 (PyArray herm_ab)
                  (PyArray v3) false false true true
                  (mk_state [[Cx 2 0; Cx 3 0; Cx 1 2; Cx 0 0]; [Re 1; Re 2]; [Re 1];
                             [Re 1; Re 2; Re 3]] [])
                  (Sh2 2 2) (Sh1 3) 2 3 eq_refl eq_refl eq_refl eq_refl ltac:(discriminate))).
Defined.

(** ** General systems: what [solve] may write *)

(** X4.  [solve] writes only where the caller allowed it: a buffer that
    existed before the call is left as it was unless it belongs to an ndarray
    passed as [a] with [overwrite_a] set or as [b] with [overwrite_b] set.
    This holds on every path, errors included, and for every kernel behaviour;
    an argument given as a list is copied and the kernel works on the copy. *)
Theorem solve_frame (lapack : kernel_lib) (a b : pyobj)
    (sym_pos lower ow_a ow_b cf : bool) (st : state) (i : nat) :
  i < length (mem st) ->
  donated a ow_a i = false ->
  donated b ow_b i = false ->
  mem (snd (solve lapack a b sym_pos lower ow_a ow_b cf st)) !! i = mem st !! i.
Proof.
  intros Hi Da Db. unfold solve.
  destruct (_asarray_validated a cf st) as [[a1|e] st1] eqn:Ha; run_with Ha;
    destruct (validated_mem _ _ _ _ _ Ha) as [xa Ma];
    [|cbn [snd]; eapply mem_prefix_lookup; eauto].
  destruct (_asarray_validated b cf st1) as [[b1|e] st2] eqn:Hb; run_with Hb;
    destruct (validated_mem _ _ _ _ _ Hb) as [xb Mb];
    assert (M2 : mem st2 = mem st ++ (xa ++ xb)) by (rewrite Mb, Ma, app_assoc; reflexivity);
    [|cbn [snd]; eapply mem_prefix_lookup; eauto].
  assert (Hi1 : i < length (mem st1)) by (rewrite Ma, length_app; lia).
  pose proof (validated_guard _ _ _ _ _ ow_a i Ha Hi Da) as Ga.
  pose proof (validated_guard _ _ _ _ _ ow_b i Hb Hi1 Db) as Gb.
  assert (P : mem st2 !! i = mem st !! i) by (eapply mem_prefix_lookup; eauto).
  destruct (is_square (shp a1)); cbn [negb]; [|exact P].
  destruct (dim0 (shp a1)) as [m|]; unfold bind at 1; cbn [index ret raise]; [|exact P].
  destruct (dim0 (shp b1)) as [bm|]; unfold bind at 1; cbn [index ret raise]; [|exact P].
  destruct (m =? bm); cbn [negb]; [|exact P].
  unfold bind at 1 2. cbn [whole bind contents ret].
  assert (G : Forall (fun k => k_ow k = true -> forall off, a_mem (k_val k) <> Some (i, off))
                [mk_karg (mk_aval (default [] (mem st2 !! buf a1)) (shp a1) (dty a1)
                            (Some (buf a1, 0))) (ow_a || _datacopied a1 a);
                 mk_karg (mk_aval (default [] (mem st2 !! buf b1)) (shp b1) (dty b1)
                            (Some (buf b1, 0))) (ow_b || _datacopied b1 b)]).
  { repeat constructor; apply whole_guard; assumption. }
  destruct sym_pos; unfold bind; cbn [get_lapack_funcs bind emit ret invoke kargs];
    set (r := lapack _);
    (destruct (r_info r =? 0)%Z; [|destruct (0 <? r_info r)%Z]);
    cbn [snd mem ret raise]; rewrite write_back_other by exact G; exact P.
Qed.

(** X4 on a sample: [overwrite_b] alone is set and the kernel writes wherever
    it may; the matrix is as it was, the right-hand side is not. *)
Lemma solve_frame_witness :
  mem (snd (solve scribbling_lapack (PyArray m22) (PyArray v2) false false false true true
              sample_store)) !! 0
  = mem sample_store !! 0
  /\ mem (snd (solve scribbling_lapack (PyArray m22) (PyArray v2) false false false true true
                 sample_store)) !! 1
     = Some [Re 7; Re 7].
Proof.
  split.
  - apply (solve_frame scribbling_lapack (PyArray m22) (PyArray v2) false false false true true
             sample_store 0); [cbn; lia | reflexivity | reflexivity].
  - reflexivity.
Defined.

(** ** Triangular systems: [solve_triangular] *)

Lemma solve_triangular_run (trtrs : trtrs_call -> kreply) (a b : pyobj) (trans : trans_arg)
    (lower unit ow_b cf : bool) (st : state) a1 b1 st1 st2 m :
  _asarray_validated a cf st = (Return a1, st1) ->
  _asarray_validated b cf st1 = (Return b1, st2) ->
  shp a1 = Sh2 m m ->
  dim0 (shp b1) = Some m ->
  let c := mk_trtrs (mk_karg (view_of st2 a1) false)
                    (mk_karg (view_of st2 b1) (ow_b || _datacopied b1 b))
                    lower (trans_get trans) unit in
  let r := trtrs c in
  solve_triangular trtrs a b trans lower unit ow_b cf st =
    ((if (r_info r =? 0)%Z
      then Return (out_arg r 1 (tr_b c) (common_type (dty a1) (common_type (dty b1) float32)))
      else if (0 <? r_info r)%Z
      then Raise (LinAlgError "singular matrix: resolution failed at diagonal %s"
                              [(r_info r - 1)%Z])
      else Raise (ValueError "illegal value in %d-th argument of internal trtrs"
                             [(- r_info r)%Z])),
     mk_state (write_back [tr_a c; tr_b c] (r_args r) (mem st2))
              (log st2 ++ [Lookup ["trtrs"]])).
Proof.
  intros Ha Hb Hsq Hb0 c r.
  unfold solve_triangular.
  run_with Ha. run_with Hb.
  rewrite Hsq. cbn [is_square]. rewrite Nat.eqb_refl. cbn [negb].
  unfold bind at 1. cbn [index dim0 ret].
  rewrite Hb0. unfold bind at 1. cbn [index ret]. rewrite Nat.eqb_refl. cbn [negb].
  subst r c. unfold bind; cbn;
    destruct (r_info _ =? 0)%Z; try reflexivity;
    destruct (0 <? r_info _)%Z; reflexivity.
Qed.

(** X5.  [solve_triangular] on a square [a] and a [b] with as many rows: the
    kernel [trtrs] is looked up and applied once, to [a] without overwrite
    permission and to [b] with the permission [overwrite_b or _datacopied(b1,
    b)], with [lower], [unit_diagonal] and the code of [trans], where the
    letters 'N', 'T', 'C' stand for 0, 1, 2 and an integer is passed as it is.
    Status 0 returns what the kernel left in place of [b], with the shape of
    [b]; a positive status raises LinAlgError reporting the diagonal index
    [info - 1]; a negative one raises ValueError reporting [-info]. *)
Theorem solve_triangular_dispatch (trtrs : trtrs_call -> kreply) (a b : pyobj)
    (trans : trans_arg) (lower unit ow_b cf : bool) (st : state) a1 b1 st1 st2 m :
  _asarray_validated a cf st = (Return a1, st1) ->
  _asarray_validated b cf st1 = (Return b1, st2) ->
  shp a1 = Sh2 m m ->
  dim0 (shp b1) = Some m ->
  let c := mk_trtrs (mk_karg (view_of st2 a1) false)
                    (mk_karg (view_of st2 b1) (ow_b || _datacopied b1 b))
                    lower (trans_get trans) unit in
  let info := r_info (trtrs c) in
  let res := solve_triangular trtrs a b trans lower unit ow_b cf st in
  log (snd res) = log st ++ [Lookup ["trtrs"]] /\
  ((info = 0)%Z ->
     exists x, fst res = Return x /\
               a_data x = default [] (r_args (trtrs c) !! 1) /\
               a_shape x = shp b1) /\
  ((0 < info)%Z ->
     fst res = Raise (LinAlgError "singular matrix: resolution failed at diagonal %s"
                                  [(info - 1)%Z])) /\
  ((info < 0)%Z ->
     fst res = Raise (ValueError "illegal value in %d-th argument of internal trtrs"
                                 [(- info)%Z])) /\
  (trans = TransStr "N" -> tr_trans c = TransInt 0) /\
  (trans = TransStr "T" -> tr_trans c = TransInt 1) /\
  (trans = TransStr "C" -> tr_trans c = TransInt 2) /\
  (forall z, trans = TransInt z -> tr_trans c = TransInt z).
Proof.
  intros Ha Hb Hsq Hb0 c info res.
  pose proof (validated_log _ _ _ _ _ Ha) as La.
  pose proof (validated_log _ _ _ _ _ Hb) as Lb.
  subst res.
  rewrite (solve_triangular_run trtrs a b trans lower unit ow_b cf st a1 b1 st1 st2 m
             Ha Hb Hsq Hb0).
  fold c. fold info. cbn [fst snd log].
  split; [congruence|].
  split; [|split; [|split]].
  - intros E. rewrite E. cbn. eexists. split; [reflexivity|]. split; reflexivity.
  - intros H. by_status info; first [reflexivity | lia].
  - intros H. by_status info; first [reflexivity | lia].
  - repeat split; intros; subst trans; reflexivity.
Qed.

(** X5 on a sample: [trans='T'] and a kernel that reports status 2. *)
Lemma solve_triangular_dispatch_witness :
  fst (solve_triangular (scribbling_trtrs 2) (PyArray m22) (PyArray v2) (TransStr "T")
         true false false true sample_store)
  = Raise (LinAlgError "singular matrix: resolution failed at diagonal %s" [1%Z]).
Proof.
  destruct (solve_triangular_dispatch (scribbling_trtrs 2) (PyArray m22) (PyArray v2)
              (TransStr "T") true false false true sample_store m22 v2 sample_store
              sample_store 2 eq_refl eq_refl eq_refl eq_refl)
    as (_ & _ & Hpos & _).
  apply Hpos. reflexivity.
Defined.

(** X6.  [solve_triangular] has no [overwrite_a] and never writes the matrix:
    a buffer that existed before the call is left as it was unless it belongs
    to an ndarray passed as [b] with [overwrite_b] set, on every path. *)
Theorem solve_triangular_frame (trtrs : trtrs_call -> kreply) (a b : pyobj)
    (trans : trans_arg) (lower unit ow_b cf : bool) (st : state) (i : nat) :
  i < length (mem st) ->
  donated b ow_b i = false ->
  mem (snd (solve_triangular trtrs a b trans lower unit ow_b cf st)) !! i = mem st !! i.
Proof.
  intros Hi Db. unfold solve_triangular.
  destruct (_asarray_validated a cf st) as [[a1|e] st1] eqn:Ha; run_with Ha;
    destruct (validated_mem _ _ _ _ _ Ha) as [xa Ma];
    [|cbn [snd]; eapply mem_prefix_lookup; eauto].
  destruct (_asarray_validated b cf st1) as [[b1|e] st2] eqn:Hb; run_with Hb;
    destruct (validated_mem _ _ _ _ _ Hb) as [xb Mb];
    assert (M2 : mem st2 = mem st ++ (xa ++ xb)) by (rewrite Mb, Ma, app_assoc; reflexivity);
    [|cbn [snd]; eapply mem_prefix_lookup; eauto].
  assert (Hi1 : i < length (mem st1)) by (rewrite Ma, length_app; lia).
  pose proof (validated_guard _ _ _ _ _ ow_b i Hb Hi1 Db) as Gb.
  assert (P : mem st2 !! i = mem st !! i) by (eapply mem_prefix_lookup; eauto).
  destruct (is_square (shp a1)); cbn [negb]; [|exact P].
  destruct (dim0 (shp a1)) as [m|]; unfold bind at 1; cbn [index ret raise]; [|exact P].
  destruct (dim0 (shp b1)) as [bm|]; unfold bind at 1; cbn [index ret raise]; [|exact P].
  destruct (m =? bm); cbn [negb]; [|exact P].
  unfold bind. cbn [get_lapack_funcs bind emit whole contents ret run_kernel tr_a tr_b].
  set (r := trtrs _).
  (destruct (r_info r =? 0)%Z; [|destruct (0 <? r_info r)%Z]);
    cbn [snd mem ret raise];
    (rewrite write_back_other;
     [exact P | repeat constructor; [discriminate | apply whole_guard; assumption]]).
Qed.

(** X6 on a sample: [overwrite_b] is set and the kernel writes wherever it
    may; the matrix is as it was. *)
Lemma solve_triangular_frame_witness :
  mem (snd (solve_triangular (scribbling_trtrs 0) (PyArray m22) (PyArray v2) (TransInt 0)
              false false true true sample_store)) !! 0
  = mem sample_store !! 0.
Proof.
  apply (solve_triangular_frame (scribbling_trtrs 0) (PyArray m22) (PyArray v2) (TransInt 0)
           false false true true sample_store 0); [cbn; lia | reflexivity].
Defined.

(** ** Banded systems: [solve_banded] *)

(** X7.  [solve_banded] with [l + u + 1] different from the number of rows of
    [ab] (the shapes of [ab] and [b] being compatible): for an ndarray [ab]
    the call raises the ValueError that carries [l + u + 1] and the row count;
    for an [ab] that is not an ndarray (a list of lists) it raises
    AttributeError instead, because the message reads [ab.shape] off the
    caller's object and not off the validated array.  No kernel is looked up.
    *)
Theorem solve_banded_band_count (lapack : kernel_lib) (l u : Z) (ab b : pyobj)
    (ow_ab ow_b cf : bool) (st : state) a1 st1 b1 st2 r c :
  _asarray_validated ab cf st = (Return a1, st1) ->
  _asarray_validated b cf st1 = (Return b1, st2) ->
  dim0 (shp a1) = Some r ->
  dim_last (shp a1) = Some c ->
  dim0 (shp b1) = Some c ->
  (l + u + 1)%Z <> Z.of_nat r ->
  solve_banded lapack (l, u) ab b ow_ab ow_b cf st
  = (Raise (match ab with
            | PyArray _ =>
                ValueError "invalid values for the number of lower and upper diagonals: l+u+1 (%d) does not equal ab.shape[0] (%d)"
                           [(l + u + 1)%Z; Z.of_nat r]
            | _ => AttributeError "shape"
            end), st2)
  /\ log st2 = log st.
Proof.
  intros Ha Hb Hr Hc Hb0 Hne.
  split; [|rewrite (validated_log _ _ _ _ _ Hb); apply (validated_log _ _ _ _ _ Ha)].
  unfold solve_banded. run_with Ha. run_with Hb.
  rewrite Hc. unfold bind at 1. cbn [index ret]. rewrite Hb0.
  unfold bind at 1. cbn [index ret]. rewrite Nat.eqb_refl. cbn [negb].
  rewrite Hr. unfold bind at 1. cbn [index ret].
  destruct (Z.eqb_spec (l + u + 1) (Z.of_nat r)) as [E|_]; [contradiction|]. cbn [negb].
  pose proof (validated_spec ab cf st) as V. rewrite Ha in V.
  destruct V as [_ [[-> _]|(s & t & d & -> & _ & _)]]; cbn [attr_shape].
  - unfold bind at 1. cbn [ret]. rewrite Hr. reflexivity.
  - reflexivity.
Qed.

(** X7 on samples: a list [ab] of 2 rows with [(l, u) = (1, 1)], and an
    ndarray [ab] of 3 rows with [(l, u) = (2, 2)]. *)
Lemma solve_banded_band_count_witness :
  fst (solve_banded scribbling_lapack (1, 1)%Z
         (PySeq (Sh2 2 3) float64 [Re 1; Re 1; Re 1; Re 1; Re 1; Re 1]) tri_b
         false false true (mk_state [] []))
  = Raise (AttributeError "shape")
  /\ fst (solve_banded scribbling_lapack (2, 2)%Z (PyArray tri_ab) (PyArray tri_rhs)
            false false true tri_rhs_store)
     = Raise (ValueError "invalid values for the number of lower and upper diagonals: l+u+1 (%d) does not equal ab.shape[0] (%d)"
                         [5%Z; 3%Z]).
Proof.
  split.
  - rewrite (proj1 (solve_banded_band_count scribbling_lapack 1 1
                      (PySeq (Sh2 2 3) float64 [Re 1; Re 1; Re 1; Re 1; Re 1; Re 1]) tri_b
                      false false true (mk_state [] []) _ _ _ _ 2 3
                      eq_refl eq_refl eq_refl eq_refl eq_refl ltac:(discriminate))).
    reflexivity.
  - rewrite (proj1 (solve_banded_band_count scribbling_lapack 2 2
                      (PyArray tri_ab) (PyArray tri_rhs)
                      false false true tri_rhs_store _ _ _ _ 3 3
                      eq_refl eq_refl eq_refl eq_refl eq_refl ltac:(discriminate))).
    reflexivity.
Defined.

Lemma solve_banded_tridiagonal_run (lapack : kernel_lib) (ab b : pyobj)
    (ow_ab ow_b cf : bool) (st : state) a1 st1 b1 st2 c :
  _asarray_validated ab cf st = (Return a1, st1) ->
  _asarray_validated b cf st1 = (Return b1, st2) ->
  shp a1 = Sh2 3 c ->
  dim0 (shp b1) = Some c ->
  let A := default [] (mem st2 !! buf a1) in
  let p := ow_ab || _datacopied b1 b in
  let du := mk_aval (peek (Nat.min 1 c) (c - 1) A) (Sh1 (c - 1)) (dty a1)
                    (Some (buf a1, Nat.min 1 c)) in
  let d := mk_aval (peek c c A) (Sh1 c) (dty a1) (Some (buf a1, c)) in
  let dl := mk_aval (peek (2 * c) (c - 1) A) (Sh1 (c - 1)) (dty a1) (Some (buf a1, 2 * c)) in
  let kb := mk_karg (caller_view st2 b) (ow_b || _datacopied b1 b) in
  let call := gtsv (mk_karg dl p) (mk_karg d p) (mk_karg du p) kb in
  let rp := lapack call in
  solve_banded lapack (1, 1)%Z ab b ow_ab ow_b cf st =
    ((if (r_info rp =? 0)%Z
      then Return (out_arg rp 3 kb (common_type (dty a1) (common_type (dty b1) float32)))
      else if (0 <? r_info rp)%Z then Raise (LinAlgError "singular matrix" [])
      else Raise (ValueError "illegal value in %d-th argument of internal gbsv/gtsv"
                             [(- r_info rp)%Z])),
     mk_state (write_back (kargs call) (r_args rp) (mem st2))
              ((log st2 ++ [Lookup ["gtsv"]]) ++ [Invoke call])).
Proof.
  intros Ha Hb Hs Hb0 A p du d dl kb call rp.
  unfold solve_banded.
  run_with Ha. run_with Hb. rewrite Hs.
  unfold bind at 1. cbn [index dim_last ret]. rewrite Hb0.
  unfold bind at 1. cbn [index ret]. rewrite Nat.eqb_refl. cbn [negb].
  unfold bind at 1. cbn [index dim0 ret].
  change (1 + 1 + 1 =? Z.of_nat 3)%Z with true.
  change ((1 =? 1)%Z && (1 =? 1)%Z) with true. cbn [negb].
  unfold row_slice. rewrite Hs.
  subst rp call kb dl d du p A.
  destruct b as [|o|s t dd].
  - exfalso. pose proof (validated_spec PyNone cf st1) as V. rewrite Hb in V.
    destruct V as [_ [[E _]|(s & t & d & E & _)]]; discriminate.
  - cbv beta iota zeta delta [bind ret whole contents invoke Nat.ltb Nat.leb
                               get_lapack_funcs emit as_kernel_arg caller_view view_of].
    cbn [mem log fold_right].
    repeat (rewrite ?Nat.mul_0_l, ?Nat.mul_1_l, ?Nat.add_0_l, ?Nat.add_0_r, ?Nat.sub_0_r,
              ?Nat.min_0_l).
    set (rp := lapack _).
    destruct (r_info rp =? 0)%Z; [|destruct (0 <? r_info rp)%Z]; reflexivity.
  - cbv beta iota zeta delta [bind ret whole contents invoke Nat.ltb Nat.leb
                               get_lapack_funcs emit as_kernel_arg caller_view view_of].
    cbn [mem log fold_right].
    repeat (rewrite ?Nat.mul_0_l, ?Nat.mul_1_l, ?Nat.add_0_l, ?Nat.add_0_r, ?Nat.sub_0_r,
              ?Nat.min_0_l).
    set (rp := lapack _).
    destruct (r_info rp =? 0)%Z; [|destruct (0 <? r_info rp)%Z]; reflexivity.
Qed.

Lemma peek_lookup (off n j : nat) (A : list scalar) :
  j < n -> peek off n A !! j = A !! (off + j).
Proof. intros H. unfold peek. rewrite lookup_take_lt by exact H. apply lookup_drop. Qed.

Lemma entry_lookup (A : list scalar) (k i j : nat) :
  i * k + j < length A -> A !! (i * k + j) = Some (entry A k i j).
Proof.
  intros H. unfold entry. destruct (lookup_lt_is_Some_2 A _ H) as [z E]. rewrite E. reflexivity.
Qed.

(** X8.  The tridiagonal path of [solve_banded] ([l = u = 1], [ab] of 3 rows
    and [c] columns): the one kernel looked up and invoked is [gtsv], and its
    diagonals are read off the diagonal ordered form [ab[u + i - j, j] = a[i,
    j]]: the main diagonal is row 1, the super-diagonal is row 0 from its
    second entry ([du[j] = ab[0, j+1]]) and the sub-diagonal is row 2 without
    its last entry ([dl[j] = ab[2, j]]); the right-hand side handed over is
    the caller's own [b], not the validated array.  Status 0 returns what the
    kernel left in place of [b], a positive status raises LinAlgError and a
    negative one ValueError with [-info]. *)
Theorem solve_banded_tridiagonal_diagonals (lapack : kernel_lib) (ab b : pyobj)
    (ow_ab ow_b cf : bool) (st : state) a1 st1 b1 st2 c A :
  _asarray_validated ab cf st = (Return a1, st1) ->
  _asarray_validated b cf st1 = (Return b1, st2) ->
  shp a1 = Sh2 3 c ->
  dim0 (shp b1) = Some c ->
  mem st2 !! buf a1 = Some A ->
  length A = 3 * c ->
  exists (dl d du : aval) (kb : karg),
    let call := gtsv (mk_karg dl (ow_ab || _datacopied b1 b))
                     (mk_karg d (ow_ab || _datacopied b1 b))
                     (mk_karg du (ow_ab || _datacopied b1 b)) kb in
    let info := r_info (lapack call) in
    let res := solve_banded lapack (1, 1)%Z ab b ow_ab ow_b cf st in
    log (snd res) = log st ++ [Lookup ["gtsv"]; Invoke call] /\
    k_val kb = caller_view st2 b /\
    a_shape d = Sh1 c /\ a_shape du = Sh1 (c - 1) /\ a_shape dl = Sh1 (c - 1) /\
    (forall j, j < c -> a_data d !! j = Some (entry A c 1 j)) /\
    (forall j, j + 1 < c -> a_data du !! j = Some (entry A c 0 (j + 1))) /\
    (forall j, j + 1 < c -> a_data dl !! j = Some (entry A c 2 j)) /\
    ((info = 0)%Z ->
       exists x, fst res = Return x /\ a_data x = default [] (r_args (lapack call) !! 3)) /\
    ((0 < info)%Z -> fst res = Raise (LinAlgError "singular matrix" [])) /\
    ((info < 0)%Z ->
       fst res = Raise (ValueError "illegal value in %d-th argument of internal gbsv/gtsv"
                                   [(- info)%Z])).
Proof.
  intros Ha Hb Hs Hb0 HA LA.
  pose proof (validated_log _ _ _ _ _ Ha) as La.
  pose proof (validated_log _ _ _ _ _ Hb) as Lb.
  pose proof (solve_banded_tridiagonal_run lapack ab b ow_ab ow_b cf st a1 st1 b1 st2 c
                Ha Hb Hs Hb0) as R.
  cbv zeta in R. rewrite HA in R. cbn [default from_option] in R. unfold id in R.
  match type of R with
  | context [Invoke (gtsv (mk_karg ?dl _) (mk_karg ?d _) (mk_karg ?du _) ?kb)] =>
      exists dl, d, du, kb
  end.
  cbv zeta. rewrite R. clear R.
  cbn [fst snd log k_val a_shape a_data].
  split; [rewrite Lb, La, <- app_assoc; reflexivity|].
  split; [reflexivity|].
  do 3 (split; [reflexivity|]).
  split; [|split; [|split]].
  - intros j Hj. rewrite peek_lookup by exact Hj.
    replace (c + j) with (1 * c + j) by lia. apply entry_lookup. lia.
  - intros j Hj. rewrite peek_lookup by lia.
    replace (Nat.min 1 c + j) with (0 * c + (j + 1)) by lia. apply entry_lookup. lia.
  - intros j Hj. rewrite peek_lookup by lia. apply entry_lookup. lia.
  - set (i := r_info _). split; [|split]; intros H.
    + rewrite H. cbn. eexists. split; reflexivity.
    + by_status i; first [reflexivity | lia].
    + by_status i; first [reflexivity | lia].
Qed.

(** X8 on a sample: the first entries of the main and of the super-diagonal.
    *)
Lemma solve_banded_tridiagonal_diagonals_witness :
  exists (dl d du : aval) (kb : karg),
    log (snd (solve_banded scribbling_lapack (1, 1)%Z (PyArray tri_ab) (PyArray tri_rhs)
                false false true tri_rhs_store))
    = [Lookup ["gtsv"];
       Invoke (gtsv (mk_karg dl false) (mk_karg d false) (mk_karg du false) kb)] /\
    a_data d !! 0 = Some (Re 4) /\
    a_data du !! 0 = Some (Re 1).
Proof.
  destruct (solve_banded_tridiagonal_diagonals scribbling_lapack (PyArray tri_ab)
              (PyArray tri_rhs) false false true tri_rhs_store tri_ab tri_rhs_store tri_rhs
              tri_rhs_store 3 _ eq_refl eq_refl eq_refl eq_refl eq_refl eq_refl)
    as (dl & d & du & kb & Hlog & _ & _ & _ & _ & Hd & Hdu & _).
  exists dl, d, du, kb. split; [exact Hlog|].
  split; [exact (Hd 0 ltac:(lia)) | exact (Hdu 0 ltac:(lia))].
Defined.

Lemma row_slice_spec (a : ndarray) (i start cut : nat) (st : state) :
  (exists v, row_slice a i start cut st = (Return v, st) /\
             exists off, a_mem v = Some (buf a, off)) \/
  row_slice a i start cut st = (Raise IndexError, st).
Proof.
  unfold row_slice. destruct (shp a) as [| |r c]; auto.
  destruct (i <? r); auto.
  left. unfold bind. cbn. eexists. split; [reflexivity|]. eexists. reflexivity.
Qed.

Lemma store_other (a : ndarray) off d st i :
  buf a <> i -> mem (snd (store a off d st)) !! i = mem st !! i.
Proof.
  intros H. unfold store. cbn [snd mem].
  destruct (mem st !! buf a); [|reflexivity].
  apply list_lookup_insert_ne. exact H.
Qed.

Lemma assign_rows_other (dst : ndarray) l (src : ndarray) st i :
  buf dst <> i -> mem (snd (assign_rows dst l src st)) !! i = mem st !! i.
Proof.
  intros H. unfold assign_rows.
  destruct (shp dst) as [| |R c]; try reflexivity.
  destruct (shp src) as [| |r c']; try reflexivity.
  unfold bind. cbn [contents].
  destruct ((c =? c') && (r =? _)); [apply store_other; exact H|].
  destruct ((c =? c') && (r =? 1)); [apply store_other; exact H|]. reflexivity.
Qed.

Lemma assign_rows_length (dst : ndarray) l (src : ndarray) st :
  length (mem (snd (assign_rows dst l src st))) = length (mem st).
Proof.
  assert (S : forall off d, length (mem (snd (store dst off d st))) = length (mem st)).
  { intros off d. unfold store. cbn [snd mem].
    destruct (mem st !! buf dst); [apply length_insert | reflexivity]. }
  unfold assign_rows.
  destruct (shp dst) as [| |R c]; try reflexivity.
  destruct (shp src) as [| |r c']; try reflexivity.
  unfold bind. cbn [contents].
  destruct ((c =? c') && (r =? _)); [apply S|].
  destruct ((c =? c') && (r =? 1)); [apply S|]. reflexivity.
Qed.

Lemma gbsv_block_frame (lapack : kernel_lib) (l u : Z) (a1 b1 : ndarray) (p : bool)
    (st : state) (i : nat) :
  i < length (mem st) ->
  (p = true -> buf b1 <> i) ->
  mem (snd ((do t <- get_lapack_funcs ["gbsv"] [a1; b1];
             do c <- index (dim1 (shp a1));
             let rows := (2 * l + u + 1)%Z in
             if (rows <? 0)%Z then raise (ValueError "negative dimensions are not allowed" [])
             else
             do a2 <- alloc (Sh2 (Z.to_nat rows) c) t
                        (repeat (Scalar.zero t) (Z.to_nat rows * c));
             do_ assign_rows a2 l a1;
             do va <- whole a2;
             do vb <- whole b1;
             do r <- invoke lapack (gbsv l u (mk_karg va true) (mk_karg vb p));
             ret (out_arg r 1 (mk_karg vb p) t, r_info r)) st)) !! i
  = mem st !! i.
Proof.
  intros Hi Gb.
  unfold bind at 1. cbn [get_lapack_funcs bind emit ret fold_right].
  set (t := common_type _ _).
  destruct (dim1 (shp a1)) as [c|]; unfold bind at 1; cbn [index ret raise]; [|reflexivity].
  cbv zeta. destruct (2 * l + u + 1 <? 0)%Z; [reflexivity|].
  unfold bind at 1. cbn [alloc mem log].
  set (a2 := mk_ndarray _ _ _). set (s4 := mk_state _ _).
  assert (N2 : buf a2 <> i) by (cbn; lia).
  pose proof (assign_rows_other a2 l a1 s4 i N2) as F.
  pose proof (assign_rows_length a2 l a1 s4) as L.
  assert (P4 : mem s4 !! i = mem st !! i).
  { subst s4. cbn [mem]. apply lookup_app_l. exact Hi. }
  destruct (assign_rows a2 l a1 s4) as [[[]|e] s5] eqn:Ea; run_with Ea; cbn [snd] in F, L |- *;
    [|congruence].
  unfold bind. cbn [whole bind contents ret invoke snd mem kargs].
  rewrite write_back_other; [congruence|].
  repeat constructor; cbn [k_val k_ow a_mem].
  - intros _ off Eq. injection Eq as Eq _. exact (N2 Eq).
  - intros Hp off Eq. injection Eq as Eq _. exact (Gb Hp Eq).
Qed.

(** X9.  What [solve_banded] may write, on every path: a buffer that existed
    before the call is left as it was unless it belongs to an ndarray [b]
    passed with [overwrite_b] set or, on the tridiagonal path only, to an
    ndarray [ab] passed with [overwrite_ab] set or together with a [b] that is
    not an ndarray.  Off the tridiagonal path [ab] is never written. *)
Theorem solve_banded_frame (lapack : kernel_lib) (l u : Z) (ab b : pyobj)
    (ow_ab ow_b cf : bool) (st : state) (i : nat) :
  i < length (mem st) ->
  donated b ow_b i = false ->
  (l = 1%Z /\ u = 1%Z ->
   donated ab (ow_ab || match b with PyArray _ => false | _ => true end) i = false) ->
  mem (snd (solve_banded lapack (l, u) ab b ow_ab ow_b cf st)) !! i = mem st !! i.
Proof.
  intros Hi Db Dab. unfold solve_banded.
  destruct (_asarray_validated ab cf st) as [[a1|e] st1] eqn:Ha; run_with Ha;
    destruct (validated_mem _ _ _ _ _ Ha) as [xa Ma];
    [|cbn [snd]; eapply mem_prefix_lookup; eauto].
  destruct (_asarray_validated b cf st1) as [[b1|e] st2] eqn:Hb; run_with Hb;
    destruct (validated_mem _ _ _ _ _ Hb) as [xb Mb];
    assert (M2 : mem st2 = mem st ++ (xa ++ xb)) by (rewrite Mb, Ma, app_assoc; reflexivity);
    [|cbn [snd]; eapply mem_prefix_lookup; eauto].
  assert (Hi1 : i < length (mem st1)) by (rewrite Ma, length_app; lia).
  assert (Hi2 : i < length (mem st2)) by (rewrite M2, length_app; lia).
  pose proof (validated_guard _ _ _ _ _ ow_b i Hb Hi1 Db) as Gb.
  pose proof (datacopied_validated _ _ _ _ _ Hb) as Cb.
  assert (P : mem st2 !! i = mem st !! i) by (eapply mem_prefix_lookup; eauto).
  destruct (dim_last (shp a1)) as [am|]; unfold bind at 1; cbn [index ret raise]; [|exact P].
  destruct (dim0 (shp b1)) as [bm|]; unfold bind at 1; cbn [index ret raise]; [|exact P].
  destruct (am =? bm); cbn [negb]; [|exact P].
  destruct (dim0 (shp a1)) as [a0|]; unfold bind at 1; cbn [index ret raise]; [|exact P].
  destruct (l + u + 1 =? Z.of_nat a0)%Z; cbn [negb].
  2:{ destruct ab as [|arr|s t d]; cbn [attr_shape]; try exact P.
      unfold bind at 1. cbn [ret].
      destruct (dim0 (shp arr)); unfold bind; cbn [index ret raise]; exact P. }
  match goal with
  | |- context [bind ?blk _ st2] =>
      assert (B : mem (snd (blk st2)) !! i = mem st !! i);
      [|destruct (blk st2) as [[[x info]|e] s'] eqn:Eb; run_with Eb; cbn [snd] in B |- *;
        [destruct (info =? 0)%Z; [|destruct (0 <? info)%Z]; exact B | exact B]]
  end.
  destruct (Z.eqb_spec l u) as [Elu|Nlu]; [destruct (Z.eqb_spec u 1) as [Eu|Nu]|]; cbn [andb].
  - (* the tridiagonal path *)
    assert (Ga : ow_ab || _datacopied b1 b = true -> buf a1 <> i).
    { intros Hp. rewrite Cb in Hp.
      apply (validated_guard _ _ _ _ _ _ i Ha Hi (Dab ltac:(lia))).
      rewrite Hp. reflexivity. }
    unfold bind at 1. cbn [get_lapack_funcs bind emit ret fold_right].
    set (s3 := mk_state _ _).
    assert (P3 : mem s3 !! i = mem st !! i) by exact P.
    clearbody s3.
    destruct (row_slice_spec a1 0 1 0 s3) as [(du & E & odu & Mdu)|E]; run_with E;
      [|exact P3].
    destruct (row_slice_spec a1 1 0 0 s3) as [(d & E1 & od & Md)|E1]; run_with E1;
      [|exact P3].
    destruct (row_slice_spec a1 2 0 1 s3) as [(dl & E2 & odl & Mdl)|E2]; run_with E2;
      [|exact P3].
    assert (Gv : forall v off, a_mem v = Some (buf a1, off) ->
                 k_ow (mk_karg v (ow_ab || _datacopied b1 b)) = true ->
                 forall off', a_mem (k_val (mk_karg v (ow_ab || _datacopied b1 b)))
                              <> Some (i, off')).
    { intros v off Mv Hp off'. cbn [k_val k_ow] in *. rewrite Mv. intros Eq.
      injection Eq as Eq _. exact (Ga Hp Eq). }
    destruct b as [|o|sb tb db]; cbn [as_kernel_arg].
    + exact P3.
    + unfold bind. cbn [whole bind contents ret invoke snd mem kargs].
      rewrite write_back_other; [exact P3|].
      repeat constructor; eauto.
      cbn [k_val k_ow a_mem]. intros Hp off Eq. injection Eq as Eq _.
      cbn [donated] in Db. rewrite Cb, orb_false_r in Hp. rewrite Hp in Db. cbn in Db.
      apply Nat.eqb_neq in Db. contradiction.
    + unfold bind. cbn [ret invoke snd mem kargs].
      rewrite write_back_other; [exact P3|].
      repeat constructor; eauto.
  - rewrite gbsv_block_frame; assumption.
  - rewrite gbsv_block_frame; assumption.
Qed.

(** X9 on a sample: the tridiagonal path with an ndarray [b], [overwrite_b]
    set and a kernel that writes wherever it may; [ab] is as it was. *)
Lemma solve_banded_frame_witness :
  mem (snd (solve_banded scribbling_lapack (1, 1)%Z (PyArray tri_ab) (PyArray tri_rhs)
              false true true tri_rhs_store)) !! 0
  = mem tri_rhs_store !! 0.
Proof.
  apply (solve_banded_frame scribbling_lapack 1 1 (PyArray tri_ab) (PyArray tri_rhs)
           false true true tri_rhs_store 0); [cbn; lia | reflexivity | reflexivity].
Defined.

(** ** Hermitian banded systems: [solveh_banded] *)

Lemma solveh_banded_pbsv_run (lapack : kernel_lib) (ab b : pyobj)
    (ow_ab ow_b lower cf : bool) (st : state) a1 st1 b1 st2 r c :
  _asarray_validated ab cf st = (Return a1, st1) ->
  _asarray_validated b cf st1 = (Return b1, st2) ->
  shp a1 = Sh2 r c ->
  dim0 (shp b1) = Some c ->
  r <> 2 ->
  let ka := mk_karg (view_of st2 a1) (ow_ab || _datacopied a1 ab) in
  let kb := mk_karg (view_of st2 b1) (ow_b || _datacopied b1 b) in
  let call := pbsv ka kb lower in
  let rp := lapack call in
  solveh_banded lapack ab b ow_ab ow_b lower cf st =
    ((if (0 <? r_info rp)%Z
      then Raise (LinAlgError "%d-th leading minor not positive definite" [r_info rp])
      else if (r_info rp <? 0)%Z
      then Raise (ValueError "illegal value in %d-th argument of internal pbsv" [(- r_info rp)%Z])
      else Return (out_arg rp 1 kb (common_type (dty a1) (common_type (dty b1) float32)))),
     mk_state (write_back [ka; kb] (r_args rp) (mem st2))
              ((log st2 ++ [Lookup ["pbsv"]]) ++ [Invoke call])).
Proof.
  intros Ha Hb Hs Hb0 Hr ka kb call rp.
  unfold solveh_banded.
  run_with Ha. run_with Hb. rewrite Hs.
  unfold bind at 1. cbn [index dim_last ret]. rewrite Hb0.
  unfold bind at 1. cbn [index ret]. rewrite Nat.eqb_refl. cbn [negb].
  unfold bind at 1. cbn [index dim0 ret].
  destruct (Nat.eqb_spec r 2) as [|_]; [contradiction|].
  subst rp call kb ka. unfold view_of.
  unfold bind. cbn [get_lapack_funcs bind emit ret whole contents invoke kargs mem log fold_right].
  set (rp := lapack _).
  destruct (0 <? r_info rp)%Z; [reflexivity|].
  destruct (r_info rp <? 0)%Z; reflexivity.
Qed.

(** X10.  [solveh_banded] on an [ab] of [r] rows and [c] columns and a [b] of
    [c] rows: exactly one kernel is looked up and invoked, [ptsv] when [r = 2]
    and the banded Cholesky solver [pbsv] otherwise, the latter on the whole
    [ab] with the caller's [lower] and the permission [overwrite_ab or
    _datacopied(a1, ab)].  A positive status raises LinAlgError carrying the
    status (the leading minor that is not positive definite), a negative one
    raises ValueError carrying [-info], and status 0 returns what the kernel
    left in place of [b], with the shape of [b]. *)
Theorem solveh_banded_status (lapack : kernel_lib) (ab b : pyobj)
    (ow_ab ow_b lower cf : bool) (st : state) a1 st1 b1 st2 r c :
  _asarray_validated ab cf st = (Return a1, st1) ->
  _asarray_validated b cf st1 = (Return b1, st2) ->
  shp a1 = Sh2 r c ->
  dim0 (shp b1) = Some c ->
  exists (call : kcall),
    let res := solveh_banded lapack ab b ow_ab ow_b lower cf st in
    let info := r_info (lapack call) in
    log (snd res) = log st ++ [Lookup [if r =? 2 then "ptsv" else "pbsv"]; Invoke call] /\
    (r <> 2 ->
     call = pbsv (mk_karg (view_of st2 a1) (ow_ab || _datacopied a1 ab))
                 (mk_karg (view_of st2 b1) (ow_b || _datacopied b1 b)) lower) /\
    (r = 2 -> exists d e,
       call = ptsv (mk_karg d (ow_ab || _datacopied a1 ab))
                   (mk_karg e (ow_ab || _datacopied a1 ab))
                   (mk_karg (view_of st2 b1) (ow_b || _datacopied b1 b))) /\
    ((0 < info)%Z ->
       fst res = Raise (LinAlgError "%d-th leading minor not positive definite" [info])) /\
    ((info < 0)%Z ->
       fst res = Raise (ValueError "illegal value in %d-th argument of internal pbsv"
                                   [(- info)%Z])) /\
    ((info = 0)%Z ->
       exists x, fst res = Return x /\
                 a_shape x = shp b1 /\
                 a_data x = default [] (r_args (lapack call) !! (if r =? 2 then 2 else 1))).
Proof.
  intros Ha Hb Hs Hb0.
  pose proof (validated_log _ _ _ _ _ Ha) as La.
  pose proof (validated_log _ _ _ _ _ Hb) as Lb.
  destruct (Nat.eqb_spec r 2) as [->|Hr].
  - pose proof (solveh_banded_ptsv_run lapack ab b ow_ab ow_b lower cf st a1 st1 b1 st2 c
                  Ha Hb Hs Hb0) as R.
    cbv zeta in R.
    match type of R with context [Invoke ?k] => exists k end.
    cbv zeta. rewrite R. clear R.
    cbn [fst snd log]. set (i := r_info _).
    split; [rewrite Lb, La, <- app_assoc; reflexivity|].
    split; [intros H; contradiction|].
    split; [intros _; eexists _, _; reflexivity|].
    split; [|split]; intros H.
    + destruct (Z.ltb_spec 0 i); [reflexivity | lia].
    + destruct (Z.ltb_spec 0 i); [lia|]. destruct (Z.ltb_spec i 0); [reflexivity | lia].
    + rewrite H. cbn. eexists. split; [reflexivity|]. split; reflexivity.
  - pose proof (solveh_banded_pbsv_run lapack ab b ow_ab ow_b lower cf st a1 st1 b1 st2 r c
                  Ha Hb Hs Hb0 Hr) as R.
    cbv zeta in R.
    match type of R with context [Invoke ?k] => exists k end.
    cbv zeta. rewrite R. clear R.
    cbn [fst snd log]. set (i := r_info _).
    split; [rewrite Lb, La, <- app_assoc; reflexivity|].
    split; [intros _; reflexivity|].
    split; [intros H; contradiction|].
    split; [|split]; intros H.
    + destruct (Z.ltb_spec 0 i); [reflexivity | lia].
    + destruct (Z.ltb_spec 0 i); [lia|]. destruct (Z.ltb_spec i 0); [reflexivity | lia].
    + rewrite H. cbn. eexists. split; [reflexivity|]. split; reflexivity.
Qed.

(** X10 on a sample: a band of 4 rows and a kernel that reports status 2. *)
Lemma solveh_banded_status_witness :
  fst (solveh_banded (sample_lapack 2 0) (PyArray band_ab) (PyArray band_b)
         false false true true band_store)
  = Raise (LinAlgError "%d-th leading minor not positive definite" [2%Z]).
Proof.
  destruct (solveh_banded_status (sample_lapack 2 0) (PyArray band_ab) (PyArray band_b)
              false false true true band_store band_ab band_store band_b band_store 4 3
              eq_refl eq_refl eq_refl eq_refl)
    as (call & _ & Hcall & _ & Hpos & _).
  rewrite (Hcall ltac:(discriminate)) in Hpos.
  apply Hpos. reflexivity.
Defined.

Lemma real_view_mem v : a_mem (real_view v) = None \/ a_mem (real_view v) = a_mem v.
Proof. unfold real_view. cbn [a_mem]. destruct (is_complex (a_dtype v)); auto. Qed.

Lemma array_conj_mem v : a_mem (array_conj v) = None \/ a_mem (array_conj v) = a_mem v.
Proof. unfold array_conj. cbn [a_mem]. destruct (is_complex (a_dtype v)); auto. Qed.

(** X11.  What [solveh_banded] may write, on every path (both kernels, both
    forms): a buffer that existed before the call is left as it was unless it
    belongs to an ndarray passed as [ab] with [overwrite_ab] set or as [b]
    with [overwrite_b] set.  This covers the off-diagonal of the upper form
    of a real [ab], where [a1[0, 1:].conj()] is the view itself and the
    kernel, given the permission, writes into [ab]. *)
Theorem solveh_banded_frame (lapack : kernel_lib) (ab b : pyobj)
    (ow_ab ow_b lower cf : bool) (st : state) (i : nat) :
  i < length (mem st) ->
  donated ab ow_ab i = false ->
  donated b ow_b i = false ->
  mem (snd (solveh_banded lapack ab b ow_ab ow_b lower cf st)) !! i = mem st !! i.
Proof.
  intros Hi Da Db. unfold solveh_banded.
  destruct (_asarray_validated ab cf st) as [[a1|e] st1] eqn:Ha; run_with Ha;
    destruct (validated_mem _ _ _ _ _ Ha) as [xa Ma];
    [|cbn [snd]; eapply mem_prefix_lookup; eauto].
  destruct (_asarray_validated b cf st1) as [[b1|e] st2] eqn:Hb; run_with Hb;
    destruct (validated_mem _ _ _ _ _ Hb) as [xb Mb];
    assert (M2 : mem st2 = mem st ++ (xa ++ xb)) by (rewrite Mb, Ma, app_assoc; reflexivity);
    [|cbn [snd]; eapply mem_prefix_lookup; eauto].
  assert (Hi1 : i < length (mem st1)) by (rewrite Ma, length_app; lia).
  pose proof (validated_guard _ _ _ _ _ ow_ab i Ha Hi Da) as Ga.
  pose proof (validated_guard _ _ _ _ _ ow_b i Hb Hi1 Db) as Gb.
  assert (P : mem st2 !! i = mem st !! i) by (eapply mem_prefix_lookup; eauto).
  destruct (dim_last (shp a1)) as [am|]; unfold bind at 1; cbn [index ret raise]; [|exact P].
  destruct (dim0 (shp b1)) as [bm|]; unfold bind at 1; cbn [index ret raise]; [|exact P].
  destruct (am =? bm); cbn [negb]; [|exact P].
  destruct (dim0 (shp a1)) as [a0|]; unfold bind at 1; cbn [index ret raise]; [|exact P].
  match goal with
  | |- context [bind ?blk _ st2] =>
      assert (B : mem (snd (blk st2)) !! i = mem st !! i);
      [|destruct (blk st2) as [[[x info]|e] s'] eqn:Eb; run_with Eb; cbn [snd] in B |- *;
        [destruct (0 <? info)%Z; [|destruct (info <? 0)%Z]; exact B | exact B]]
  end.
  assert (Gv : forall v, (a_mem v = None \/ exists off, a_mem v = Some (buf a1, off)) ->
               k_ow (mk_karg v (ow_ab || _datacopied a1 ab)) = true ->
               forall off', a_mem (k_val (mk_karg v (ow_ab || _datacopied a1 ab)))
                            <> Some (i, off')).
  { intros v Mv Hp off'. cbn [k_val k_ow] in *. destruct Mv as [->|[off ->]]; [discriminate|].
    intros Eq. injection Eq as Eq _. exact (Ga Hp Eq). }
  assert (Gr : forall v off, a_mem v = Some (buf a1, off) ->
               a_mem (real_view v) = None \/ exists off, a_mem (real_view v) = Some (buf a1, off)).
  { intros v off Mv. destruct (real_view_mem v) as [E|E]; [left; exact E|].
    right. exists off. congruence. }
  destruct (a0 =? 2).
  - unfold bind at 1. cbn [get_lapack_funcs bind emit ret fold_right].
    set (s3 := mk_state _ _).
    assert (P3 : mem s3 !! i = mem st !! i) by exact P.
    clearbody s3.
    match goal with
    | |- context [bind ?pair _ s3] =>
        assert (D : (exists d e, pair s3 = (Return (d, e), s3) /\
                       (a_mem d = None \/ exists off, a_mem d = Some (buf a1, off)) /\
                       (a_mem e = None \/ exists off, a_mem e = Some (buf a1, off))) \/
                    pair s3 = (Raise IndexError, s3))
    end.
    { destruct lower.
      - destruct (row_slice_spec a1 0 0 0 s3) as [(d & E & od & Md)|E]; run_with E;
          [|right; reflexivity].
        destruct (row_slice_spec a1 1 0 1 s3) as [(e & E1 & oe & Me)|E1]; run_with E1;
          [|right; reflexivity].
        left. eexists _, _. split; [reflexivity|]. eauto.
      - destruct (row_slice_spec a1 1 0 0 s3) as [(d & E & od & Md)|E]; run_with E;
          [|right; reflexivity].
        destruct (row_slice_spec a1 0 1 0 s3) as [(e & E1 & oe & Me)|E1]; run_with E1;
          [|right; reflexivity].
        left. eexists _, _. split; [reflexivity|]. split; [eauto|].
        destruct (array_conj_mem e) as [Ec|Ec]; [left; exact Ec|].
        right. exists oe. congruence. }
    destruct D as [(d & e & E & Md & Me)|E]; run_with E; [|exact P3].
    unfold bind. cbn [ret whole bind contents invoke snd mem kargs].
    rewrite write_back_other; [exact P3|].
    repeat constructor; [apply Gv; exact Md | apply Gv; exact Me | apply whole_guard; exact Gb].
  - unfold bind. cbn [get_lapack_funcs bind emit ret whole contents invoke snd mem kargs].
    rewrite write_back_other; [exact P|].
    repeat constructor; apply whole_guard; assumption.
Qed.

(** X11 on a sample: a real [ab] in upper form and a kernel that writes
    wherever it may.  With [overwrite_b] alone set [ab] is as it was; with
    [overwrite_ab] set the diagonal and (through the view that [conj]
    returns) the off-diagonal are overwritten. *)
Lemma solveh_banded_frame_witness :
  mem (snd (solveh_banded scribbling_lapack (PyArray real_band_ab) (PyArray real_band_b)
              false true false true real_band_store)) !! 0
  = mem real_band_store !! 0 /\
  mem (snd (solveh_banded scribbling_lapack (PyArray real_band_ab) (PyArray real_band_b)
              true false false true real_band_store)) !! 0
  = Some [Re 0; Re 7; Re 7; Re 7].
Proof.
  split; [|reflexivity].
  apply (solveh_banded_frame scribbling_lapack (PyArray real_band_ab) (PyArray real_band_b)
           false true false true real_band_store 0); [cbn; lia | reflexivity | reflexivity].
Defined.

(** ** Toeplitz systems: [solve_toeplitz] *)

Lemma toeplitz_c_r_spec (arg : c_or_cr) cf st :
  match toeplitz_c_r arg cf st with
  | (Return _, st') => log st' = log st
  | (Raise e, st') => is_value_error e = true /\ log st' = log st
  end.
Proof.
  unfold toeplitz_c_r. destruct arg as [c|c r].
  - destruct (_asarray_validated c cf st) as [[c1|e] st1] eqn:Hc; run_with Hc.
    + unfold bind. cbn. apply (validated_log _ _ _ _ _ Hc).
    + apply (validated_raise _ _ _ _ _ Hc).
  - destruct (_asarray_validated c cf st) as [[c1|e] st1] eqn:Hc; run_with Hc.
    + pose proof (validated_log _ _ _ _ _ Hc) as Lc.
      unfold bind at 1. cbn [ravel bind contents ret].
      destruct (_asarray_validated r cf st1) as [[r1|e] st2] eqn:Hr; run_with Hr.
      * unfold bind. cbn. rewrite (validated_log _ _ _ _ _ Hr). exact Lc.
      * destruct (validated_raise _ _ _ _ _ Hr) as [V L]. split; [exact V | congruence].
    + apply (validated_raise _ _ _ _ _ Hc).
Qed.

(** X12.  [solve_toeplitz] with [b = None] always raises a ValueError and
    invokes nothing: the error 'illegal value, `b` is a required argument'
    when [c] (and [r]) pass validation, their validation error otherwise, [c]
    and [r] being validated before [b] is looked at. *)
Theorem solve_toeplitz_requires_rhs (lapack : kernel_lib) (arg : c_or_cr) (cf : bool)
    (st : state) :
  exists e st',
    solve_toeplitz lapack arg PyNone cf st = (Raise e, st') /\
    is_value_error e = true /\
    log st' = log st /\
    (forall c r st1, toeplitz_c_r arg cf st = (Return (c, r), st1) ->
       e = ValueError "illegal value, `b` is a required argument" []).
Proof.
  unfold solve_toeplitz. pose proof (toeplitz_c_r_spec arg cf st) as S.
  destruct (toeplitz_c_r arg cf st) as [[[c r]|e] st1] eqn:E; run_with E.
  - eexists _, _. split; [reflexivity|]. split; [reflexivity|]. split; [exact S|].
    intros; reflexivity.
  - destruct S as [V L]. exists e, st1. split; [reflexivity|]. split; [exact V|].
    split; [exact L|]. intros; discriminate.
Qed.

Lemma rev_lookup {A} (l : list A) (i : nat) :
  i < length l -> rev l !! i = l !! (length l - S i).
Proof. intros H. rewrite rev_alt. apply (reverse_lookup l i H). Qed.

(** X13.  The generator [vals = concatenate((r[-1:0:-1], c))] built by
    [solve_toeplitz], with [p = len(r) - 1]: it has [p + len(c)] entries;
    [c[i]] sits at position [p + i] and [r[j]], for [j >= 1], at position [p -
    j], each converted to the common element type, so that [r[0]] is nowhere.
    When only [c] is given, [r] is the conjugate of [c] entry by entry, and
    the entry at [p - j] is the conjugate of [c[j]]. *)
Theorem toeplitz_generator_layout (arg : c_or_cr) (cf : bool) (st : state) c r st1 :
  toeplitz_c_r arg cf st = (Return (c, r), st1) ->
  let t := common_type (a_dtype r) (a_dtype c) in
  let vals := a_data (toeplitz_vals c r) in
  let p := length (a_data r) - 1 in
  length vals = p + length (a_data c) /\
  (forall i, vals !! (p + i) = Scalar.cast t <$> a_data c !! i) /\
  (forall j, 1 <= j < length (a_data r) ->
             vals !! (p - j) = Scalar.cast t <$> a_data r !! j) /\
  (forall o, arg = JustC o ->
             a_dtype r = a_dtype c /\ a_data r = map Scalar.conj (a_data c)).
Proof.
  intros Hg t vals p.
  assert (Lr : length (rev (drop 1 (a_data r))) = p).
  { rewrite length_rev, length_drop. reflexivity. }
  subst vals. unfold toeplitz_vals. cbn [a_data]. fold t.
  split; [rewrite length_map, length_app, Lr; reflexivity|].
  split; [|split].
  - intros i. rewrite list_lookup_fmap. f_equal.
    rewrite lookup_app_r by lia. rewrite Lr. f_equal. lia.
  - intros j Hj. rewrite list_lookup_fmap. f_equal. subst p.
    rewrite lookup_app_l by lia.
    rewrite rev_lookup by (rewrite length_drop; lia).
    rewrite length_drop, lookup_drop. f_equal. lia.
  - intros o ->. unfold toeplitz_c_r in Hg.
    destruct (_asarray_validated o cf st) as [[c1|e] s1] eqn:Hc; run_with_in Hc Hg;
      [|discriminate].
    unfold bind in Hg. cbn [ravel bind contents ret] in Hg.
    injection Hg as <- <- _. split; reflexivity.
Qed.

(** X13 on a sample: [c = [2, 1 + 5i]] alone; the first entry of [vals] is [1
    - 5i]. *)
Lemma toeplitz_generator_layout_witness :
  a_data (toeplitz_vals (mk_aval [Cx 2 0; Cx 1 5] (Sh1 2) complex128 (Some (0, 0)))
            (array_conj (mk_aval [Cx 2 0; Cx 1 5] (Sh1 2) complex128 (Some (0, 0))))) !! 0
  = Some (Cx 1 (-5)).
Proof.
  destruct (toeplitz_generator_layout (JustC (PySeq (Sh1 2) complex128 [Cx 2 0; Cx 1 5])) true
              (mk_state [] [])
              (mk_aval [Cx 2 0; Cx 1 5] (Sh1 2) complex128 (Some (0, 0)))
              (array_conj (mk_aval [Cx 2 0; Cx 1 5] (Sh1 2) complex128 (Some (0, 0))))
              (mk_state [[Cx 2 0; Cx 1 5]] []) eq_refl) as (_ & _ & Hr & _).
  exact (Hr 1 ltac:(cbn; lia)).
Defined.

(** X14.  [solve_toeplitz] does not apply [check_finite] to [b]: [b] is
    validated with the default, [check_finite=True], whatever the caller
    passed.  An ndarray [b] of matching length that holds a NaN or an infinity
    raises the validation error even in a call made with [check_finite=False];
    nothing is invoked. *)
Theorem solve_toeplitz_rhs_always_checked (lapack : kernel_lib) (arg : c_or_cr)
    (ba : ndarray) (cf : bool) (st : state) c r st1 n :
  toeplitz_c_r arg cf st = (Return (c, r), st1) ->
  dim0 (shp ba) = Some n ->
  (Z.of_nat (length (rev (drop 1 (a_data r)) ++ a_data c)) = 2 * Z.of_nat n - 1)%Z ->
  forallb Scalar.is_finite (default [] (mem st1 !! buf ba)) = false ->
  solve_toeplitz lapack arg (PyArray ba) cf st
  = (Raise (ValidationError "array must not contain infs or NaNs"), st1).
Proof.
  intros Hg Hn Hl Hf. unfold solve_toeplitz.
  run_with Hg. cbn [attr_shape].
  unfold bind at 1. cbn [ret]. rewrite Hn.
  unfold bind at 1. cbn [index ret].
  unfold toeplitz_vals at 1. cbn [a_data]. rewrite length_map.
  rewrite (proj2 (Z.eqb_eq _ _) Hl). cbn [negb].
  unfold bind at 1. unfold _asarray_validated, bind. cbn [ret contents].
  rewrite Hf. reflexivity.
Qed.

(** X14 on a sample: [check_finite=False] and a [b] holding an infinity. *)
Lemma solve_toeplitz_rhs_always_checked_witness :
  solve_toeplitz scribbling_lapack (JustC toeplitz_c) (PyArray nonfinite_rhs) false
    nonfinite_store
  = (Raise (ValidationError "array must not contain infs or NaNs"),
     mk_state [[Re 1; Re infinity]; [Re 2; Re 1]] []).
Proof.
  apply (solve_toeplitz_rhs_always_checked scribbling_lapack (JustC toeplitz_c) nonfinite_rhs
           false nonfinite_store
           (mk_aval [Re 2; Re 1] (Sh1 2) float64 (Some (1, 0)))
           (array_conj (mk_aval [Re 2; Re 1] (Sh1 2) float64 (Some (1, 0))))
           (mk_state [[Re 1; Re infinity]; [Re 2; Re 1]] []) 2);
    reflexivity.
Defined.

Lemma validated_finite_array (ba : ndarray) st :
  forallb Scalar.is_finite (default [] (mem st !! buf ba)) = true ->
  _asarray_validated (PyArray ba) true st = (Return ba, st).
Proof.
  intros H. unfold _asarray_validated, bind. cbn [ret contents]. rewrite H. reflexivity.
Qed.

(** X15.  [solve_toeplitz] with a finite ndarray vector [b] of [n] entries:
    the call raises ValueError 'incompatible dimensions' exactly when [vals]
    has not [2n - 1] entries; otherwise the Levinson kernel is invoked exactly
    once, on [vals] and on [b] in the common element type (complex128 when
    [vals] or [b] is complex, float64 otherwise): the caller's [b] itself
    when it has that type already, a converted temporary otherwise.  The
    store is not changed, and the result is the kernel's solution as a
    vector of [n] entries of that element type. *)
Theorem solve_toeplitz_vector_rhs (lapack : kernel_lib) (arg : c_or_cr)
    (ba : ndarray) (cf : bool) (st : state) c r st1 n :
  toeplitz_c_r arg cf st = (Return (c, r), st1) ->
  shp ba = Sh1 n ->
  forallb Scalar.is_finite (default [] (mem st1 !! buf ba)) = true ->
  let len := length (rev (drop 1 (a_data r)) ++ a_data c) in
  let res := solve_toeplitz lapack arg (PyArray ba) cf st in
  ((Z.of_nat len <> 2 * Z.of_nat n - 1)%Z <->
   exists st', res = (Raise (ValueError "incompatible dimensions" []), st')) /\
  ((Z.of_nat len = 2 * Z.of_nat n - 1)%Z ->
   exists vals vb x,
     res = (Return x, mk_state (mem st1) (log st1 ++ [Invoke (levinson vals vb)])) /\
     a_data x = default [] (r_outs (lapack (levinson vals vb)) !! 0) /\
     a_shape x = Sh1 n /\
     a_shape vals = Sh1 len /\
     a_dtype vals = a_dtype vb /\
     a_dtype x = a_dtype vb /\
     a_dtype vb = (if is_complex (common_type (a_dtype r) (a_dtype c)) || is_complex (dty ba)
                   then complex128 else float64) /\
     a_data vb = map (Scalar.cast (a_dtype vb)) (default [] (mem st1 !! buf ba)) /\
     a_shape vb = Sh1 n /\
     a_mem vb = (if dtype_eqb (dty ba) (a_dtype vb) then Some (buf ba, 0) else None)).
Proof.
  intros Hg Hs Hf len res. subst res. split.
  - apply (solve_toeplitz_array_length_check lapack arg ba cf st c r st1 n Hg).
    rewrite Hs. reflexivity.
  - intros Hl.
    rewrite (solve_toeplitz_vector_run lapack arg ba cf st c r st1 n Hg Hs
               (validated_finite_array ba st1 Hf) Hl).
    eexists _, _, _. split; [reflexivity|].
    cbn [a_data a_shape a_dtype a_mem asarray_as view_of toeplitz_vals].
    rewrite length_map, Hs. repeat split; reflexivity.
Qed.

(** X15 on samples: [c] of 2 entries with a [b] of 3 (a mismatch), and with
    a float64 [b] of 2, which reaches the kernel as the caller's own array
    (buffer 1). *)
Lemma solve_toeplitz_vector_rhs_witness :
  (exists st',
     solve_toeplitz scribbling_lapack (JustC toeplitz_c) (PyArray v3) true sample_store
     = (Raise (ValueError "incompatible dimensions" []), st')) /\
  (exists vals vb x st',
     solve_toeplitz scribbling_lapack (JustC toeplitz_c) (PyArray v2) true sample_store
     = (Return x, st') /\
     last (log st') = Some (Invoke (levinson vals vb)) /\
     a_data vb = [Re 1; Re 2] /\
     a_mem vb = Some (1, 0)).
Proof.
  split.
  - apply (proj1 (proj1 (solve_toeplitz_vector_rhs scribbling_lapack (JustC toeplitz_c) v3 true
                           sample_store
                           (mk_aval [Re 2; Re 1] (Sh1 2) float64 (Some (4, 0)))
                           (array_conj (mk_aval [Re 2; Re 1] (Sh1 2) float64 (Some (4, 0))))
                           (mk_state (mem sample_store ++ [[Re 2; Re 1]]) []) 3
                           eq_refl eq_refl eq_refl))).
    cbn. lia.
  - destruct (proj2 (solve_toeplitz_vector_rhs scribbling_lapack (JustC toeplitz_c) v2 true
                       sample_store
                       (mk_aval [Re 2; Re 1] (Sh1 2) float64 (Some (4, 0)))
                       (array_conj (mk_aval [Re 2; Re 1] (Sh1 2) float64 (Some (4, 0))))
                       (mk_state (mem sample_store ++ [[Re 2; Re 1]]) []) 2
                       eq_refl eq_refl eq_refl) eq_refl)
      as (vals & vb & x & E & _ & _ & _ & _ & _ & Ht & Hd & _ & Hm).
    exists vals, vb, x. eexists. split; [exact E|].
    split; [reflexivity|]. rewrite Ht in Hd, Hm. split; [exact Hd | exact Hm].
Defined.

Lemma levinson_columns (lapack : kernel_lib) (vals : aval) (rhs : nat -> aval) (l : list nat)
    (st : state) :
  mapM (fun i => do r <- invoke lapack (levinson vals (rhs i));
                 ret (default [] (r_outs r !! 0))) l st
  = (Return (map (fun i => default [] (r_outs (lapack (levinson vals (rhs i))) !! 0)) l),
     mk_state (mem st) (log st ++ map (fun i => Invoke (levinson vals (rhs i))) l)).
Proof.
  revert st. induction l as [|i l IH]; intros st.
  - cbn. rewrite app_nil_r. destruct st; reflexivity.
  - cbn [mapM map]. unfold bind at 1. unfold bind at 1.
    cbn [invoke kargs write_back combine fold_left ret].
    unfold bind at 1. rewrite IH. cbn [mem log ret]. rewrite <- app_assoc. reflexivity.
Qed.

Lemma flat_map_rows_lookup {A} (f : nat -> list A) (k : nat) (l : list nat) (i j : nat) x :
  (forall r, length (f r) = k) ->
  l !! i = Some x ->
  j < k ->
  flat_map f l !! (i * k + j) = f x !! j.
Proof.
  intros Hf. revert i. induction l as [|y l IH]; intros i Hi Hj; [discriminate|].
  cbn [flat_map]. destruct i as [|i].
  - cbn in Hi. injection Hi as ->. cbn [Nat.mul Nat.add].
    apply lookup_app_l. rewrite Hf. exact Hj.
  - cbn in Hi. rewrite lookup_app_r by (rewrite Hf; cbn; lia).
    rewrite Hf. replace (S i * k + j - k) with (i * k + j) by (cbn; lia).
    apply IH; assumption.
Qed.

Lemma column_stack_entry (m : nat) (cols : list (list scalar)) (i j : nat) :
  i < m -> j < length cols ->
  entry (column_stack m cols) (length cols) i j
  = default (Re 0) (default [] (cols !! j) !! i).
Proof.
  intros Hi Hj. unfold entry, column_stack.
  rewrite (flat_map_rows_lookup _ (length cols) (seq 0 m) i j i).
  - rewrite list_lookup_fmap.
    destruct (lookup_lt_is_Some_2 cols j Hj) as [col E]. rewrite E. reflexivity.
  - intros r. apply length_map.
  - apply lookup_seq_lt. exact Hi.
  - exact Hj.
Qed.

(** X16.  [solve_toeplitz] with a finite ndarray matrix [b] of [m] rows and
    [k] columns and a generator of matching length.  With no column the call
    raises the ValueError of [np.column_stack] on nothing, and nothing is
    invoked.  With [k >= 1] columns the Levinson kernel is invoked [k] times,
    in column order, the [j]-th time on column [j] of [b] in the common
    element type (entry [i] of that right-hand side is [b[i, j]]; it is a
    view of the caller's [b] when [b] has that type and the column is
    contiguous, a temporary otherwise); the result has the shape of [b] and
    its entry [(i, j)] is entry [i] of the [j]-th solution.  The store is not
    changed. *)
Theorem solve_toeplitz_matrix_rhs (lapack : kernel_lib) (arg : c_or_cr)
    (ba : ndarray) (cf : bool) (st : state) c r st1 m k :
  toeplitz_c_r arg cf st = (Return (c, r), st1) ->
  shp ba = Sh2 m k ->
  forallb Scalar.is_finite (default [] (mem st1 !! buf ba)) = true ->
  (Z.of_nat (length (rev (drop 1 (a_data r)) ++ a_data c)) = 2 * Z.of_nat m - 1)%Z ->
  let t := if is_complex (a_dtype (toeplitz_vals c r)) || is_complex (dty ba)
           then complex128 else float64 in
  let vals := asarray_as t (toeplitz_vals c r) in
  let B := map (Scalar.cast t) (default [] (mem st1 !! buf ba)) in
  let rhs := fun j =>
    mk_aval (column B m k j) (Sh1 m) t
            (if dtype_eqb (dty ba) t && ((k =? 1) || (m <=? 1))
             then Some (buf ba, j) else None) in
  let sol := fun j => default [] (r_outs (lapack (levinson vals (rhs j))) !! 0) in
  (k = 0 ->
   solve_toeplitz lapack arg (PyArray ba) cf st
   = (Raise (ValueError "need at least one array to concatenate" []), st1)) /\
  (0 < k ->
   exists x,
     solve_toeplitz lapack arg (PyArray ba) cf st
     = (Return x,
        mk_state (mem st1)
                 (log st1 ++ map (fun j => Invoke (levinson vals (rhs j))) (seq 0 k))) /\
     a_shape x = Sh2 m k /\
     (forall i j, i < m -> j < k -> entry (a_data x) k i j = default (Re 0) (sol j !! i)) /\
     (forall i j, i < m -> j < k -> a_data (rhs j) !! i = Some (entry B k i j))).
Proof.
  intros Hg Hs Hf Hl t vals B rhs sol.
  assert (R : solve_toeplitz lapack arg (PyArray ba) cf st
              = match map sol (seq 0 k) with
                | [] => (Raise (ValueError "need at least one array to concatenate" []),
                         mk_state (mem st1) (log st1 ++ []))
                | cols =>
                    (Return (mk_aval (column_stack m cols) (Sh2 m k) t None),
                     mk_state (mem st1)
                       (log st1 ++ map (fun j => Invoke (levinson vals (rhs j))) (seq 0 k)))
                end).
  { unfold solve_toeplitz.
    run_with Hg. cbn [attr_shape].
    unfold bind at 1. cbn [ret]. rewrite Hs.
    unfold bind at 1. cbn [index dim0 ret].
    unfold toeplitz_vals at 1. cbn [a_data]. rewrite length_map.
    rewrite (proj2 (Z.eqb_eq _ _) Hl). cbn [negb].
    rewrite (bind_return _ _ _ _ _ (validated_finite_array ba st1 Hf)).
    unfold bind at 1. cbn [whole bind contents ret].
    cbn [asarray_as a_shape]. rewrite Hs. fold t. fold vals.
    unfold bind at 1.
    match goal with
    | |- context [column_arg ?v m k] => set (vb := v)
    end.
    assert (Hrhs : forall i, column_arg vb m k i = rhs i).
    { intros i. subst vb rhs B. unfold column_arg, column, asarray_as.
      cbn [a_data a_dtype a_mem].
      f_equal. destruct (dtype_eqb (dty ba) t); cbn [andb]; [|reflexivity].
      destruct ((k =? 1) || (m <=? 1)); reflexivity. }
    rewrite (levinson_columns lapack vals (column_arg vb m k)).
    rewrite (map_ext (fun i => default [] (r_outs (lapack (levinson vals (column_arg vb m k i)))
                                           !! 0)) sol)
      by (intros i; unfold sol; rewrite Hrhs; reflexivity).
    rewrite (map_ext (fun i => Invoke (levinson vals (column_arg vb m k i)))
                     (fun j => Invoke (levinson vals (rhs j))))
      by (intros i; rewrite Hrhs; reflexivity).
    destruct k as [|k']; [reflexivity|]. reflexivity. }
  rewrite R. clear R. split.
  - intros ->. cbn [seq map]. rewrite app_nil_r. destruct st1; reflexivity.
  - intros Hk.
    destruct (map sol (seq 0 k)) as [|c0 cols] eqn:Em.
    { apply (f_equal (@length _)) in Em. rewrite length_map, length_seq in Em.
      cbn in Em. lia. }
    rewrite <- Em.
    eexists. split; [reflexivity|]. cbn [a_shape a_data].
    split; [reflexivity|]. split.
    + intros i j Hi Hj.
      pose proof (column_stack_entry m (map sol (seq 0 k)) i j Hi) as E.
      rewrite length_map, length_seq in E. specialize (E Hj).
      rewrite list_lookup_fmap, lookup_seq_lt in E by exact Hj.
      exact E.
    + intros i j Hi Hj. subst rhs. cbn [a_data]. unfold column.
      rewrite list_lookup_fmap, lookup_seq_lt by exact Hi. reflexivity.
Qed.

(** X16 on samples: a 2 by 2 right-hand side and a kernel that doubles it;
    the columns reach the kernel as temporaries.  A right-hand side of one
    column reaches it as a view of the caller's array (buffer 0). *)
Lemma solve_toeplitz_matrix_rhs_witness :
  (exists x,
     solve_toeplitz doubling_levinson (JustC toeplitz_c) (PyArray rhs22) true rhs22_store
     = (Return x,
        mk_state [[Re 1; Re 2; Re 3; Re 4]; [Re 2; Re 1]]
          [Invoke (levinson (mk_aval [Re 1; Re 2; Re 1] (Sh1 3) float64 None)
                            (mk_aval [Re 1; Re 3] (Sh1 2) float64 None));
           Invoke (levinson (mk_aval [Re 1; Re 2; Re 1] (Sh1 3) float64 None)
                            (mk_aval [Re 2; Re 4] (Sh1 2) float64 None))]) /\
     a_shape x = Sh2 2 2 /\
     entry (a_data x) 2 1 0 = Re 6) /\
  (exists x,
     solve_toeplitz doubling_levinson (JustC toeplitz_c) (PyArray rhs21) true rhs21_store
     = (Return x,
        mk_state [[Re 1; Re 2]; [Re 2; Re 1]]
          [Invoke (levinson (mk_aval [Re 1; Re 2; Re 1] (Sh1 3) float64 None)
                            (mk_aval [Re 1; Re 2] (Sh1 2) float64 (Some (0, 0))))])).
Proof.
  split.
  - destruct (proj2 (solve_toeplitz_matrix_rhs doubling_levinson (JustC toeplitz_c) rhs22 true
                       rhs22_store
                       (mk_aval [Re 2; Re 1] (Sh1 2) float64 (Some (1, 0)))
                       (array_conj (mk_aval [Re 2; Re 1] (Sh1 2) float64 (Some (1, 0))))
                       (mk_state [[Re 1; Re 2; Re 3; Re 4]; [Re 2; Re 1]] []) 2 2
                       eq_refl eq_refl eq_refl eq_refl) ltac:(lia)) as (x & E & Hs & He & _).
    exists x. split; [exact E|]. split; [exact Hs|].
    rewrite (He 1 0) by lia. reflexivity.
  - destruct (proj2 (solve_toeplitz_matrix_rhs doubling_levinson (JustC toeplitz_c) rhs21 true
                       rhs21_store
                       (mk_aval [Re 2; Re 1] (Sh1 2) float64 (Some (1, 0)))
                       (array_conj (mk_aval [Re 2; Re 1] (Sh1 2) float64 (Some (1, 0))))
                       (mk_state [[Re 1; Re 2]; [Re 2; Re 1]] []) 2 1
                       eq_refl eq_refl eq_refl eq_refl) ltac:(lia)) as (x & E & _).
    exists x. exact E.
Defined.

(** ** Inversion: [inv] *)

Lemma py_int_cases x st :
  (exists z, py_int x st = (Return z, st)) \/
  py_int x st = (Raise (ValueError "cannot convert float NaN to integer" []), st) \/
  py_int x st = (Raise OverflowError, st).
Proof.
  unfold py_int. destruct (Py.int_of_float x); [left; eauto|].
  destruct (PrimFloat.is_nan x); auto.
Qed.

(** X17.  Whatever its arguments and whatever the kernels report, [inv] never
    reaches [return inv_a] with [inv_a] unbound, although [inv_a] is assigned
    only under [if info == 0]: when the factorisation reports a status other
    than 0, one of the two [raise] statements fires.  And [inv] returns only
    what the inversion kernel [getri], the last kernel invoked, produced with
    status 0. *)
Theorem inv_result_is_bound (lapack : kernel_lib) (a : pyobj) (ow_a cf : bool) (st : state) :
  match fst (inv lapack a ow_a cf st) with
  | Return x =>
      exists lu piv lwork,
        last (log (snd (inv lapack a ow_a cf st))) = Some (Invoke (getri lu piv lwork)) /\
        r_info (lapack (getri lu piv lwork)) = 0%Z /\
        a_data x = default [] (r_args (lapack (getri lu piv lwork)) !! 0)
  | Raise (UnboundLocalError _) => False
  | Raise _ => True
  end.
Proof.
  unfold inv.
  destruct (_asarray_validated a cf st) as [[a1|e] st1] eqn:Ha; run_with Ha.
  2:{ cbn [fst]. pose proof (validated_spec a cf st) as V. rewrite Ha in V.
      destruct V as ((msg & ->) & _). exact I. }
  destruct (shp a1) as [|k|n c] eqn:Hs; cbn [is_square negb raise fst]; try exact I.
  destruct (n =? c); cbn [negb raise fst]; [|exact I].
  unfold bind at 1 2 3.
  cbn [get_lapack_funcs emit ret whole contents invoke bind mem log fold_right].
  set (ka := mk_karg _ _). set (r := lapack (getrf ka)).
  set (s3 := mk_state _ _).
  match goal with
  | |- context [bind ?blk _ s3] =>
      assert (B : match blk s3 with
                  | (Return (Some x, info), s') =>
                      exists lu piv lwork,
                        last (log s') = Some (Invoke (getri lu piv lwork)) /\
                        info = r_info (lapack (getri lu piv lwork)) /\
                        a_data x = default [] (r_args (lapack (getri lu piv lwork)) !! 0)
                  | (Return (None, info), s') => info <> 0%Z
                  | (Raise (UnboundLocalError _), _) => False
                  | (Raise _, _) => True
                  end);
      [|destruct (blk s3) as [[[[x|] info]|e] s'] eqn:Eb; run_with Eb]
  end.
  - destruct (Z.eqb_spec (r_info r) 0) as [E0|N0]; [|cbn [ret]; exact N0].
    unfold bind at 1. cbn [index dim0 ret]. unfold bind at 1. cbn [invoke].
    set (q := lapack (getri_lwork n)).
    destruct (r_info q =? 0)%Z; cbn [negb raise]; [|exact I].
    match goal with
    | |- context [bind (py_int ?x) _ ?s] =>
        destruct (py_int_cases x s) as [[l0 E]|[E|E]]; run_with E; try exact I
    end.
    match goal with
    | |- context [bind (py_int ?x) _ ?s] =>
        destruct (py_int_cases x s) as [[l1 E1]|[E1|E1]]; run_with E1; try exact I
    end.
    unfold bind. cbn [invoke ret log].
    eexists _, _, _. split; [apply last_snoc|]. split; reflexivity.
  - destruct B as (lu & piv & lwork & Hl & -> & Hx).
    set (g := lapack (getri lu piv lwork)) in *.
    destruct (Z.ltb_spec 0 (r_info g)); cbn [raise fst]; [exact I|].
    destruct (Z.ltb_spec (r_info g) 0); cbn [raise ret fst snd]; [exact I|].
    exists lu, piv, lwork. fold g. split; [exact Hl|]. split; [lia | exact Hx].
  - destruct (Z.ltb_spec 0 info); cbn [raise fst]; [exact I|].
    destruct (Z.ltb_spec info 0); cbn [raise ret fst]; [exact I|]. lia.
  - cbn [fst]. destruct e; try exact I. exact B.
Qed.

(** X18.  The outcomes of [inv] on a square matrix: a positive status of the
    LU factorisation [getrf] raises LinAlgError 'singular matrix' and a
    negative one ValueError with [-info]; after a successful factorisation and
    work-space query the status of [getri] decides in the same way, and status
    0 returns the array [getri] made of the LU factors. *)
Theorem inv_status (lapack : kernel_lib) (a : pyobj) (ow_a cf : bool)
    (st : state) a1 st1 n :
  _asarray_validated a cf st = (Return a1, st1) ->
  shp a1 = Sh2 n n ->
  let t := common_type (dty a1) float32 in
  let ka := mk_karg (view_of st1 a1) (ow_a || _datacopied a1 a) in
  let r := lapack (getrf ka) in
  let lu := out_arg r 0 ka t in
  let q := lapack (getri_lwork n) in
  let res := fst (inv lapack a ow_a cf st) in
  ((0 < r_info r)%Z -> res = Raise (LinAlgError "singular matrix" [])) /\
  ((r_info r < 0)%Z ->
     res = Raise (ValueError "illegal value in %d-th argument of internal getrf|getri"
                             [(- r_info r)%Z])) /\
  (r_info r = 0%Z -> r_info q = 0%Z ->
   forall l0 l1,
     Py.int_of_float (Scalar.real (r_work q)) = Some l0 ->
     Py.int_of_float (Py.lit_1_01 * Py.float_of_int l0)%float = Some l1 ->
     let g := lapack (getri (mk_karg lu true) (r_piv r) l1) in
     ((r_info g = 0)%Z -> res = Return (out_arg g 0 (mk_karg lu true) t)) /\
     ((0 < r_info g)%Z -> res = Raise (LinAlgError "singular matrix" [])) /\
     ((r_info g < 0)%Z ->
        res = Raise (ValueError "illegal value in %d-th argument of internal getrf|getri"
                                [(- r_info g)%Z]))).
Proof.
  intros Ha Hsq t ka r lu q res.
  assert (E : res = fst (inv lapack a ow_a cf st)) by reflexivity.
  unfold inv in E. run_with_in Ha E.
  rewrite Hsq in E. cbn [is_square] in E. rewrite Nat.eqb_refl in E. cbn [negb] in E.
  unfold bind at 1 2 3 in E. cbn [get_lapack_funcs emit ret whole contents invoke bind] in E.
  unfold bind at 1 2 3 in E. cbn [emit ret fst snd mem log] in E.
  fold (view_of st1 a1) in E. cbn [fold_right] in E. fold t in E. fold ka in E. fold r in E.
  fold lu in E.
  split; [|split].
  - intros H. destruct (Z.eqb_spec (r_info r) 0) as [|_]; [lia|].
    cbn [ret] in E. destruct (Z.ltb_spec 0 (r_info r)); [|lia]. exact E.
  - intros H. destruct (Z.eqb_spec (r_info r) 0) as [|_]; [lia|].
    cbn [ret] in E. destruct (Z.ltb_spec 0 (r_info r)); [lia|].
    destruct (Z.ltb_spec (r_info r) 0); [|lia]. exact E.
  - intros H Hq l0 l1 H0 H1 g. destruct (Z.eqb_spec (r_info r) 0) as [_|]; [|contradiction].
    cbn [index dim0 ret invoke] in E. fold q in E.
    destruct (Z.eqb_spec (r_info q) 0) as [_|]; [|contradiction].
    cbn [negb] in E.
    rewrite (bind_return _ _ _ _ _ (py_int_some _ _ _ H0)) in E.
    rewrite (bind_return _ _ _ _ _ (py_int_some _ _ _ H1)) in E.
    unfold bind in E. cbn [invoke ret] in E. fold g in E.
    split; [|split]; intros Hg.
    + rewrite Hg in E. exact E.
    + destruct (Z.ltb_spec 0 (r_info g)); [|lia]. exact E.
    + destruct (Z.ltb_spec 0 (r_info g)); [lia|].
      destruct (Z.ltb_spec (r_info g) 0); [|lia]. exact E.
Qed.

(** X18 on a sample: a factorisation that reports status 4. *)
Lemma inv_status_witness :
  fst (inv (sample_lapack 4 2) (PyArray m22) false true sample_store)
  = Raise (LinAlgError "singular matrix" []).
Proof.
  apply (proj1 (inv_status (sample_lapack 4 2) (PyArray m22) false true sample_store
                  m22 sample_store 2 eq_refl eq_refl)).
  reflexivity.
Defined.

(** X19.  What [inv] may write, on every path: a buffer that existed before
    the call is left as it was unless it belongs to an ndarray passed as [a]
    with [overwrite_a] set.  In particular the inversion in place ([getri] is
    called with [overwrite_lu=1]) works on the LU factors, a new array unless
    [a] was donated. *)
Theorem inv_frame (lapack : kernel_lib) (a : pyobj) (ow_a cf : bool)
    (st : state) (i : nat) :
  i < length (mem st) ->
  donated a ow_a i = false ->
  mem (snd (inv lapack a ow_a cf st)) !! i = mem st !! i.
Proof.
  intros Hi Da. unfold inv.
  destruct (_asarray_validated a cf st) as [[a1|e] st1] eqn:Ha; run_with Ha;
    destruct (validated_mem _ _ _ _ _ Ha) as [xa Ma];
    [|cbn [snd]; eapply mem_prefix_lookup; eauto].
  pose proof (validated_guard _ _ _ _ _ ow_a i Ha Hi Da) as Ga.
  assert (P : mem st1 !! i = mem st !! i) by (eapply mem_prefix_lookup; eauto).
  destruct (is_square (shp a1)); cbn [negb]; [|exact P].
  unfold bind at 1 2 3.
  cbn [get_lapack_funcs emit ret whole contents invoke bind mem log fold_right].
  set (ka := mk_karg _ _). set (r := lapack (getrf ka)).
  assert (P3 : write_back (kargs (getrf ka)) (r_args r) (mem st1) !! i = mem st !! i).
  { rewrite write_back_other; [exact P|].
    repeat constructor. apply whole_guard. exact Ga. }
  set (s3 := mk_state _ _).
  match goal with
  | |- context [bind ?blk _ s3] =>
      assert (B : mem (snd (blk s3)) !! i = mem st !! i);
      [|destruct (blk s3) as [[[x info]|e] s'] eqn:Eb; run_with Eb; cbn [snd] in B |- *]
  end.
  - destruct (r_info r =? 0)%Z; [|exact P3].
    unfold bind at 1. destruct (dim0 (shp a1)) as [n|]; cbn [index ret raise]; [|exact P3].
    unfold bind at 1. cbn [invoke].
    set (q := lapack (getri_lwork n)).
    destruct (r_info q =? 0)%Z; cbn [negb raise snd mem kargs write_back combine fold_left];
      [|exact P3].
    match goal with
    | |- context [bind (py_int ?x) _ ?s] =>
        destruct (py_int_cases x s) as [[l0 E]|[E|E]]; run_with E; try exact P3
    end.
    match goal with
    | |- context [bind (py_int ?x) _ ?s] =>
        destruct (py_int_cases x s) as [[l1 E1]|[E1|E1]]; run_with E1; try exact P3
    end.
    unfold bind. cbn [invoke ret snd mem kargs].
    rewrite write_back_other; [exact P3|].
    repeat constructor. cbn [k_val k_ow out_arg a_mem ka]. intros _ off.
    destruct (ow_a || _datacopied a1 a) eqn:Ep; [|discriminate].
    cbn [a_mem]. intros Eq. injection Eq as Eq _. exact (Ga eq_refl Eq).
  - destruct (0 <? info)%Z; [exact B|]. destruct (info <? 0)%Z; [exact B|].
    destruct x; exact B.
  - exact B.
Qed.

(** X19 on a sample: [overwrite_a] is not set and the kernels write wherever
    they may; the matrix is as it was. *)
Lemma inv_frame_witness :
  mem (snd (inv scribbling_lapack (PyArray m22) false true sample_store)) !! 0
  = mem sample_store !! 0.
Proof.
  apply (inv_frame scribbling_lapack (PyArray m22) false true sample_store 0);
    [cbn; lia | reflexivity].
Defined.

(** X20.  The work-space margin [int(1.01 * lwork)] of [inv], in binary64
    arithmetic: for every size up to 2000 it is [lwork + lwork // 100], one
    percent rounded down; so it is never below the size queried, and it adds
    nothing to a size below 100. *)
Theorem lwork_inflation_one_percent (n : nat) :
  n <= 2000 ->
  Py.int_of_float (Py.lit_1_01 * Py.float_of_int (Z.of_nat n))%float
  = Some (Z.of_nat n + Z.of_nat n / 100)%Z.
Proof.
  intros H.
  pose proof inflation_one_percent as F.
  rewrite forallb_forall in F.
  specialize (F n). 
  assert (I : In n (seq 0 2001)) by (apply in_seq; lia).
  specialize (F I).
  destruct (Py.int_of_float _) as [z|]; [|discriminate].
  apply Z.eqb_eq in F. rewrite F. reflexivity.
Qed.

(** X20 on a sample: 1000 becomes 1010. *)
Lemma lwork_inflation_one_percent_witness :
  Py.int_of_float (Py.lit_1_01 * Py.float_of_int 1000)%float = Some 1010%Z.
Proof. exact (lwork_inflation_one_percent 1000 ltac:(lia)). Defined.

(** ** Determinants: [det] *)

(** X21.  [det] either returns or raises a ValueError, on every path: the
    outcome is a ValueError (of the shape, of validation, or for a negative
    kernel status) or the determinant the kernel computed for the validated
    square matrix, and that is returned for every status that is not negative.
    A positive status is no error in [det], unlike in [solve] and [inv]: there
    is no LinAlgError. *)
Theorem det_outcomes (fdet : karg -> det_reply) (a : pyobj) (ow_a cf : bool) (st : state) :
  match fst (det fdet a ow_a cf st) with
  | Return v =>
      exists a1 st1 n,
        _asarray_validated a cf st = (Return a1, st1) /\
        shp a1 = Sh2 n n /\
        let r := fdet (mk_karg (view_of st1 a1) (ow_a || _datacopied a1 a)) in
        v = det_value r /\ (0 <= det_info r)%Z
  | Raise e => is_value_error e = true
  end /\
  (forall a1 st1 n,
     _asarray_validated a cf st = (Return a1, st1) ->
     shp a1 = Sh2 n n ->
     let r := fdet (mk_karg (view_of st1 a1) (ow_a || _datacopied a1 a)) in
     (0 <= det_info r)%Z ->
     fst (det fdet a ow_a cf st) = Return (det_value r)).
Proof.
  split.
  - unfold det.
    destruct (_asarray_validated a cf st) as [[a1|e] st1] eqn:Ha; run_with Ha.
    2:{ cbn [fst]. apply (validated_raise _ _ _ _ _ Ha). }
    destruct (shp a1) as [|k|r c] eqn:Hs; cbn [is_square negb raise fst]; try reflexivity.
    destruct (Nat.eqb_spec r c) as [<-|Hne]; cbn [negb raise fst]; [|reflexivity].
    unfold bind. cbn [get_flinalg_funcs emit whole bind contents ret run_kernel mem log].
    fold (view_of st1 a1).
    set (rp := fdet _).
    destruct (Z.ltb_spec (det_info rp) 0) as [Hneg|Hpos]; cbn [fst raise ret]; [reflexivity|].
    exists a1, st1, r. split; [reflexivity|]. split; [exact Hs|].
    cbv zeta. fold rp. split; [reflexivity | exact Hpos].
  - intros a1 st1 n Ha Hs r Hpos. unfold det. run_with Ha.
    rewrite Hs. cbn [is_square]. rewrite Nat.eqb_refl. cbn [negb].
    unfold bind. cbn [get_flinalg_funcs emit whole bind contents ret run_kernel mem log].
    fold (view_of st1 a1). fold r.
    destruct (Z.ltb_spec (det_info r) 0) as [Hneg|_]; [lia|]. reflexivity.
Qed.

(** X21 on a sample: a kernel that reports the determinant 0 with status 3. *)
Lemma det_outcomes_witness :
  fst (det (scribbling_fdet (Re 0) 3) (PyArray m22) false true sample_store) = Return (Re 0).
Proof.
  apply (proj2 (det_outcomes (scribbling_fdet (Re 0) 3) (PyArray m22) false true sample_store)
           m22 sample_store 2 eq_refl eq_refl).
  cbn. lia.
Defined.

(** X22.  What [det] may write, on every path: a buffer that existed before
    the call is left as it was unless it belongs to an ndarray passed as [a]
    with [overwrite_a] set. *)
Theorem det_frame (fdet : karg -> det_reply) (a : pyobj) (ow_a cf : bool)
    (st : state) (i : nat) :
  i < length (mem st) ->
  donated a ow_a i = false ->
  mem (snd (det fdet a ow_a cf st)) !! i = mem st !! i.
Proof.
  intros Hi Da. unfold det.
  destruct (_asarray_validated a cf st) as [[a1|e] st1] eqn:Ha; run_with Ha;
    destruct (validated_mem _ _ _ _ _ Ha) as [xa Ma];
    [|cbn [snd]; eapply mem_prefix_lookup; eauto].
  pose proof (validated_guard _ _ _ _ _ ow_a i Ha Hi Da) as Ga.
  assert (P : mem st1 !! i = mem st !! i) by (eapply mem_prefix_lookup; eauto).
  destruct (is_square (shp a1)); cbn [negb]; [|exact P].
  unfold bind. cbn [get_flinalg_funcs emit whole bind contents ret run_kernel mem log].
  set (r := fdet _).
  destruct (det_info r <? 0)%Z; cbn [snd mem ret raise];
    (rewrite write_back_other;
     [exact P | repeat constructor; apply whole_guard; assumption]).
Qed.

(** X22 on a sample: a kernel that writes wherever it may leaves the matrix as
    it was without [overwrite_a], and changes it with [overwrite_a]. *)
Lemma det_frame_witness :
  mem (snd (det (scribbling_fdet (Re 2) 0) (PyArray m22) false true sample_store)) !! 0
  = mem sample_store !! 0
  /\ mem (snd (det (scribbling_fdet (Re 2) 0) (PyArray m22) true true sample_store)) !! 0
     = Some [Re 7; Re 7; Re 7; Re 7].
Proof.
  split.
  - apply (det_frame (scribbling_fdet (Re 2) 0) (PyArray m22) false true sample_store 0);
      [cbn; lia | reflexivity].
  - reflexivity.
Defined.

(** ** Least squares: [lstsq] *)

Lemma lstsq_pad_shape t (m n : nat) (b1 : ndarray) st :
  exists b2 st3,
    (if m <? n then extend_rhs t n (columns (shp b1)) b1 else ret b1) st = (Return b2, st3) /\
    shp b2 = rhs_shape m n (shp b1).
Proof.
  unfold rhs_shape. destruct (m <? n).
  - unfold extend_rhs. destruct (shp b1) eqn:E;
      unfold zero_padded, bind; cbn; eexists _, _; split; reflexivity.
  - exists b1, st. split; reflexivity.
Qed.

(** X23.  Every normal return of [lstsq], for an [m] by [n] matrix and a
    right-hand side of [m] rows: the solution has [n] rows and the
    dimensionality of [b], shape [(n,)] for a vector [b] and [(n, k)] for a
    matrix [b] of [k] columns, whether [n] is below, equal to or above [m]. *)
Lemma lstsq_return_shape (lapack : kernel_lib) (np : numpy_lib) (a b : pyobj)
    (cond : option float) (ow_a ow_b cf : bool) (driver : string) (st : state)
    x resids rank s st' :
  lstsq lapack np a b cond ow_a ow_b cf driver st = (Return (x, resids, rank, s), st') ->
  exists m n sb,
    obj_shape a = Some (Sh2 m n) /\
    obj_shape b = Some sb /\
    dim0 sb = Some m /\
    a_shape x = match sb with Sh2 _ k => Sh2 n k | _ => Sh1 n end.
Proof.
  intros H.
  destruct (lstsq_return_inv _ _ _ _ _ _ _ _ _ _ _ _ H)
    as (a1 & st1 & b1 & st2 & m & n & Ha & Hb & Hs & Hb0 & ->).
  exists m, n, (shp b1).
  split; [rewrite (validated_shape _ _ _ _ _ Ha), Hs; reflexivity|].
  split; [apply (validated_shape _ _ _ _ _ Hb)|].
  split; [exact Hb0|].
  unfold lstsq in H.
  run_with_in Ha H. run_with_in Hb H. rewrite Hs, Hb0 in H.
  unfold bind at 1 in H. cbn [index ret] in H. rewrite Nat.eqb_refl in H.
  cbn [negb existsb String.eqb Ascii.eqb Bool.eqb orb] in H.
  unfold bind at 1 in H. cbn [get_lapack_funcs bind emit ret fold_right] in H.
  set (t := common_type (dty a1) (common_type (dty b1) float32)) in H.
  set (st_l := mk_state (mem st2) (log st2 ++ [Lookup ["gelss"]])) in H.
  fold (columns (shp b1)) in H.
  destruct (lstsq_pad_shape t m n b1 st_l) as (b2 & st3 & Hp & Sp).
  unfold bind at 1 in H. rewrite Hp in H.
  unfold bind at 1 2 3 4 in H. cbn [whole bind contents ret invoke kargs] in H.
  set (r := lapack (gelss _ _ cond _)) in H.
  destruct (0 <? r_info r)%Z; [discriminate|].
  destruct (r_info r <? 0)%Z; [discriminate|].
  unfold rhs_shape in Sp.
  destruct (Nat.ltb_spec n m) as [Hnm|Hnm].
  - destruct (Nat.ltb_spec m n) as [Hmn|_]; [lia|].
    unfold bind in H. unfold take_rows, sum_abs_sq in H.
    cbn [out_arg a_shape a_data a_dtype a_mem k_val k_ow] in H. rewrite Sp in H.
    destruct (shp b1) as [|p|p k]; [discriminate| |];
      cbn in Hb0; injection Hb0 as ->;
      destruct (r_rank r =? Z.of_nat n)%Z; cbn [ret] in H;
      injection H as <- _ _ _ _; cbn [a_shape]; f_equal; lia.
  - unfold bind in H. cbn [ret] in H. injection H as <- _ _ _ _.
    cbn [out_arg a_shape k_val]. rewrite Sp.
    destruct (Nat.ltb_spec m n) as [Hmn|Hmn]; [reflexivity|].
    assert (m = n) by lia. subst n.
    destruct (shp b1) as [|p|p k]; [discriminate| |]; cbn in Hb0; injection Hb0 as ->;
      reflexivity.
Qed.

(** X23 on a sample: a 3 by 1 system with a vector right-hand side; the
    solution has shape [(1,)]. *)
Lemma lstsq_return_shape_witness :
  exists x resids rank s st',
    lstsq (sample_lapack 0 1) sample_numpy (PyArray m31) (PyArray v3) None false false true
          "gelss" sample_store = (Return (x, resids, rank, s), st') /\
    a_shape x = Sh1 1.
Proof.
  eexists _, _, _, _, _. split; [vm_compute; reflexivity|].
  destruct (lstsq_return_shape (sample_lapack 0 1) sample_numpy (PyArray m31) (PyArray v3)
              None false false true "gelss" sample_store _ _ _ _ _ eq_refl)
    as (m & n & sb & Ea & Eb & _ & Hx).
  injection Ea as <- <-. injection Eb as <-. exact Hx.
Defined.

Lemma drop_repeat {A} (x : A) n m : drop n (repeat x m) = repeat x (m - n).
Proof.
  revert m. induction n as [|n IH]; intros [|m]; cbn; try reflexivity.
  apply IH.
Qed.

Lemma poke_front (z : scalar) (d : list scalar) (k : nat) :
  length d <= k -> poke 0 d (repeat z k) = d ++ repeat z (k - length d).
Proof.
  intros H. unfold poke. rewrite take_0. cbn [app]. rewrite repeat_length, Nat.sub_0_r.
  rewrite (take_ge d) by exact H. f_equal.
  cbn [Nat.add]. apply drop_repeat.
Qed.

(** The padded right-hand side: a fresh array of [n] rows, the rows of
    [b1] on top and zeros below. *)
Lemma extend_rhs_spec t (n : nat) (b1 : ndarray) st d :
  mem st !! buf b1 = Some d ->
  let s := match shp b1 with Sh2 _ k => Sh2 n k | _ => Sh1 n end in
  length d <= size s ->
  extend_rhs t n (columns (shp b1)) b1 st
  = (Return (mk_ndarray (length (mem st)) s t),
     mk_state (mem st ++ [map (Scalar.cast t) d
                          ++ repeat (Scalar.zero t) (size s - length d)])
              (log st)).
Proof.
  intros Hd s Hl.
  assert (Hlt : buf b1 < length (mem st)) by (eapply lookup_lt_Some; eauto).
  assert (E : zero_padded s t b1 st
              = (Return (mk_ndarray (length (mem st)) s t),
                 mk_state (mem st ++ [map (Scalar.cast t) d
                                      ++ repeat (Scalar.zero t) (size s - length d)])
                          (log st))).
  { unfold zero_padded. unfold bind. cbn [alloc contents store ret mem log buf].
    rewrite (lookup_app_l _ _ _ Hlt), Hd. cbn [default].
    rewrite lookup_app_r by lia. rewrite Nat.sub_diag. cbn [lookup list_lookup].
    rewrite insert_snoc.
    rewrite poke_front by (rewrite length_map; exact Hl).
    rewrite length_map. reflexivity. }
  unfold extend_rhs. subst s. destruct (shp b1); exact E.
Qed.

Lemma lstsq_underdetermined_run (lapack : kernel_lib) (np : numpy_lib) (a b : pyobj)
    (cond : option float) (ow_a ow_b cf : bool) (st : state) a1 st1 b1 st2 m n d :
  _asarray_validated a cf st = (Return a1, st1) ->
  _asarray_validated b cf st1 = (Return b1, st2) ->
  shp a1 = Sh2 m n ->
  dim0 (shp b1) = Some m ->
  m < n ->
  mem st2 !! buf b1 = Some d ->
  length d = size (shp b1) ->
  let t := common_type (dty a1) (common_type (dty b1) float32) in
  let sb := match shp b1 with Sh2 _ k => Sh2 n k | _ => Sh1 n end in
  let pad := map (Scalar.cast t) d ++ repeat (Scalar.zero t) ((n - m) * columns (shp b1)) in
  let st3 := mk_state (mem st2 ++ [pad]) (log st2 ++ [Lookup ["gelss"]]) in
  let va := view_of st3 a1 in
  let vb := mk_aval pad sb t (Some (length (mem st2), 0)) in
  let qc := gelss (mk_karg va false) (mk_karg vb false) None (-1) in
  let lw := Py.astype_int (Scalar.real (r_work (lapack qc))) in
  let ka := mk_karg va (ow_a || _datacopied a1 a) in
  let kb := mk_karg vb true in
  let call := gelss ka kb cond lw in
  let r := lapack call in
  lstsq lapack np a b cond ow_a ow_b cf "gelss" st =
    ((if (0 <? r_info r)%Z
      then Raise (LinAlgError "SVD did not converge in Linear Least Squares" [])
      else if (r_info r <? 0)%Z
      then Raise (ValueError "illegal value in %d-th argument of internal gelss"
                             [(- r_info r)%Z])
      else Return (out_arg r 1 kb t, mk_aval [] (Sh1 0) t None, r_rank r, r_reals r)),
     mk_state (write_back [ka; kb] (r_args r) (mem st3))
              ((log st3 ++ [Invoke qc]) ++ [Invoke call])).
Proof.
  intros Ha Hb Hs Hb0 Hmn Hd Ld t sb pad st3 va vb qc lw ka kb call r.
  assert (Hsz : size sb - length d = (n - m) * columns (shp b1)).
  { subst sb. rewrite Ld. destruct (shp b1) as [|p|p k]; [discriminate| |];
      cbn in Hb0; injection Hb0 as ->; cbn [size columns];
      [lia | rewrite Nat.mul_sub_distr_r; reflexivity]. }
  assert (Hle : length d <= size sb).
  { subst sb. rewrite Ld. destruct (shp b1) as [|p|p k]; [discriminate| |];
      cbn in Hb0; injection Hb0 as ->; cbn [size];
      [lia | apply Nat.mul_le_mono_r; lia]. }
  unfold lstsq.
  run_with Ha. run_with Hb. rewrite Hs, Hb0.
  unfold bind at 1. cbn [index ret]. rewrite Nat.eqb_refl.
  cbn [negb existsb String.eqb Ascii.eqb Bool.eqb orb].
  unfold bind at 1. cbn [get_lapack_funcs bind emit ret fold_right].
  fold t. set (st_l := mk_state (mem st2) (log st2 ++ [Lookup ["gelss"]])).
  fold (columns (shp b1)).
  destruct (Nat.ltb_spec m n) as [_|]; [|lia].
  pose proof (extend_rhs_spec t n b1 st_l d Hd Hle) as Ep. cbv zeta in Ep.
  fold sb in Ep. rewrite Hsz in Ep. fold pad in Ep. cbn [st_l mem log] in Ep. fold st3 in Ep.
  unfold bind at 1. rewrite Ep. clear Ep.
  unfold bind at 1 2 3 4. cbn [whole bind contents ret invoke kargs buf shp dty].
  fold (view_of st3 a1). fold va.
  assert (Lk : mem st3 !! length (mem st2) = Some pad).
  { subst st3. cbn [mem]. rewrite lookup_app_r by lia. rewrite Nat.sub_diag. reflexivity. }
  rewrite Lk. cbn [default from_option]. unfold id. fold vb.
  rewrite (write_back_no_ow [mk_karg _ false; mk_karg _ false]) by (repeat constructor).
  assert (Dc : _datacopied (mk_ndarray (length (mem st2)) sb t) b = true).
  { pose proof (validated_spec b cf st1) as V. rewrite Hb in V.
    destruct V as [_ [[-> _]|(s0 & t0 & d0 & -> & _ & _)]]; [|reflexivity].
    cbn. apply lookup_lt_Some in Hd. apply negb_true_iff, Nat.eqb_neq. lia. }
  rewrite Dc, orb_true_r.
  destruct (Nat.ltb_spec n m) as [|_]; [lia|].
  fold qc. fold lw. fold ka. fold kb. fold call. fold r. cbn [mem log].
  destruct (0 <? r_info r)%Z; [reflexivity|].
  destruct (r_info r <? 0)%Z; reflexivity.
Qed.

(** X24.  [lstsq] with more unknowns than equations ([m < n]) and the driver
    'gelss': what the kernel gets in place of [b] is a newly allocated array
    of [n] rows, the rows of [b] (converted to the kernel's element type) on
    top and zeros in the [n - m] rows below, always with the overwrite
    permission set.  So the caller's [b] is never written on this path,
    [overwrite_b] set or not: a buffer that existed before the call changes
    only if it belongs to an ndarray passed as [a] with [overwrite_a] set. *)
Theorem lstsq_underdetermined_padding (lapack : kernel_lib) (np : numpy_lib) (a b : pyobj)
    (cond : option float) (ow_a ow_b cf : bool) (st : state) a1 st1 b1 st2 m n d :
  _asarray_validated a cf st = (Return a1, st1) ->
  _asarray_validated b cf st1 = (Return b1, st2) ->
  shp a1 = Sh2 m n ->
  dim0 (shp b1) = Some m ->
  m < n ->
  mem st2 !! buf b1 = Some d ->
  length d = size (shp b1) ->
  let t := common_type (dty a1) (common_type (dty b1) float32) in
  exists (ka kb : karg) (lw : Z) (st' : state),
    snd (lstsq lapack np a b cond ow_a ow_b cf "gelss" st) = st' /\
    last (log st') = Some (Invoke (gelss ka kb cond lw)) /\
    a_shape (k_val kb) = match shp b1 with Sh2 _ k => Sh2 n k | _ => Sh1 n end /\
    a_data (k_val kb) = map (Scalar.cast t) d
                        ++ repeat (Scalar.zero t) ((n - m) * columns (shp b1)) /\
    a_mem (k_val kb) = Some (length (mem st2), 0) /\
    k_ow kb = true /\
    (forall i, i < length (mem st) -> donated a ow_a i = false ->
               mem st' !! i = mem st !! i).
Proof.
  intros Ha Hb Hs Hb0 Hmn Hd Ld t.
  destruct (validated_mem _ _ _ _ _ Ha) as [xa Ma].
  destruct (validated_mem _ _ _ _ _ Hb) as [xb Mb].
  assert (M2 : mem st2 = mem st ++ (xa ++ xb)) by (rewrite Mb, Ma, app_assoc; reflexivity).
  rewrite (lstsq_underdetermined_run lapack np a b cond ow_a ow_b cf st a1 st1 b1 st2 m n d
             Ha Hb Hs Hb0 Hmn Hd Ld).
  fold t. cbn [snd].
  eexists _, _, _, _. split; [reflexivity|]. cbn [log mem k_val k_ow a_shape a_data a_mem].
  split; [apply last_snoc|].
  do 4 (split; [reflexivity|]).
  intros i Hi Da.
  pose proof (validated_guard _ _ _ _ _ ow_a i Ha Hi Da) as Ga.
  assert (Hi2 : i < length (mem st2)) by (rewrite M2, length_app; lia).
  rewrite write_back_other.
  - rewrite lookup_app_l by exact Hi2. eapply mem_prefix_lookup; eauto.
  - repeat constructor.
    + unfold view_of. apply whole_guard. exact Ga.
    + cbn. intros _ off Eq. injection Eq as Eq _. lia.
Qed.

(** X24 on a sample: a 1 by 3 matrix and [b = [5]]; the kernel gets [[5, 0,
    0]]. *)
Lemma lstsq_underdetermined_padding_witness :
  exists (kb : karg),
    a_data (k_val kb) = [Re 5; Re 0; Re 0] /\ a_shape (k_val kb) = Sh1 3 /\ k_ow kb = true.
Proof.
  destruct (lstsq_underdetermined_padding scribbling_lapack sample_numpy (PyArray m13)
              (PySeq (Sh1 1) float64 [Re 5]) None false false true sample_store
              m13 sample_store (mk_ndarray 4 (Sh1 1) float64)
              (mk_state (mem sample_store ++ [[Re 5]]) []) 1 3 [Re 5]
              eq_refl eq_refl eq_refl eq_refl ltac:(lia) eq_refl eq_refl)
    as (ka & kb & lw & st' & _ & _ & Hs & Hd & _ & Ho & _).
  exists kb. split; [exact Hd|]. split; [exact Hs | exact Ho].
Defined.

Lemma extend_rhs_frame t (n k : nat) (b1 : ndarray) st :
  exists b2 st',
    extend_rhs t n k b1 st = (Return b2, st') /\
    buf b2 = length (mem st) /\
    log st' = log st /\
    forall i, i < length (mem st) -> mem st' !! i = mem st !! i.
Proof.
  assert (Z : forall s, exists b2 st',
            zero_padded s t b1 st = (Return b2, st') /\
            buf b2 = length (mem st) /\
            log st' = log st /\
            forall i, i < length (mem st) -> mem st' !! i = mem st !! i).
  { intros s. unfold zero_padded, bind. cbn [alloc contents store ret mem log buf].
    eexists _, _. split; [reflexivity|]. cbn [buf mem log].
    split; [reflexivity|]. split; [reflexivity|].
    intros i Hi. destruct (_ !! length (mem st)).
    - rewrite list_lookup_insert_ne by lia. apply lookup_app_l. exact Hi.
    - apply lookup_app_l. exact Hi. }
  unfold extend_rhs. destruct (shp b1); apply Z.
Qed.

Lemma take_rows_state n x st : snd (take_rows n x st) = st.
Proof. unfold take_rows. destruct (a_shape x); reflexivity. Qed.

Lemma sum_abs_sq_state np x n st : snd (sum_abs_sq np x n st) = st.
Proof. unfold sum_abs_sq. destruct (a_shape x); reflexivity. Qed.

(** X25.  What [lstsq] may write, on every path and for every driver: a buffer
    that existed before the call is left as it was unless it belongs to an
    ndarray passed as [a] with [overwrite_a] set or as [b] with [overwrite_b]
    set; the work-space query itself writes nothing. *)
Theorem lstsq_frame (lapack : kernel_lib) (np : numpy_lib) (a b : pyobj)
    (cond : option float) (ow_a ow_b cf : bool) (driver : string) (st : state) (i : nat) :
  i < length (mem st) ->
  donated a ow_a i = false ->
  donated b ow_b i = false ->
  mem (snd (lstsq lapack np a b cond ow_a ow_b cf driver st)) !! i = mem st !! i.
Proof.
  intros Hi Da Db. unfold lstsq.
  destruct (_asarray_validated a cf st) as [[a1|e] st1] eqn:Ha; run_with Ha;
    destruct (validated_mem _ _ _ _ _ Ha) as [xa Ma];
    [|cbn [snd]; eapply mem_prefix_lookup; eauto].
  destruct (_asarray_validated b cf st1) as [[b1|e] st2] eqn:Hb; run_with Hb;
    destruct (validated_mem _ _ _ _ _ Hb) as [xb Mb];
    assert (M2 : mem st2 = mem st ++ (xa ++ xb)) by (rewrite Mb, Ma, app_assoc; reflexivity);
    [|cbn [snd]; eapply mem_prefix_lookup; eauto].
  assert (Hi1 : i < length (mem st1)) by (rewrite Ma, length_app; lia).
  assert (Hi2 : i < length (mem st2)) by (rewrite M2, length_app; lia).
  pose proof (validated_guard _ _ _ _ _ ow_a i Ha Hi Da) as Ga.
  pose proof (validated_guard _ _ _ _ _ ow_b i Hb Hi1 Db) as Gb.
  assert (P : mem st2 !! i = mem st !! i) by (eapply mem_prefix_lookup; eauto).
  destruct (shp a1) as [|k|m n]; try exact P.
  destruct (dim0 (shp b1)) as [bm|]; unfold bind at 1; cbn [index ret raise]; [|exact P].
  destruct (m =? bm); cbn [negb]; [|exact P].
  destruct (existsb _ _); cbn [negb]; [|exact P].
  unfold bind at 1. cbn [get_lapack_funcs bind emit ret fold_right].
  set (t := common_type _ _). set (s3 := mk_state _ _).
  assert (Hi3 : i < length (mem s3)) by exact Hi2.
  assert (P3 : mem s3 !! i = mem st !! i) by exact P.
  clearbody s3.
  assert (Pad : exists b2 s4,
            (if m <? n then extend_rhs t n match shp b1 with Sh2 _ k => k | _ => 1 end b1
             else ret b1) s3 = (Return b2, s4) /\
            mem s4 !! i = mem st !! i /\
            (ow_b || _datacopied b2 b = true -> buf b2 <> i)).
  { destruct (m <? n).
    - destruct (extend_rhs_frame t n match shp b1 with Sh2 _ k => k | _ => 1 end b1 s3)
        as (b2 & s4 & E & Bf & _ & F).
      exists b2, s4. split; [exact E|]. split; [rewrite F by exact Hi3; exact P3|].
      intros _. lia.
    - exists b1, s3. split; [reflexivity|]. split; [exact P3 | exact Gb]. }
  destruct Pad as (b2 & s4 & E & P4 & Gb2). run_with E.
  destruct (String.eqb driver "gelss"); [|exact P4].
  unfold bind at 1 2 3 4. cbn [whole bind contents ret invoke kargs mem log].
  rewrite (write_back_no_ow [mk_karg _ false; mk_karg _ false]) by (repeat constructor).
  set (ka := mk_karg _ (ow_a || _)). set (kb := mk_karg _ (ow_b || _)).
  set (r := lapack (gelss ka kb cond _)).
  assert (P5 : write_back [ka; kb] (r_args r) (mem s4) !! i = mem st !! i).
  { rewrite write_back_other; [exact P4|].
    repeat constructor; apply whole_guard; assumption. }
  destruct (0 <? r_info r)%Z; [exact P5|].
  destruct (r_info r <? 0)%Z; [exact P5|].
  match goal with
  | |- context [bind ?blk _ ?s] =>
      assert (T : snd (blk s) = s);
      [|destruct (blk s) as [[[x1 rs]|e] s6] eqn:Eb; cbn [snd] in T; subst s6;
        run_with Eb; exact P5]
  end.
  destruct (n <? m); [|reflexivity].
  match goal with
  | |- context [bind (take_rows ?k ?x) _ ?s] =>
      pose proof (take_rows_state k x s) as T;
      destruct (take_rows k x s) as [[x1|e] s6] eqn:Et; cbn [snd] in T; subst s6;
      run_with Et; [|reflexivity]
  end.
  destruct (r_rank r =? Z.of_nat n)%Z; [|reflexivity].
  match goal with
  | |- context [bind (sum_abs_sq np ?x ?k) _ ?s] =>
      pose proof (sum_abs_sq_state np x k s) as T;
      destruct (sum_abs_sq np x k s) as [[rs|e] s6] eqn:Es; cbn [snd] in T; subst s6;
      run_with Es; reflexivity
  end.
Qed.

(** X25 on a sample: [overwrite_b] alone is set and the kernel writes wherever
    it may; the matrix is as it was. *)
Lemma lstsq_frame_witness :
  mem (snd (lstsq scribbling_lapack sample_numpy (PyArray m31) (PyArray v3) None
              false true true "gelss" sample_store)) !! 2
  = mem sample_store !! 2.
Proof.
  apply (lstsq_frame scribbling_lapack sample_numpy (PyArray m31) (PyArray v3) None
           false true true "gelss" sample_store 2); [cbn; lia | reflexivity | reflexivity].
Defined.

(** ** Pseudo-inverses *)

Lemma raises_bind_l {A B} (m : py A) (k : A -> py B) : raises m -> raises (bind m k).
Proof.
  intros H s. destruct (H s) as (e & s' & E). exists e, s'. unfold bind. rewrite E. reflexivity.
Qed.

Lemma lstsq_gelsd_raises (lapack : kernel_lib) (np : numpy_lib) (a b : pyobj)
    (cond : option float) (ow_a ow_b cf : bool) :
  raises (lstsq lapack np a b cond ow_a ow_b cf "gelsd").
Proof.
  unfold lstsq. apply raises_bind; intros a1. apply raises_bind; intros b1.
  destruct (shp a1); try apply raises_raise.
  apply raises_bind; intros bm. destruct (negb (r =? bm)); [apply raises_raise|].
  cbn [existsb String.eqb Ascii.eqb Bool.eqb orb negb]. auto with py.
Qed.

(** X26.  [pinv] never returns: it calls [lstsq] without naming a driver,
    hence with the default 'gelsd', for which [lstsq] binds no result.  On a
    matrix that passes validation the call looks the driver up, invokes no
    kernel and ends in UnboundLocalError. *)
Theorem pinv_never_returns (lapack : kernel_lib) (np : numpy_lib) (a : pyobj)
    (cond rcond : option float) (return_rank cf : bool) :
  raises (pinv lapack np a cond rcond return_rank cf) /\
  (forall st a1 st1 m n,
     _asarray_validated a cf st = (Return a1, st1) ->
     shp a1 = Sh2 m n ->
     exists st',
       pinv lapack np a cond rcond return_rank cf st = (Raise (UnboundLocalError "x"), st') /\
       log st' = log st ++ [Lookup ["gelsd"]]).
Proof.
  split.
  - unfold pinv. apply raises_bind; intros a1. apply raises_bind; intros m.
    apply raises_bind; intros b. apply raises_bind_l. apply lstsq_gelsd_raises.
  - intros st a1 st1 m n Ha Hs.
    pose proof (validated_log _ _ _ _ _ Ha) as La.
    unfold pinv. run_with Ha. rewrite Hs.
    unfold bind at 1. cbn [index dim0 ret].
    unfold bind at 1. cbn [identity alloc].
    unfold bind at 1. unfold lstsq.
    unfold bind at 1. cbn [_asarray_validated bind ret contents andb mem log].
    unfold bind at 1. cbn [_asarray_validated bind ret contents andb mem log].
    rewrite Hs. cbn [shp dim0 index]. unfold bind at 1. cbn [ret].
    rewrite Nat.eqb_refl. cbn [negb existsb String.eqb Ascii.eqb Bool.eqb orb].
    unfold get_lapack_funcs, extend_rhs, zero_padded, bind. cbn [shp].
    destruct (m <? n); cbn; (eexists; split; [reflexivity|]); cbn; congruence.
Qed.

(** X26 on a sample: a 2 by 2 matrix. *)
Lemma pinv_never_returns_witness :
  exists st',
    pinv (sample_lapack 0 2) sample_numpy (PyArray m22) None None true true sample_store
    = (Raise (UnboundLocalError "x"), st') /\
    log st' = [Lookup ["gelsd"]].
Proof.
  exact (proj2 (pinv_never_returns (sample_lapack 0 2) sample_numpy (PyArray m22) None None
                  true true)
           sample_store m22 sample_store 2 2 eq_refl eq_refl).
Defined.

Lemma svd_dtype (lapack : kernel_lib) a1 st1 u s vh st2 :
  decomp_svd_svd lapack a1 st1 = (Return (u, s, vh), st2) -> a_dtype u = dty a1.
Proof.
  intros H. unfold decomp_svd_svd in H. destruct (shp a1); try discriminate.
  unfold bind in H. cbn [whole bind contents ret invoke] in H.
  destruct (0 <? r_info _)%Z; [discriminate|].
  destruct (r_info _ <? 0)%Z; [discriminate|].
  injection H as <- _ _ _. reflexivity.
Qed.

Lemma eigh_dtype (lapack : kernel_lib) a1 lower st1 s u st2 :
  decomp_eigh lapack a1 lower st1 = (Return (s, u), st2) -> a_dtype u = dty a1.
Proof.
  intros H. unfold decomp_eigh in H. destruct (negb _); [discriminate|].
  unfold bind in H. cbn [whole bind contents ret invoke] in H.
  destruct (0 <? r_info _)%Z; [discriminate|].
  destruct (r_info _ <? 0)%Z; [discriminate|].
  injection H as _ <- _. reflexivity.
Qed.

Lemma resolve_cond_given c t st :
  (c =? -1)%float = false -> resolve_cond (Some c) t st = (Return c, st).
Proof. intros H. unfold resolve_cond, cond_unset. rewrite H. reflexivity. Qed.

Lemma resolve_cond_total c t :
  exists v, forall st' : state, resolve_cond c t st' = (Return v, st').
Proof.
  unfold resolve_cond.
  destruct c as [c|]; [destruct (cond_unset (Some c))|];
    try (eexists; intros st'; rewrite default_cond_spec; reflexivity).
  eexists; reflexivity.
Qed.

(** X27.  An explicit cutoff in [pinv2] and [pinvh], on a double-precision
    matrix: [rcond], when given, takes precedence over [cond], and a cutoff
    [c] other than -1 is used as it is: the rank returned is the number of
    singular values (of magnitudes of eigenvalues) above [c] times the
    largest, in binary64 arithmetic. *)
Theorem pinv2_pinvh_explicit_cutoff (lapack : kernel_lib) (np : numpy_lib) (a : pyobj)
    (cond rcond : option float) (lower cf : bool) (st : state) a1 st1 (c : float) :
  _asarray_validated a cf st = (Return a1, st1) ->
  is_double (dty a1) = true ->
  rcond = Some c \/ (rcond = None /\ cond = Some c) ->
  (c =? -1)%float = false ->
  (forall u s vh st2,
     decomp_svd_svd lapack a1 st1 = (Return (u, s, vh), st2) ->
     s <> [] ->
     exists B,
       pinv2 lapack np a cond rcond true cf st
       = (Return (B, Some (spec_effective_rank c s)), st2)) /\
  (forall s u st2,
     decomp_eigh lapack a1 lower st1 = (Return (s, u), st2) ->
     s <> [] ->
     exists B,
       pinvh lapack np a cond rcond lower true cf st
       = (Return (B, Some (spec_effective_rank c (map PrimFloat.abs s))), st2)).
Proof.
  intros Ha Hd Hc Hn1.
  assert (Hp : pick_cond cond rcond = Some c).
  { destruct Hc as [->|[-> ->]]; reflexivity. }
  split.
  - intros u s vh st2 Hsvd Hs.
    unfold pinv2. run_with Ha. run_with Hsvd.
    unfold bind at 1. rewrite Hp, (resolve_cond_given _ _ _ Hn1).
    destruct s as [|x t]; [contradiction|].
    unfold bind. cbn [np_max ret].
    rewrite (svd_dtype _ _ _ _ _ _ _ Hsvd), (cutoff_as_double _ _ Hd).
    eexists. rewrite count_true_above. reflexivity.
  - intros s u st2 Heig Hs.
    unfold pinvh. run_with Ha. run_with Heig.
    unfold bind at 1. rewrite Hp, (resolve_cond_given _ _ _ Hn1).
    destruct s as [|x t]; [contradiction|].
    unfold bind. cbn [np_max ret map].
    rewrite (eigh_dtype _ _ _ _ _ _ _ Heig), (cutoff_as_double _ _ Hd). eexists.
    rewrite length_map, length_select_mask.
    + rewrite count_true_above. reflexivity.
    + unfold above. cbn [map length]. rewrite !length_map. reflexivity.
Qed.

(** X27 on a sample: singular values [3] and [2^-40]; [rcond = 2^-50] gives
    rank 2 although [cond = 2^-10] is given as well. *)
Lemma pinv2_pinvh_explicit_cutoff_witness :
  exists B,
    pinv2 (sample_lapack 0 2) sample_numpy (PyArray m22) (Some 0x1p-10%float)
          (Some 0x1p-50%float) true true sample_store
    = (Return (B, Some 2),
       mk_state (mem sample_store)
         [Invoke (svd (mk_aval [Re 4; Re 1; Re 1; Re 3] (Sh2 2 2) float64 (Some (0, 0))))]).
Proof.
  destruct (pinv2_pinvh_explicit_cutoff (sample_lapack 0 2) sample_numpy (PyArray m22)
              (Some 0x1p-10%float) (Some 0x1p-50%float) true true sample_store m22
              sample_store 0x1p-50%float eq_refl eq_refl (or_introl eq_refl) eq_refl) as [H _].
  destruct (H _ _ _ _ eq_refl ltac:(discriminate)) as [B HB].
  exists B. exact HB.
Defined.

(** X28.  When the decomposition yields no singular value (no eigenvalue), as
    for a matrix without rows or columns, [pinv2] and [pinvh] do not return an
    empty pseudo-inverse: [np.max] of the empty array raises ValueError,
    whatever the cutoff arguments. *)
Theorem pinv2_pinvh_empty_spectrum (lapack : kernel_lib) (np : numpy_lib) (a : pyobj)
    (cond rcond : option float) (lower return_rank cf : bool) (st : state) a1 st1 :
  _asarray_validated a cf st = (Return a1, st1) ->
  (forall u vh st2,
     decomp_svd_svd lapack a1 st1 = (Return (u, [], vh), st2) ->
     pinv2 lapack np a cond rcond return_rank cf st
     = (Raise (ValueError "zero-size array to reduction operation maximum which has no identity"
                          []), st2)) /\
  (forall u st2,
     decomp_eigh lapack a1 lower st1 = (Return ([], u), st2) ->
     pinvh lapack np a cond rcond lower return_rank cf st
     = (Raise (ValueError "zero-size array to reduction operation maximum which has no identity"
                          []), st2)).
Proof.
  intros Ha.
  assert (R : forall c t s, exists v, resolve_cond c t s = (Return v, s)).
  { intros c t s. unfold resolve_cond.
    destruct c as [c|]; [destruct (cond_unset (Some c))|];
      try (rewrite default_cond_spec; eexists; reflexivity).
    eexists; reflexivity. }
  split.
  - intros u vh st2 Hsvd. unfold pinv2. run_with Ha. run_with Hsvd.
    destruct (R (pick_cond cond rcond) (a_dtype u) st2) as [v E]. run_with E. reflexivity.
  - intros u st2 Heig. unfold pinvh. run_with Ha. run_with Heig.
    destruct (R (pick_cond cond rcond) (a_dtype u) st2) as [v E]. run_with E. reflexivity.
Qed.

(** X28 on a sample: a kernel that reports no singular value. *)
Lemma pinv2_pinvh_empty_spectrum_witness :
  fst (pinv2 scribbling_lapack sample_numpy (PyArray m22) None None true true sample_store)
  = Raise (ValueError "zero-size array to reduction operation maximum which has no identity" []).
Proof.
  rewrite (proj1 (pinv2_pinvh_empty_spectrum scribbling_lapack sample_numpy (PyArray m22)
                    None None true true true sample_store m22 sample_store eq_refl)
             _ _ _ eq_refl).
  reflexivity.
Defined.

(** *** The order of binary64 values *)

Lemma lexcmp_spec (e1 e2 : Z) (m1 m2 : positive) :
  match lexcmp e1 m1 e2 m2 with
  | Lt => lexlt e1 m1 e2 m2
  | Eq => e1 = e2 /\ m1 = m2
  | Gt => lexlt e2 m2 e1 m1
  end.
Proof.
  unfold lexlt, lexcmp.
  destruct (Z.compare_spec e1 e2); try lia.
  change (Pos.compare_cont Eq m1 m2) with (m1 ?= m2)%positive.
  destruct (Pos.compare_spec m1 m2); lia.
Qed.

Lemma lexcmp_neg (e1 e2 : Z) (m1 m2 : positive) :
  match (e1 ?= e2)%Z with
  | Lt => Gt
  | Gt => Lt
  | Eq => CompOpp (Pos.compare_cont Eq m1 m2)
  end = CompOpp (lexcmp e1 m1 e2 m2).
Proof. unfold lexcmp. destruct (e1 ?= e2)%Z; reflexivity. Qed.

Lemma SFlt_le_trans (a b c : spec_float) :
  SFltb a b = true -> SFleb b c = true -> SFltb a c = true.
Proof.
  unfold SFltb, SFleb.
  destruct a as [sa|sa| |sa ma ea], b as [sb|sb| |sb mb eb], c as [sc|sc| |sc mc ec];
    cbn [SFcompare]; try discriminate; try reflexivity;
    repeat match goal with s : bool |- _ => destruct s end;
    try discriminate; try reflexivity.
  all: rewrite ?lexcmp_neg; fold (lexcmp ea ma eb mb); fold (lexcmp eb mb ec mc);
       fold (lexcmp ea ma ec mc);
       pose proof (lexcmp_spec ea eb ma mb) as H1; pose proof (lexcmp_spec eb ec mb mc) as H2;
       pose proof (lexcmp_spec ea ec ma mc) as H3; unfold lexlt in *; revert H1 H2 H3;
       destruct (lexcmp ea ma eb mb), (lexcmp eb mb ec mc), (lexcmp ea ma ec mc);
       cbn; intros H1 H2 H3; try discriminate; try reflexivity; intros _ _; exfalso; lia.
Qed.

Lemma SFle_trans (a b c : spec_float) :
  SFleb a b = true -> SFleb b c = true -> SFleb a c = true.
Proof.
  unfold SFleb.
  destruct a as [sa|sa| |sa ma ea], b as [sb|sb| |sb mb eb], c as [sc|sc| |sc mc ec];
    cbn [SFcompare]; try discriminate; try reflexivity;
    repeat match goal with s : bool |- _ => destruct s end;
    try discriminate; try reflexivity.
  all: rewrite ?lexcmp_neg; fold (lexcmp ea ma eb mb); fold (lexcmp eb mb ec mc);
       fold (lexcmp ea ma ec mc);
       pose proof (lexcmp_spec ea eb ma mb) as H1; pose proof (lexcmp_spec eb ec mb mc) as H2;
       pose proof (lexcmp_spec ea ec ma mc) as H3; unfold lexlt in *; revert H1 H2 H3;
       destruct (lexcmp ea ma eb mb), (lexcmp eb mb ec mc), (lexcmp ea ma ec mc);
       cbn; intros H1 H2 H3; try discriminate; try reflexivity; intros _ _; exfalso; lia.
Qed.

Lemma SFle_total (a b : spec_float) :
  a <> S754_nan -> b <> S754_nan -> SFleb b a = false -> SFleb a b = true.
Proof.
  unfold SFleb.
  destruct a as [sa|sa| |sa ma ea], b as [sb|sb| |sb mb eb];
    cbn [SFcompare]; try congruence; try reflexivity;
    repeat match goal with s : bool |- _ => destruct s end;
    try discriminate; try reflexivity; intros _ _.
  all: rewrite ?lexcmp_neg; fold (lexcmp ea ma eb mb); fold (lexcmp eb mb ea ma);
       pose proof (lexcmp_spec ea eb ma mb) as H1; pose proof (lexcmp_spec eb ea mb ma) as H2;
       unfold lexlt in *; revert H1 H2;
       destruct (lexcmp ea ma eb mb), (lexcmp eb mb ea ma);
       cbn; intros H1 H2; try discriminate; try reflexivity; intros _; exfalso; lia.
Qed.

Lemma SFle_refl (a : spec_float) : a <> S754_nan -> SFleb a a = true.
Proof.
  unfold SFleb. destruct a as [sa|sa| |sa ma ea]; cbn [SFcompare]; try congruence;
    try (destruct sa; reflexivity). intros _.
  destruct sa; rewrite ?lexcmp_neg; fold (lexcmp ea ma ea ma);
    pose proof (lexcmp_spec ea ea ma ma) as H; unfold lexlt in H; revert H;
    destruct (lexcmp ea ma ea ma); cbn; intros H; try reflexivity; exfalso; lia.
Qed.

Lemma SFle_antisym (a b : spec_float) :
  SFleb a b = true -> SFleb b a = true ->
  a = b \/ exists s s', a = S754_zero s /\ b = S754_zero s'.
Proof.
  unfold SFleb.
  destruct a as [sa|sa| |sa ma ea], b as [sb|sb| |sb mb eb];
    cbn [SFcompare]; try discriminate; eauto;
    repeat match goal with s : bool |- _ => destruct s end;
    try discriminate; eauto.
  all: rewrite ?lexcmp_neg; fold (lexcmp ea ma eb mb); fold (lexcmp eb mb ea ma);
       pose proof (lexcmp_spec ea eb ma mb) as H1; pose proof (lexcmp_spec eb ea mb ma) as H2;
       unfold lexlt in *; revert H1 H2;
       destruct (lexcmp ea ma eb mb), (lexcmp eb mb ea ma);
       cbn; intros H1 H2; try discriminate; intros _ _;
       try (exfalso; lia); try (left; destruct H1 as [-> ->]; reflexivity).
Qed.

Lemma not_nan_spec (x : float) : is_nan x = false -> Prim2SF x <> S754_nan.
Proof.
  unfold is_nan. rewrite FloatAxioms.eqb_spec. intros H E. rewrite E in H. discriminate.
Qed.

Lemma ltb_leb_trans (c y x : float) :
  (c <? y)%float = true -> (y <=? x)%float = true -> (c <? x)%float = true.
Proof. rewrite !FloatAxioms.ltb_spec, FloatAxioms.leb_spec. apply SFlt_le_trans. Qed.

Lemma leb_trans (x y z : float) :
  (x <=? y)%float = true -> (y <=? z)%float = true -> (x <=? z)%float = true.
Proof. rewrite !FloatAxioms.leb_spec. apply SFle_trans. Qed.

Lemma leb_total (x y : float) :
  is_nan x = false -> is_nan y = false ->
  (y <=? x)%float = false -> (x <=? y)%float = true.
Proof.
  intros Hx Hy. rewrite !FloatAxioms.leb_spec.
  apply SFle_total; apply not_nan_spec; assumption.
Qed.

Lemma leb_refl (x : float) : is_nan x = false -> (x <=? x)%float = true.
Proof. intros Hx. rewrite FloatAxioms.leb_spec. apply SFle_refl, not_nan_spec, Hx. Qed.

(** Two values that compare equal give the same cutoff test. *)
Lemma cutoff_equiv (c x y v : float) :
  (x <=? y)%float = true -> (y <=? x)%float = true ->
  (c * x <? v)%float = (c * y <? v)%float.
Proof.
  rewrite !FloatAxioms.leb_spec, !FloatAxioms.ltb_spec, !FloatAxioms.mul_spec. intros H1 H2.
  destruct (SFle_antisym _ _ H1 H2) as [E|(s & s' & E & E')].
  - rewrite E. reflexivity.
  - rewrite E, E'. unfold SF64mul, SFmul, SFltb.
    destruct (Prim2SF c) as [sc|sc| |sc mc ec], (Prim2SF v) as [sv|sv| |sv mv ev];
      reflexivity.
Qed.

(** *** The values kept by the cutoff *)

Lemma below_cutoff_all c x s :
  (c <? x)%float = false ->
  forallb (fun y => (y <=? x)%float) s = true ->
  filter (fun v => Is_true (c <? v)%float) s = [].
Proof.
  intros Hx. induction s as [|y s IH]; [reflexivity|].
  cbn [forallb]. intros H. apply andb_true_iff in H as [Hy Hs].
  rewrite filter_cons.
  destruct (c <? y)%float eqn:Hc.
  - rewrite (ltb_leb_trans c y x Hc Hy) in Hx. discriminate.
  - rewrite decide_False by (cbn; tauto). apply IH. exact Hs.
Qed.

Lemma descending_prefix c s :
  descending s = true ->
  take (count_true (above c s)) s = filter (fun v => Is_true (c <? v)%float) s.
Proof.
  rewrite count_true_above.
  induction s as [|x s IH]; [reflexivity|].
  cbn [descending]. intros H. apply andb_true_iff in H as [Hx Hs].
  rewrite filter_cons.
  destruct (c <? x)%float eqn:Hc.
  - rewrite decide_True by (cbn; exact I). cbn [length take]. f_equal. apply IH. exact Hs.
  - rewrite decide_False by (cbn; tauto).
    rewrite (below_cutoff_all c x s Hc Hx). reflexivity.
Qed.

Lemma maximum_of_descending x t :
  forallb (fun y => (y <=? x)%float) t = true -> fold_left np_maximum t x = x.
Proof.
  induction t as [|y t IH]; [reflexivity|].
  cbn [forallb fold_left]. intros H. apply andb_true_iff in H as [Hy Ht].
  unfold np_maximum at 2. rewrite Hy. cbn [orb]. apply IH. exact Ht.
Qed.

(** X29.  [pinv2] inverts [s[:rank]], the first [rank] singular values, where
    [rank] counts the values above the cutoff.  On a double-precision matrix
    and for singular values in descending order, as the decomposition
    returns them, the largest is the first and [s[:rank]] is exactly the
    list of the values above [cutoff * s[0]]: the reciprocals handed to the
    assembly of the pseudo-inverse are those of the values above the cutoff,
    in order, and of no other. *)
Theorem pinv2_keeps_values_above_cutoff (lapack : kernel_lib) (np : numpy_lib) (a : pyobj)
    (cond rcond : option float) (return_rank cf : bool) (st : state) a1 st1 u s vh st2 :
  _asarray_validated a cf st = (Return a1, st1) ->
  is_double (dty a1) = true ->
  decomp_svd_svd lapack a1 st1 = (Return (u, s, vh), st2) ->
  s <> [] ->
  descending s = true ->
  exists cutoff largest,
    resolve_cond (pick_cond cond rcond) (a_dtype u) st2 = (Return cutoff, st2) /\
    head s = Some largest /\
    let kept := filter (fun v => Is_true (cutoff * largest <? v)%float) s in
    pinv2 lapack np a cond rcond return_rank cf st
    = (Return (np_pinv2_B np u (map (fun x => (1 / x)%float) kept) vh (length kept),
               if return_rank then Some (length kept) else None), st2).
Proof.
  intros Ha Hdb Hsvd Hs Hd.
  assert (R : exists v, resolve_cond (pick_cond cond rcond) (a_dtype u) st2 = (Return v, st2)).
  { unfold resolve_cond.
    destruct (pick_cond cond rcond) as [c|]; [destruct (cond_unset (Some c))|];
      try (rewrite default_cond_spec; eexists; reflexivity).
    eexists; reflexivity. }
  destruct R as [cutoff E].
  destruct s as [|x t]; [contradiction|].
  exists cutoff, x. split; [exact E|]. split; [reflexivity|].
  cbv zeta. unfold pinv2. run_with Ha. run_with Hsvd. run_with E.
  unfold bind. cbn [np_max ret].
  pose proof Hd as Hd'. cbn [descending] in Hd'. apply andb_true_iff in Hd' as [Hx _].
  rewrite (maximum_of_descending x t Hx).
  rewrite (svd_dtype _ _ _ _ _ _ _ Hsvd), (cutoff_as_double _ _ Hdb).
  rewrite (map_ext (reciprocal (dty a1)) (fun x => (1 / x)%float))
    by (intros y; unfold reciprocal; rewrite Hdb; reflexivity).
  rewrite (descending_prefix _ _ Hd).
  rewrite count_true_above. reflexivity.
Qed.

(** X29 on a sample: singular values [3] and [2^-40] with the default cutoff;
    only [1/3] is kept. *)
Lemma pinv2_keeps_values_above_cutoff_witness :
  exists u vh,
    pinv2 (sample_lapack 0 2) sample_numpy (PyArray m22) None None true true sample_store
    = (Return (np_pinv2_B sample_numpy u [(1 / 3)%float] vh 1, Some 1),
       mk_state (mem sample_store)
         [Invoke (svd (mk_aval [Re 4; Re 1; Re 1; Re 3] (Sh2 2 2) float64 (Some (0, 0))))]).
Proof.
  destruct (pinv2_keeps_values_above_cutoff (sample_lapack 0 2) sample_numpy (PyArray m22)
              None None true true sample_store m22 sample_store _ _ _ _
              eq_refl eq_refl eq_refl ltac:(discriminate) eq_refl)
    as (cutoff & largest & Ec & El & H).
  injection Ec as <-. injection El as <-.
  eexists _, _. exact H.
Defined.

(** *** The rank does not depend on the order of the spectrum *)

Lemma np_maximum_cases (x y : float) :
  is_nan x = false -> is_nan y = false ->
  let m := np_maximum x y in
  (m = x \/ m = y) /\ (x <=? m)%float = true /\ (y <=? m)%float = true.
Proof.
  intros Hx Hy. unfold np_maximum. rewrite Hx, orb_false_r.
  destruct (y <=? x)%float eqn:E; cbn.
  - split; [left; reflexivity|]. split; [apply leb_refl; exact Hx | exact E].
  - split; [right; reflexivity|]. split; [apply leb_total; assumption | apply leb_refl; exact Hy].
Qed.

Lemma fold_maximum_spec (t : list float) (x : float) :
  Forall (fun v => is_nan v = false) (x :: t) ->
  let m := fold_left np_maximum t x in
  In m (x :: t) /\ Forall (fun v => (v <=? m)%float = true) (x :: t).
Proof.
  revert x. induction t as [|y t IH]; intros x H.
  - cbn. split; [auto|]. constructor; [|constructor].
    apply leb_refl. inversion H; assumption.
  - inversion H as [|? ? Hx Ht]; subst. inversion Ht as [|? ? Hy Ht']; subst.
    destruct (np_maximum_cases x y Hx Hy) as (Hm & Lx & Ly).
    assert (Hn : is_nan (np_maximum x y) = false) by (destruct Hm as [-> | ->]; assumption).
    assert (Hf : Forall (fun v => is_nan v = false) (np_maximum x y :: t))
      by (constructor; assumption).
    destruct (IH (np_maximum x y) Hf) as [Hin Hall].
    cbn [fold_left]. cbv zeta in Hin, Hall |- *.
    set (m := fold_left np_maximum t (np_maximum x y)) in *.
    inversion Hall as [|? ? Hacc Hrest]; subst.
    split.
    + destruct Hin as [E|Hin]; [|right; right; exact Hin].
      rewrite <- E. destruct Hm as [-> | ->]; [left | right; left]; reflexivity.
    + constructor; [eapply leb_trans; eauto|].
      constructor; [eapply leb_trans; eauto | exact Hrest].
Qed.

(** A cutoff product that is a zero or a NaN is the same at every
    precision. *)
Lemma cutoff_as_zero_nan t z :
  (exists s, Prim2SF z = S754_zero s) \/ Prim2SF z = S754_nan -> cutoff_as t z = z.
Proof.
  intros H. unfold cutoff_as. destruct (is_double t); [reflexivity|].
  destruct (_ && _); [|reflexivity].
  unfold Py.round32. destruct H as [[s ->] | ->]; reflexivity.
Qed.

Lemma mul_zero_cases c x s :
  Prim2SF x = S754_zero s ->
  (exists s', Prim2SF (c * x) = S754_zero s') \/ Prim2SF (c * x) = S754_nan.
Proof.
  intros H. rewrite FloatAxioms.mul_spec, H. unfold SF64mul, SFmul.
  destruct (Prim2SF c); eauto.
Qed.

Lemma cutoff_as_equiv t (c x y v : float) :
  (x <=? y)%float = true -> (y <=? x)%float = true ->
  (cutoff_as t (c * x) <? v)%float = (cutoff_as t (c * y) <? v)%float.
Proof.
  intros H1 H2. pose proof (cutoff_equiv c x y v H1 H2) as Q.
  rewrite !FloatAxioms.leb_spec in H1, H2.
  destruct (SFle_antisym _ _ H1 H2) as [E|(s & s' & E & E')].
  - apply FloatAxioms.Prim2SF_inj in E. subst. reflexivity.
  - rewrite (cutoff_as_zero_nan t (c * x)), (cutoff_as_zero_nan t (c * y));
      [exact Q | |]; eapply mul_zero_cases; eauto.
Qed.

Lemma rank_as_permutation t (c : float) (l l' : list float) :
  Permutation l l' ->
  Forall (fun v => is_nan v = false) l ->
  rank_as t c l = rank_as t c l'.
Proof.
  intros P N.
  assert (N' : Forall (fun v => is_nan v = false) l').
  { rewrite <- P. exact N. }
  destruct l as [|x r], l' as [|x' r']; try reflexivity.
  - apply Permutation_nil_l in P. discriminate.
  - symmetry in P. apply Permutation_nil_l in P. discriminate.
  - unfold rank_as.
    destruct (fold_maximum_spec r x N) as [Hin Hall].
    destruct (fold_maximum_spec r' x' N') as [Hin' Hall'].
    cbv zeta in Hin, Hall, Hin', Hall'.
    set (m := fold_left np_maximum r x) in *.
    set (m' := fold_left np_maximum r' x') in *.
    assert (L1 : (m <=? m')%float = true).
    { rewrite Forall_forall in Hall'. apply Hall'.
      apply list_elem_of_In. eapply Permutation_in; [exact P | exact Hin]. }
    assert (L2 : (m' <=? m)%float = true).
    { rewrite Forall_forall in Hall. apply Hall.
      apply list_elem_of_In. eapply Permutation_in; [symmetry; exact P | exact Hin']. }
    rewrite (list_filter_iff (fun v => Is_true (cutoff_as t (c * m) <? v)%float)
                             (fun v => Is_true (cutoff_as t (c * m') <? v)%float) (x :: r)).
    + apply Permutation_length. apply filter_Permutation. exact P.
    + intros v. rewrite (cutoff_as_equiv t c m m' v L1 L2). reflexivity.
Qed.

Lemma pinv2_rank_run (lapack : kernel_lib) (np : numpy_lib) (a : pyobj)
    (cond rcond : option float) (cf : bool) (st : state) a1 st1 u s vh st2 cutoff :
  _asarray_validated a cf st = (Return a1, st1) ->
  decomp_svd_svd lapack a1 st1 = (Return (u, s, vh), st2) ->
  s <> [] ->
  resolve_cond (pick_cond cond rcond) (dty a1) st2 = (Return cutoff, st2) ->
  exists B,
    pinv2 lapack np a cond rcond true cf st
    = (Return (B, Some (rank_as (dty a1) cutoff s)), st2).
Proof.
  intros Ha Hsvd Hs Hc. unfold pinv2. run_with Ha. run_with Hsvd.
  rewrite (svd_dtype _ _ _ _ _ _ _ Hsvd). run_with Hc.
  destruct s as [|x t]; [contradiction|].
  unfold bind. cbn [np_max ret]. eexists. rewrite count_true_above. reflexivity.
Qed.

Lemma pinvh_rank_run (lapack : kernel_lib) (np : numpy_lib) (a : pyobj)
    (cond rcond : option float) (lower cf : bool) (st : state) a1 st1 s u st2 cutoff :
  _asarray_validated a cf st = (Return a1, st1) ->
  decomp_eigh lapack a1 lower st1 = (Return (s, u), st2) ->
  s <> [] ->
  resolve_cond (pick_cond cond rcond) (dty a1) st2 = (Return cutoff, st2) ->
  exists B,
    pinvh lapack np a cond rcond lower true cf st
    = (Return (B, Some (rank_as (dty a1) cutoff (map PrimFloat.abs s))), st2).
Proof.
  intros Ha Heig Hs Hc. unfold pinvh. run_with Ha. run_with Heig.
  rewrite (eigh_dtype _ _ _ _ _ _ _ Heig). run_with Hc.
  destruct s as [|x t]; [contradiction|].
  unfold bind. cbn [np_max ret map]. eexists.
  rewrite length_map, length_select_mask.
  - rewrite count_true_above. reflexivity.
  - unfold above. cbn [map length]. rewrite !length_map. reflexivity.
Qed.

(** X30.  [pinv2] and [pinvh] agree on the rank: called with the same cutoff
    arguments on the same matrix, when the magnitudes of the eigenvalues are
    the singular values in some order (as they are for a Hermitian matrix) and
    none is a NaN, both return the same rank.  The order is immaterial: in
    binary64 arithmetic, signed zeros included, the number of values above
    [cutoff * largest] does not change when the values are rearranged (nor
    does it when the comparison is made in single precision). *)
Theorem pinv2_pinvh_same_rank (lapack : kernel_lib) (np : numpy_lib) (a : pyobj)
    (cond rcond : option float) (lower cf : bool) (st : state)
    a1 st1 u s vh st2 ev w st2' :
  _asarray_validated a cf st = (Return a1, st1) ->
  decomp_svd_svd lapack a1 st1 = (Return (u, s, vh), st2) ->
  decomp_eigh lapack a1 lower st1 = (Return (ev, w), st2') ->
  Permutation (map PrimFloat.abs ev) s ->
  Forall (fun v => is_nan v = false) s ->
  s <> [] ->
  exists B B' rank,
    pinv2 lapack np a cond rcond true cf st = (Return (B, Some rank), st2) /\
    pinvh lapack np a cond rcond lower true cf st = (Return (B', Some rank), st2').
Proof.
  intros Ha Hsvd Heig P N Hs.
  destruct (resolve_cond_total (pick_cond cond rcond) (dty a1)) as [cutoff Hc].
  assert (Hev : ev <> []).
  { intros ->. cbn in P. apply Permutation_nil_l in P. congruence. }
  destruct (pinv2_rank_run lapack np a cond rcond cf st a1 st1 u s vh st2 cutoff
              Ha Hsvd Hs (Hc st2)) as [B E].
  destruct (pinvh_rank_run lapack np a cond rcond lower cf st a1 st1 ev w st2' cutoff
              Ha Heig Hev (Hc st2')) as [B' E'].
  exists B, B', (rank_as (dty a1) cutoff s). split; [exact E|].
  rewrite <- (rank_as_permutation (dty a1) cutoff s (map PrimFloat.abs ev)
                (Permutation_sym P) N) in E'.
  exact E'.
Qed.

(** X30 on a sample: singular values [3], [2^-40] and eigenvalues [2^-40],
    [-3]. *)
Lemma pinv2_pinvh_same_rank_witness :
  exists B B' rank st2 st2',
    pinv2 spectral_lapack sample_numpy (PyArray m22) None None true true sample_store
    = (Return (B, Some rank), st2) /\
    pinvh spectral_lapack sample_numpy (PyArray m22) None None true true true sample_store
    = (Return (B', Some rank), st2').
Proof.
  destruct (pinv2_pinvh_same_rank spectral_lapack sample_numpy (PyArray m22) None None
              true true sample_store m22 sample_store _ [3; 0x1p-40]%float _ _
              [0x1p-40; -3]%float _ _ eq_refl eq_refl eq_refl)
    as (B & B' & rank & E & E').
  - cbn. apply perm_swap.
  - repeat constructor.
  - discriminate.
  - eexists _, _, _, _, _. split; [exact E | exact E'].
Defined.
